(** * Audience rule compiler and campaign dispatch of the CRM backend

    A shallow embedding of [buildSegmentQuery] (routes/campaigns.js and
    routes/segments.js), of the campaign launch handler [POST /api/campaigns]
    and of the receipt handler [POST /api/campaigns/delivery-receipt],
    together with the parts of the Mongoose models they read and write.

    JavaScript numbers are modelled by rationals [Q] (every finite double is
    one, and the comparisons made here are exact), time values by integer
    milliseconds since the epoch, strings by [string], holding the UTF-8
    form of the text.

    The database is a record of collections.  A save of a document that
    passes validation is taken to succeed, and the log a callback makes is
    taken to pass it (its message is not empty: the template has ten
    characters or more and a stored customer has a name).  The callbacks of a launch and the receipt
    handlers interleave with each other at their awaits, which is the step
    relation [Dispatch.step]. *)

From Stdlib Require Import ZArith QArith Qround Ascii String DecimalString
  DecimalPos DecimalZ Lia Lqa.
From stdpp Require Import base option list strings gmap relations.

Set Warnings "-register-all".

Local Open Scope string_scope.
Local Open Scope Z_scope.

(** ** The JavaScript runtime: dates and coercions *)

Module Js.

(** Values a rule can carry in its [value] field (the route's Joi schema
    admits a number, a string or an array). *)
Inductive Json :=
| JNum (q : Q)
| JStr (s : string)
| JArr (l : list Json).

(** A property that may be absent ([undefined]), [null] or hold a value:
    a field of a request body, a path of a stored document. *)
Inductive Field (A : Type) :=
| Absent
| Null
| Value (a : A).

Arguments Absent {A}.
Arguments Null {A}.
Arguments Value {A} a.

#[global] Instance Field_eq_dec {A} `{EqDecision A} : EqDecision (Field A).
Proof. solve_decision. Defined.

(** A Number: a finite one, an infinity or NaN. *)
Inductive Number :=
| Finite (q : Q)
| Infinity (negative : bool)
| NaN.

Definition finite (n : Number) : option Q :=
  match n with
  | Finite q => Some q
  | _ => None
  end.

(** The host: the clock read by [new Date()] (indexed by the iteration of
    the loop that reads it), the local time zone adjustment of ECMAScript
    ([LocalTZA t isUTC]), and the conversions [StringToNumber],
    [Number::toString], [Date.parse] ([None] is NaN) and
    [Date.prototype.toString] ([None] is an Invalid Date). *)
Record Runtime := {
  clock : nat -> Z;
  LocalTZA : Z -> bool -> Z;
  StringToNumber : string -> Number;
  NumberToString : Q -> string;
  DateParse : string -> option Z;
  DateToString : option Z -> string
}.

Definition msPerDay : Z := 24 * 60 * 60 * 1000.

Definition Day (t : Z) : Z := t / msPerDay.
Definition TimeWithinDay (t : Z) : Z := t mod msPerDay.

Definition LocalTime (rt : Runtime) (t : Z) : Z := t + LocalTZA rt t true.
Definition UTC (rt : Runtime) (t : Z) : Z := t - LocalTZA rt t false.

(** Day of the month (1..31) of a time value, in the proleptic Gregorian
    calendar. *)
Definition DateFromTime (t : Z) : Z :=
  let z := Day t + 719468 in
  let era := z / 146097 in
  let doe := z - era * 146097 in
  let yoe := (doe - doe / 1460 + doe / 36524 - doe / 146096) / 365 in
  let doy := doe - (365 * yoe + yoe / 4 - yoe / 100) in
  let mp := (5 * doy + 2) / 153 in
  doy - (153 * mp + 2) / 5 + 1.

(** [TimeClip]: a time value outside +-8.64e15 ms is an Invalid Date. *)
Definition maxTime : Z := 8640000000000000.

Definition TimeClip (t : Z) : option Z :=
  if (Z.abs t <=? maxTime) then Some t else None.

(** [ToIntegerOrInfinity] on a finite number: truncation toward zero. *)
Definition truncate (q : Q) : Z := Z.quot (Qnum q) (Zpos (Qden q)).

(** [ToNumber] of a rule value, when it is finite ([None] for NaN and for
    the infinities, which leave [setDate] with an Invalid Date alike); an
    array goes through its string form (the empty array is the empty
    string, a one-element array is its element, a longer one contains a
    comma and is NaN). *)
Fixpoint ToNumber (rt : Runtime) (v : Json) : option Q :=
  match v with
  | JNum q => Some q
  | JStr s => finite (StringToNumber rt s)
  | JArr [] => finite (StringToNumber rt EmptyString)
  | JArr [x] => ToNumber rt x
  | JArr _ => None
  end.

(** [ToString] of a rule value: an array is its elements joined by
    commas. *)
Fixpoint ToString (rt : Runtime) (v : Json) : string :=
  match v with
  | JNum q => NumberToString rt q
  | JStr s => s
  | JArr l =>
      (fix join (l : list Json) : string :=
         match l with
         | [] => EmptyString
         | [x] => ToString rt x
         | x :: l' => ToString rt x ++ "," ++ join l'
         end) l
  end%string.

(** [d.getDate()] for the date [d] with time value [t]. *)
Definition getDate (rt : Runtime) (t : Z) : Z := DateFromTime (LocalTime rt t).

(** [d.setDate(dt)]: [MakeDay] moves to day [trunc dt] of the month of [d]
    (days outside the month roll over), [MakeDate] keeps the time within
    the day, and the result is converted back and clipped.  [dt = None] is
    NaN and gives an Invalid Date. *)
Definition setDate (rt : Runtime) (t : Z) (dt : option Q) : option Z :=
  match dt with
  | None => None
  | Some d =>
      let lt := LocalTime rt t in
      let day := Day lt - DateFromTime lt + 1 + truncate d - 1 in
      TimeClip (UTC rt (day * msPerDay + TimeWithinDay lt))
  end.

(** [a - b] where [a] is a number and [b] is coerced by [ToNumber]. *)
Definition minus (a : Z) (b : option Q) : option Q :=
  match b with
  | Some q => Some (inject_Z a - q)%Q
  | None => None
  end.

(** A time zone with a fixed offset from UTC (no daylight saving). *)
Definition fixedZone (rt : Runtime) : Prop :=
  exists off, forall t b, LocalTZA rt t b = off.

(** *** Strings

    A [string] holds the UTF-8 form of a text.  [units] is what [s.length]
    counts, UTF-16 code units: one for each code point and one more for
    each code point beyond the basic plane (whose UTF-8 form starts with a
    byte from 240 on); the bytes 128..191 continue a code point. *)
Fixpoint units (s : string) : nat :=
  match s with
  | EmptyString => 0
  | String c rest =>
      let n := nat_of_ascii c in
      ((if (n <? 128)%nat then 1
        else if (n <? 192)%nat then 0
        else if (n <? 240)%nat then 1
        else 2) + units rest)%nat
  end.

Definition bytes (l : list nat) : string :=
  string_of_list_ascii (map ascii_of_nat l).

(** The code points [trim] strips, WhiteSpace and LineTerminator of
    ECMAScript, in UTF-8: U+0009..U+000D, U+0020, U+00A0, U+1680,
    U+2000..U+200A, U+2028, U+2029, U+202F, U+205F, U+3000, U+FEFF. *)
Definition whiteSpace : list string :=
  map bytes
    [ [9]; [10]; [11]; [12]; [13]; [32]; [194; 160]; [225; 154; 128];
      [226; 128; 128]; [226; 128; 129]; [226; 128; 130]; [226; 128; 131];
      [226; 128; 132]; [226; 128; 133]; [226; 128; 134]; [226; 128; 135];
      [226; 128; 136]; [226; 128; 137]; [226; 128; 138];
      [226; 128; 168]; [226; 128; 169]; [226; 128; 175];
      [226; 129; 159]; [227; 128; 128]; [239; 187; 191] ]%nat.

(** [s] without the prefix [p], when it starts with it. *)
Fixpoint stripPrefix (p s : string) : option string :=
  match p, s with
  | EmptyString, _ => Some s
  | String a p', String b s' => if Ascii.eqb a b then stripPrefix p' s' else None
  | String _ _, EmptyString => None
  end.

(** [s] without its first code point, when that is one of [ps]. *)
Fixpoint stripFirst (ps : list string) (s : string) : option string :=
  match ps with
  | [] => None
  | p :: ps' =>
      match stripPrefix p s with
      | Some s' => Some s'
      | None => stripFirst ps' s
      end
  end.

Definition stripWhiteSpace (s : string) : option string := stripFirst whiteSpace s.

Fixpoint trimStartFrom (n : nat) (s : string) : string :=
  match n with
  | O => s
  | S n' =>
      match stripWhiteSpace s with
      | Some s' => trimStartFrom n' s'
      | None => s
      end
  end.

Definition trimStart (s : string) : string := trimStartFrom (String.length s) s.

(** From the right: what is left of [String c rest] once [rest] is
    trimmed is dropped when it is one white space code point. *)
Fixpoint trimEnd (s : string) : string :=
  match s with
  | EmptyString => EmptyString
  | String c rest =>
      let t := String c (trimEnd rest) in
      if existsb (String.eqb t) whiteSpace then EmptyString else t
  end.

(** [s.trim()] *)
Definition trim (s : string) : string := trimEnd (trimStart s).

End Js.

(** ** Customers and MongoDB queries *)

Module Mongo.
Import Js.

(** models/Customer.js: the stored fields the queries read. *)
Record Customer := {
  _id : string;
  name : string;
  email : string;
  totalSpent : Q;
  visitCount : Q;
  lastVisit : option Z;
  city : option string
}.

(** The virtual [custromerTier] (sic) of models/Customer.js. *)
Definition custromerTier (c : Customer) : string :=
  if Qlt_le_dec 50000 (totalSpent c) then "PREMIUM"
  else if Qlt_le_dec 20000 (totalSpent c) then "GOLD"
  else if Qlt_le_dec 5000 (totalSpent c) then "SILVER"
  else "BRONZE".

(** The virtual [daysSinceLastVisit]; [now] is [Date.now()]. *)
Definition daysSinceLastVisit (now : Z) (c : Customer) : option Z :=
  match lastVisit c with
  | None => None
  | Some t => Some ((now - t) / (1000 * 60 * 60 * 24))
  end.

(** Right-hand sides of a query document: a rule's value, a [Date]
    ([None] is an Invalid Date) or [undefined] (which is sent as null, and
    stands for null as well); and, once Mongoose has cast the query, an
    infinite number or the list of an [$in]. *)
Inductive Operand :=
| OJson (v : Json)
| ODate (t : option Z)
| OUndefined
| OInfinity (negative : bool)
| OList (l : list Operand).

(** What a condition asks of one field: a plain value (equality) or an
    operator document such as [{ $gte: a, $lt: b }]. *)
Inductive FieldCond :=
| FValue (v : Operand)
| FOps (ops : list (string * Operand)).

(** A condition is an object literal, its keys in insertion order. *)
Definition Condition := list (string * FieldCond).

(** What [buildSegmentQuery] returns: a condition, or [{ [op]: conditions }]. *)
Inductive Query :=
| QCond (c : Condition)
| QCombine (op : string) (cs : list Condition).

(** A field of a stored customer, by path. *)
Inductive DocValue :=
| DNum (q : Q)
| DStr (s : string)
| DDate (t : Z)
| DMissing.

(** The paths that the conditions of a stored segment can name: the
    rules of a segment are validated against the [enum] of
    models/Segment.js, so the compiler is given the fields [totalSpent],
    [visitCount], [location.city] (and the two it treats itself), and it
    adds [lastVisit].  Any other path is read as one the customer does not
    have. *)
Definition getField (c : Customer) (path : string) : DocValue :=
  if String.eqb path "totalSpent" then DNum (totalSpent c)
  else if String.eqb path "visitCount" then DNum (visitCount c)
  else if String.eqb path "lastVisit" then
    match lastVisit c with Some t => DDate t | None => DMissing end
  else if String.eqb path "location.city" then
    match city c with Some s => DStr s | None => DMissing end
  else DMissing.

(** MongoDB compares within a type only; [undefined] is sent as null, which
    is equal to a missing field and to nothing else here.  An Invalid Date
    and an array compare with no stored scalar. *)
Definition compareValue (d : DocValue) (o : Operand) : option comparison :=
  match d, o with
  | DNum a, OJson (JNum b) => Some (a ?= b)%Q
  | DNum a, OInfinity negative => Some (if negative then Gt else Lt)
  | DStr a, OJson (JStr b) => Some (String.compare a b)
  | DDate a, ODate (Some b) => Some (a ?= b)%Z
  | DMissing, OUndefined => Some Eq
  | _, _ => None
  end.

Definition isEqual (d : DocValue) (o : Operand) : bool :=
  match compareValue d o with Some Eq => true | _ => false end.

Definition isIn (d : DocValue) (o : Operand) : bool :=
  match o with
  | OJson (JArr l) => existsb (fun v => isEqual d (OJson v)) l
  | OList l => existsb (isEqual d) l
  | _ => false
  end.

Definition matchOp (op : string) (d : DocValue) (o : Operand) : bool :=
  if String.eqb op "$gt" then
    match compareValue d o with Some Gt => true | _ => false end
  else if String.eqb op "$lt" then
    match compareValue d o with Some Lt => true | _ => false end
  else if String.eqb op "$gte" then
    match compareValue d o with Some Gt | Some Eq => true | _ => false end
  else if String.eqb op "$lte" then
    match compareValue d o with Some Lt | Some Eq => true | _ => false end
  else if String.eqb op "$ne" then negb (isEqual d o)
  else if String.eqb op "$in" then isIn d o
  else if String.eqb op "$nin" then negb (isIn d o)
  else false.

Definition matchField (d : DocValue) (fc : FieldCond) : bool :=
  match fc with
  | FValue o => isEqual d o
  | FOps ops => forallb (fun '(op, o) => matchOp op d o) ops
  end.

(** A condition holds when each of its keys does; the empty one always. *)
Definition matchesCondition (c : Customer) (cond : Condition) : bool :=
  forallb (fun '(path, fc) => matchField (getField c path) fc) cond.

Definition matchesQuery (c : Customer) (q : Query) : bool :=
  match q with
  | QCond cond => matchesCondition c cond
  | QCombine op cs =>
      if String.eqb op "$and" then forallb (matchesCondition c) cs
      else if String.eqb op "$or" then existsb (matchesCondition c) cs
      else false
  end.

(** *** Casting

    Before a query is sent, Mongoose casts the value of every path of the
    schema to the type of the path, and throws a CastError ([None] below)
    when a value cannot be cast. *)

(** models/Customer.js: the types of the paths of [getField]. *)
Inductive PathType := PNumber | PString | PDate.

Definition schemaType (path : string) : option PathType :=
  if String.eqb path "totalSpent" then Some PNumber
  else if String.eqb path "visitCount" then Some PNumber
  else if String.eqb path "lastVisit" then Some PDate
  else if String.eqb path "location.city" then Some PString
  else None.

(** [castNumber]: null, the empty string (null), a number, a string that
    is a number, a valid date (its time value). *)
Definition castNumber (rt : Runtime) (o : Operand) : option Operand :=
  match o with
  | OUndefined => Some OUndefined
  | OJson (JNum q) => Some o
  | OJson (JStr s) =>
      if String.eqb s EmptyString then Some OUndefined
      else
        match StringToNumber rt s with
        | Finite q => Some (OJson (JNum q))
        | Infinity negative => Some (OInfinity negative)
        | NaN => None
        end
  | OJson (JArr _) => None
  | ODate (Some t) => Some (OJson (JNum (inject_Z t)))
  | ODate None => None
  | OInfinity _ => Some o
  | OList _ => None
  end.

(** [castString]: null, a string, and the string form of anything but an
    array. *)
Definition castString (rt : Runtime) (o : Operand) : option Operand :=
  match o with
  | OUndefined => Some OUndefined
  | OJson (JStr s) => Some o
  | OJson (JNum q) => Some (OJson (JStr (NumberToString rt q)))
  | OJson (JArr _) => None
  | ODate t => Some (OJson (JStr (DateToString rt t)))
  | OInfinity negative => Some (OJson (JStr (if negative then "-Infinity" else "Infinity")))
  | OList _ => None
  end.

(** [castDate]: null, the empty string (null), a valid date, the date of
    a number, and for a string the date of its number when that lies
    outside the years, else the date it parses to; an array is parsed in
    its string form. *)
Definition castDate (rt : Runtime) (o : Operand) : option Operand :=
  let valid (t : option Z) := match t with Some _ => Some (ODate t) | None => None end in
  match o with
  | OUndefined => Some OUndefined
  | ODate t => valid t
  | OJson (JNum q) => valid (TimeClip (truncate q))
  | OJson (JStr s) =>
      if String.eqb s EmptyString then Some OUndefined
      else
        match StringToNumber rt s with
        | Finite q =>
            if Qle_bool 275761 q || negb (Qle_bool (-271820) q)
            then valid (TimeClip (truncate q))
            else valid (DateParse rt s)
        | Infinity _ => None
        | NaN => valid (DateParse rt s)
        end
  | OJson (JArr l) => valid (DateParse rt (ToString rt (JArr l)))
  | OInfinity _ => None
  | OList _ => None
  end.

Definition castValue (rt : Runtime) (ty : PathType) (o : Operand) : option Operand :=
  match ty with
  | PNumber => castNumber rt o
  | PString => castString rt o
  | PDate => castDate rt o
  end.

(** The operand of [$in] and [$nin]: each element of an array is cast, and
    a value that is not an array becomes an array of one. *)
Definition castArray (rt : Runtime) (ty : PathType) (o : Operand) : option Operand :=
  match o with
  | OJson (JArr l) => OList <$> mapM (fun v => castValue rt ty (OJson v)) l
  | _ => (fun o' => OList [o']) <$> castValue rt ty o
  end.

(** One operator of an operator document; an operator the path has no
    handler for is a CastError. *)
Definition castOp (rt : Runtime) (ty : PathType) (op : string) (o : Operand)
  : option (string * Operand) :=
  if existsb (String.eqb op) ["$gt"; "$gte"; "$lt"; "$lte"; "$ne"; "$eq"] then
    pair op <$> castValue rt ty o
  else if existsb (String.eqb op) ["$in"; "$nin"] then
    pair op <$> castArray rt ty o
  else None.

(** What a path of the schema is asked: null is left alone, an array as a
    plain value is rewritten to [$in], an operator document is cast
    operator by operator (an empty one is cast as a value, and fails). *)
Definition castField (rt : Runtime) (ty : PathType) (fc : FieldCond) : option FieldCond :=
  match fc with
  | FValue OUndefined => Some fc
  | FValue (OJson (JArr l)) =>
      (fun o => FOps [("$in", o)]) <$> castArray rt ty (OJson (JArr l))
  | FValue o => FValue <$> castValue rt ty o
  | FOps [] => None
  | FOps ops => FOps <$> mapM (fun '(op, o) => castOp rt ty op o) ops
  end.

(** A condition: a path the schema does not have is dropped from the
    query under [strictQuery] and left as it is otherwise. *)
Fixpoint castCondition (rt : Runtime) (strictQuery : bool) (cond : Condition)
  : option Condition :=
  match cond with
  | [] => Some []
  | (path, fc) :: rest =>
      match schemaType path with
      | Some ty =>
          fc' ← castField rt ty fc;
          rest' ← castCondition rt strictQuery rest;
          Some ((path, fc') :: rest')
      | None =>
          rest' ← castCondition rt strictQuery rest;
          Some (if strictQuery then rest' else (path, fc) :: rest')
      end
  end.

Definition cast (rt : Runtime) (strictQuery : bool) (q : Query) : option Query :=
  match q with
  | QCond cond => QCond <$> castCondition rt strictQuery cond
  | QCombine op cs => QCombine op <$> mapM (castCondition rt strictQuery) cs
  end.

(** [Customer.find(query)] and [Customer.countDocuments(query)]: the
    customers the cast query holds of, or [None] when casting throws. *)
Definition find (rt : Runtime) (strictQuery : bool) (customers : list Customer)
    (q : Query) : option (list Customer) :=
  q' ← cast rt strictQuery q;
  Some (List.filter (fun c => matchesQuery c q') customers).

Definition countDocuments (rt : Runtime) (strictQuery : bool)
    (customers : list Customer) (q : Query) : option nat :=
  length <$> find rt strictQuery customers q.

End Mongo.

(** ** The rule compiler: [buildSegmentQuery] *)

Module Rules.
Import Js Mongo.

(** models/Segment.js: one rule of a segment. *)
Record Rule := {
  field : string;
  operator : string;
  value : Json;
  logicalOperator : option string
}.

(** The table of [buildSegmentQuery]: [max = None] is [Infinity]. *)
Definition tierRanges : list (string * (Q * option Q)) :=
  [ ("PREMIUM", (50001 # 1, None));
    ("GOLD", (20001 # 1, Some (50000 # 1)));
    ("SILVER", (5001 # 1, Some (20000 # 1)));
    ("BRONZE", (0 # 1, Some (5000 # 1))) ]%Q.

(** [tierRanges] is an object literal: a lookup that misses its own keys
    goes on to [Object.prototype], whose properties are all truthy. *)
Definition ObjectPrototype : list string :=
  [ "constructor"; "__defineGetter__"; "__defineSetter__"; "hasOwnProperty";
    "__lookupGetter__"; "__lookupSetter__"; "isPrototypeOf";
    "propertyIsEnumerable"; "toString"; "valueOf"; "__proto__";
    "toLocaleString" ].

(** The string a value becomes when used as a property key, as far as a
    lookup in [tierRanges] can tell: a number becomes a numeral, an array
    with no or with several elements the empty string or a string with a
    comma, and [None] stands for these (no property has such a name). *)
Fixpoint ToPropertyKey (v : Json) : option string :=
  match v with
  | JStr s => Some s
  | JNum _ => None
  | JArr [x] => ToPropertyKey x
  | JArr _ => None
  end.

Inductive Property :=
| Own (range : Q * option Q)
| Inherited
| Undefined.

Fixpoint assoc {A} (k : string) (l : list (string * A)) : option A :=
  match l with
  | [] => None
  | (k', a) :: l' => if String.eqb k k' then Some a else assoc k l'
  end.

(** [tierRanges[v]]. *)
Definition tierRangesAt (v : Json) : Property :=
  match ToPropertyKey v with
  | None => Undefined
  | Some k =>
      match assoc k tierRanges with
      | Some r => Own r
      | None => if existsb (String.eqb k) ObjectPrototype then Inherited else Undefined
      end
  end.

(** [condition[key] = fc] on the empty object: assigning to [__proto__]
    sets the prototype and adds no key. *)
Definition setKey (key : string) (fc : FieldCond) : Condition :=
  if String.eqb key "__proto__" then [] else [(key, fc)].

(** [Array.isArray(v) ? v : [v]]. *)
Definition asArray (v : Json) : Json :=
  match v with
  | JArr _ => v
  | _ => JArr [v]
  end.

(** The body of the loop of [buildSegmentQuery] for the rule at index [i]. *)
Definition ruleCondition (rt : Runtime) (i : nat) (rule : Rule) : Condition :=
  if String.eqb (field rule) "daysSinceLastVisit" then
    let now := clock rt i in
    let daysAgo := setDate rt now (minus (getDate rt now) (ToNumber rt (value rule))) in
    if String.eqb (operator rule) ">" then
      [("lastVisit", FOps [("$lt", ODate daysAgo)])]
    else if String.eqb (operator rule) "<" then
      [("lastVisit", FOps [("$gt", ODate daysAgo)])]
    else if String.eqb (operator rule) ">=" then
      [("lastVisit", FOps [("$lte", ODate daysAgo)])]
    else if String.eqb (operator rule) "<=" then
      [("lastVisit", FOps [("$gte", ODate daysAgo)])]
    else if String.eqb (operator rule) "=" then
      [("lastVisit",
        FOps [("$gte", ODate daysAgo);
              ("$lt", ODate (t ← daysAgo; TimeClip (t + 24 * 60 * 60 * 1000)))])]
    else []
  else if String.eqb (field rule) "customerTier" then
    if String.eqb (operator rule) "=" then
      match tierRangesAt (value rule) with
      | Own (min, max) =>
          [("totalSpent",
            FOps (("$gte", OJson (JNum min)) ::
                  match max with
                  | Some m => [("$lte", OJson (JNum m))]
                  | None => []
                  end))]
      | Inherited =>
          [("totalSpent", FOps [("$gte", OUndefined); ("$lte", OUndefined)])]
      | Undefined => []
      end
    else []
  else
    if String.eqb (operator rule) ">" then
      setKey (field rule) (FOps [("$gt", OJson (value rule))])
    else if String.eqb (operator rule) "<" then
      setKey (field rule) (FOps [("$lt", OJson (value rule))])
    else if String.eqb (operator rule) ">=" then
      setKey (field rule) (FOps [("$gte", OJson (value rule))])
    else if String.eqb (operator rule) "<=" then
      setKey (field rule) (FOps [("$lte", OJson (value rule))])
    else if String.eqb (operator rule) "=" then
      setKey (field rule) (FValue (OJson (value rule)))
    else if String.eqb (operator rule) "!=" then
      setKey (field rule) (FOps [("$ne", OJson (value rule))])
    else if String.eqb (operator rule) "in" then
      setKey (field rule) (FOps [("$in", OJson (asArray (value rule)))])
    else if String.eqb (operator rule) "not_in" then
      setKey (field rule) (FOps [("$nin", OJson (asArray (value rule)))])
    else [].

(** [buildSegmentQuery(rules)]; the clock is read at [rt]. *)
Definition buildSegmentQuery (rt : Runtime) (rules : list Rule) : Query :=
  match rules with
  | [] => QCond []
  | first :: _ =>
      let conditions := imap (ruleCondition rt) rules in
      match conditions with
      | [c] => QCond c
      | _ =>
          let operator :=
            match logicalOperator first with
            | Some op => if String.eqb op "OR" then "$or" else "$and"
            | None => "$and"
            end in
          QCombine operator conditions
      end
  end.

(** Two shapes of rule: [customerTier = label] and
    [daysSinceLastVisit op days]. *)
Definition tierRule (label : string) (lo : option string) : Rule :=
  {| field := "customerTier"; operator := "="; value := JStr label;
     logicalOperator := lo |}.

Definition daysRule (op : string) (days : Z) (lo : option string) : Rule :=
  {| field := "daysSinceLastVisit"; operator := op;
     value := JNum (inject_Z days); logicalOperator := lo |}.

(** A rule with its [logicalOperator] replaced. *)
Definition withLogical (lo : option string) (r : Rule) : Rule :=
  {| field := field r; operator := operator r; value := value r;
     logicalOperator := lo |}.

(** A value names a property of [tierRanges]: one of its four keys or a
    name found on [Object.prototype]. *)
Definition namesProperty (v : Json) : Prop :=
  exists k, ToPropertyKey v = Some k /\
            (In k (map fst tierRanges) \/ In k ObjectPrototype).

End Rules.

(** ** The stored models *)

(** models/Segment.js *)
Module Segment.
Record doc := {
  name : string;
  rules : list Rules.Rule;
  audienceSize : Z
}.
End Segment.

(** models/Campaign.js *)
Module Campaign.

Inductive Status := DRAFT | SCHEDULED | RUNNING | COMPLETED | FAILED.

Record Stats := {
  sent : Z;
  failed : Z;
  delivered : Z;
  opened : Z;
  clicked : Z
}.

(** The schema's defaults. *)
Definition noStats : Stats :=
  {| sent := 0; failed := 0; delivered := 0; opened := 0; clicked := 0 |}.

Record doc := {
  _id : string;
  name : string;
  segmentId : string;
  message : string;
  audienceSize : Z;
  status : Status;
  createdBy : string;
  stats : Stats
}.

Definition setStatus (s : Status) (c : doc) : doc :=
  {| _id := _id c; name := name c; segmentId := segmentId c;
     message := message c; audienceSize := audienceSize c; status := s;
     createdBy := createdBy c; stats := stats c |}.

Definition setStats (st : Stats) (c : doc) : doc :=
  {| _id := _id c; name := name c; segmentId := segmentId c;
     message := message c; audienceSize := audienceSize c; status := status c;
     createdBy := createdBy c; stats := st |}.

(** [stats.sent++], [stats.failed++], [stats.delivered++]. *)
Definition incSent (st : Stats) : Stats :=
  {| sent := sent st + 1; failed := failed st; delivered := delivered st;
     opened := opened st; clicked := clicked st |}.

Definition incFailed (st : Stats) : Stats :=
  {| sent := sent st; failed := failed st + 1; delivered := delivered st;
     opened := opened st; clicked := clicked st |}.

Definition incDelivered (st : Stats) : Stats :=
  {| sent := sent st; failed := failed st; delivered := delivered st + 1;
     opened := opened st; clicked := clicked st |}.

End Campaign.

(** models/CommunicationLog.js *)
Module CommunicationLog.
Import Js.

Inductive Status := PENDING | SENT | FAILED | DELIVERED | OPENED | CLICKED.

(** The [enum] validator of the [status] path: the strings a save accepts. *)
Definition statusOfString (s : string) : option Status :=
  if String.eqb s "PENDING" then Some PENDING
  else if String.eqb s "SENT" then Some SENT
  else if String.eqb s "FAILED" then Some FAILED
  else if String.eqb s "DELIVERED" then Some DELIVERED
  else if String.eqb s "OPENED" then Some OPENED
  else if String.eqb s "CLICKED" then Some CLICKED
  else None.

#[global] Instance Status_eq_dec : EqDecision Status.
Proof. solve_decision. Defined.

Definition statusToString (s : Status) : string :=
  match s with
  | PENDING => "PENDING"
  | SENT => "SENT"
  | FAILED => "FAILED"
  | DELIVERED => "DELIVERED"
  | OPENED => "OPENED"
  | CLICKED => "CLICKED"
  end.

(** A stored log.  The [status] path is not required: a stored log may
    have none, or null. *)
Record doc := {
  campaignId : string;
  customerId : string;
  message : string;
  status : Field Status;
  sentAt : option Z;
  deliveredAt : option Z;
  failureReason : option string;
  vendorMessageId : string
}.

Definition setStatus (s : Field Status) (l : doc) : doc :=
  {| campaignId := campaignId l; customerId := customerId l;
     message := message l; status := s; sentAt := sentAt l;
     deliveredAt := deliveredAt l; failureReason := failureReason l;
     vendorMessageId := vendorMessageId l |}.

Definition setSentAt (t : Z) (l : doc) : doc :=
  {| campaignId := campaignId l; customerId := customerId l;
     message := message l; status := status l; sentAt := Some t;
     deliveredAt := deliveredAt l; failureReason := failureReason l;
     vendorMessageId := vendorMessageId l |}.

Definition setDeliveredAt (t : Z) (l : doc) : doc :=
  {| campaignId := campaignId l; customerId := customerId l;
     message := message l; status := status l; sentAt := sentAt l;
     deliveredAt := Some t; failureReason := failureReason l;
     vendorMessageId := vendorMessageId l |}.

Definition setFailureReason (r : string) (l : doc) : doc :=
  {| campaignId := campaignId l; customerId := customerId l;
     message := message l; status := status l; sentAt := sentAt l;
     deliveredAt := deliveredAt l; failureReason := Some r;
     vendorMessageId := vendorMessageId l |}.


End CommunicationLog.

(** The collections the handlers read and write.  A log is identified by
    its position in [logs] (documents are only ever appended). *)
Record Db := {
  customers : list Mongo.Customer;
  segments : gmap string Segment.doc;
  campaigns : gmap string Campaign.doc;
  logs : list CommunicationLog.doc
}.

Definition setCampaigns (cs : gmap string Campaign.doc) (db : Db) : Db :=
  {| customers := customers db; segments := segments db; campaigns := cs;
     logs := logs db |}.

Definition setLogs (ls : list CommunicationLog.doc) (db : Db) : Db :=
  {| customers := customers db; segments := segments db;
     campaigns := campaigns db; logs := ls |}.

(** What a handler answers. *)
Inductive Response :=
| Ok (message : string)
| Created (message : string) (campaign : Campaign.doc)
| Error (code : Z) (error : string).

(** ** Receipt ingestion: [POST /api/campaigns/delivery-receipt] *)

Module Receipts.
Import Js.

(** The request body.  [status] is absent, null or a string (a value of
    another type is turned into a string by the cast of the path, and none
    of those strings is in the [enum]); [deliveredAt] is [None] when
    absent (or falsy) and otherwise the time a well-formed date string
    denotes.  A body without [vendorMessageId] finds no log, as an id does
    that no log carries. *)
Record Receipt := {
  vendorMessageId : string;
  status : Field string;
  deliveredAt : option Z
}.

(** [CommunicationLog.findOne({ vendorMessageId })]: the first stored log
    with that id, with its position. *)
Definition findOne (ls : list CommunicationLog.doc) (id : string)
  : option (nat * CommunicationLog.doc) :=
  list_find (fun l => CommunicationLog.vendorMessageId l = id) ls.

(** [commLog.status = status], as [save] sees it: the [enum] validator of
    the path rejects ([None]) a string that is not one of the six; for no
    value and for null there is nothing to validate. *)
Definition castStatus (s : Field string) : option (Field CommunicationLog.Status) :=
  match s with
  | Absent => Some Absent
  | Null => Some Null
  | Value x => Value <$> CommunicationLog.statusOfString x
  end.

(** [status === "DELIVERED"] *)
Definition isDelivered (r : Receipt) : bool :=
  match status r with
  | Value x => String.eqb x "DELIVERED"
  | _ => false
  end.

(** The document in memory after the two assignments of the handler: the
    status, and the delivery date when the receipt has one. *)
Definition ingested (s : Field CommunicationLog.Status) (deliveredAt : option Z)
  (commLog : CommunicationLog.doc) : CommunicationLog.doc :=
  match deliveredAt with
  | Some t => CommunicationLog.setDeliveredAt t (CommunicationLog.setStatus s commLog)
  | None => CommunicationLog.setStatus s commLog
  end.

(** [commLog.save()]: the paths whose value differs from the one that was
    loaded are written to the stored document; what other handlers wrote
    to it meanwhile stays otherwise. *)
Definition saveLog (loaded assigned stored : CommunicationLog.doc) : CommunicationLog.doc :=
  let stored1 :=
    if decide (CommunicationLog.status assigned = CommunicationLog.status loaded)
    then stored
    else CommunicationLog.setStatus (CommunicationLog.status assigned) stored in
  match CommunicationLog.deliveredAt assigned with
  | Some t =>
      if decide (CommunicationLog.deliveredAt loaded = Some t) then stored1
      else CommunicationLog.setDeliveredAt t stored1
  | None => stored1
  end.

(** [campaign.stats.delivered++; campaign.save()]: the one path the
    handler changed is written, with the number it computed from the
    campaign it had loaded. *)
Definition saveDelivered (loaded stored : Campaign.doc) : Campaign.doc :=
  Campaign.setStats
    {| Campaign.sent := Campaign.sent (Campaign.stats stored);
       Campaign.failed := Campaign.failed (Campaign.stats stored);
       Campaign.delivered := Campaign.delivered (Campaign.stats loaded) + 1;
       Campaign.opened := Campaign.opened (Campaign.stats stored);
       Campaign.clicked := Campaign.clicked (Campaign.stats stored) |}
    stored.

(** A handler between its awaits: [findOne] has returned [commLog], stored
    at [idx], and [commLog.save()] is awaited; [Campaign.findById] is
    awaited; [campaign.save()] is awaited for the campaign as it was
    loaded; the handler has answered. *)
Inductive Phase :=
| SavingLog (idx : nat) (commLog : CommunicationLog.doc)
| FindingCampaign (commLog : CommunicationLog.doc)
| SavingCampaign (campaignId : string) (campaign : Campaign.doc)
| Answered (r : Response).

Record Handler := {
  receipt : Receipt;
  phase : Phase
}.

Definition setPhase (p : Phase) (h : Handler) : Handler :=
  {| receipt := receipt h; phase := p |}.

(** A receipt arrives and its [findOne] returns. *)
Definition arrive (db : Db) (r : Receipt) : Handler :=
  {| receipt := r;
     phase :=
       match findOne (logs db) (vendorMessageId r) with
       | None => Answered (Error 404 "Communication log not found")
       | Some (idx, commLog) => SavingLog idx commLog
       end |}.

(** The await of a handler is over: what it does up to its next await, on
    the database as it is then.  A status outside the [enum] makes [save]
    throw before it writes, and the [catch] answers 500. *)
Definition next (db : Db) (h : Handler) : option (Db * Handler) :=
  let r := receipt h in
  match phase h with
  | SavingLog idx commLog =>
      match castStatus (status r) with
      | None =>
          Some (db, setPhase (Answered (Error 500 "Failed to process delivery receipt")) h)
      | Some s =>
          Some (setLogs (alter (saveLog commLog (ingested s (deliveredAt r) commLog)) idx
                           (logs db)) db,
                setPhase (FindingCampaign commLog) h)
      end
  | FindingCampaign commLog =>
      match campaigns db !! CommunicationLog.campaignId commLog with
      | Some campaign =>
          if isDelivered r then
            Some (db, setPhase (SavingCampaign (CommunicationLog.campaignId commLog) campaign) h)
          else Some (db, setPhase (Answered (Ok "Delivery receipt processed")) h)
      | None => Some (db, setPhase (Answered (Ok "Delivery receipt processed")) h)
      end
  | SavingCampaign campaignId campaign =>
      Some (setCampaigns (alter (saveDelivered campaign) campaignId (campaigns db)) db,
            setPhase (Answered (Ok "Delivery receipt processed")) h)
  | Answered _ => None
  end.

(** A handler driven through its awaits with no other handler running. *)
Fixpoint finish (n : nat) (db : Db) (h : Handler) : Db * Handler :=
  match n with
  | O => (db, h)
  | S n' =>
      match next db h with
      | Some (db', h') => finish n' db' h'
      | None => (db, h)
      end
  end.

Definition answer (h : Handler) : Response :=
  match phase h with
  | Answered r => r
  | _ => Error 500 "Failed to process delivery receipt"
  end.

(** The handler, run to completion on its own: its answer and the
    database it leaves. *)
Definition deliveryReceipt (db : Db) (r : Receipt) : Response * Db :=
  let '(db', h) := finish 3 db (arrive db r) in (answer h, db').

End Receipts.

(** ** The simulated vendor *)

Module VendorAPI.

Record Result := {
  success : bool;
  error : option string;
  vendorMessageId : string
}.

(** How an awaited call ends: it returns a result or it throws. *)
Inductive Outcome :=
| Returned (r : Result)
| Threw.

(** [sendMessage], given the number [Math.random()] drew for the success
    test and the time at which the receipt callback fires: the result, and
    the receipt the callback posts after a success. *)
Definition sendMessage (random : Q) (callbackTime : Z) (vendorMessageId : string)
  : Result * option Receipts.Receipt :=
  if Qlt_le_dec (1 # 10) random then
    ({| success := true; error := None; vendorMessageId := vendorMessageId |},
     Some {| Receipts.vendorMessageId := vendorMessageId;
             Receipts.status := Js.Value "DELIVERED";
             Receipts.deliveredAt := Some callbackTime |})
  else
    ({| success := false; error := Some "Delivery failed";
        vendorMessageId := vendorMessageId |}, None).

End VendorAPI.

(** ** Campaign launch: [POST /api/campaigns] *)

Module Dispatch.
Import Js Mongo.

(** The request body: an object with these three keys, each a string (any
    other body fails the validation of the schema). *)
Record Request := {
  name : string;
  segmentId : string;
  message : string
}.

(** What the handler takes from its surroundings: the runtime, the
    [strictQuery] option of Mongoose and its cast of a string to an
    ObjectId ([None] when it throws; they differ between versions of the
    library), the id Mongoose gives the new campaign, the authenticated
    user and the value of [Date.now()] when the task of the [i]-th
    customer starts. *)
Record Env := {
  rt : Runtime;
  strictQuery : bool;
  castObjectId : string -> option string;
  newId : string;
  user : string;
  now : nat -> Z
}.

(** [min(lo).max(hi)] of a Joi string: bounds on [value.length]. *)
Definition lengthBetween (lo hi : nat) (s : string) : bool :=
  ((lo <=? units s)%nat && (units s <=? hi)%nat).

(** [campaignSchema.validate(req.body)]: the converted value ([name] is
    trimmed before it is measured), or [None] for a validation error.  A
    Joi string is not empty. *)
Definition campaignSchema (body : Request) : option Request :=
  let name' := trim (name body) in
  if lengthBetween 2 100 name'
     && negb (String.eqb (segmentId body) EmptyString)
     && lengthBetween 10 1000 (message body)
  then Some {| name := name'; segmentId := segmentId body; message := message body |}
  else None.

(** The replacement text of [String.prototype.replace] for one match of a
    pattern without groups: [$$], [$&], [$`] and [$'] are expanded. *)
Fixpoint GetSubstitution (matched before after repl : string) : string :=
  match repl with
  | String "$" (String c rest as tl) =>
      if Ascii.eqb c "$" then String "$" (GetSubstitution matched before after rest)
      else if Ascii.eqb c "&" then matched ++ GetSubstitution matched before after rest
      else if Ascii.eqb c "`" then before ++ GetSubstitution matched before after rest
      else if Ascii.eqb c "'" then after ++ GetSubstitution matched before after rest
      else String "$" (GetSubstitution matched before after tl)
  | String c rest => String c (GetSubstitution matched before after rest)
  | EmptyString => EmptyString
  end%string.

(** [s.replace(/\{name\}/g, repl)], scanning [s] with [before] already
    passed. *)
Fixpoint replaceName (repl before s : string) : string :=
  match s with
  | String "{" (String "n" (String "a" (String "m" (String "e" (String "}" rest))))) =>
      GetSubstitution "{name}" before rest repl
      ++ replaceName repl (before ++ "{name}") rest
  | String c rest => String c (replaceName repl (before ++ String c EmptyString) rest)
  | EmptyString => EmptyString
  end%string.

Definition personalize (message customerName : string) : string :=
  replaceName customerName EmptyString message.

(** A number in a template literal. *)
Definition decimal (z : Z) : string := NilZero.string_of_int (Z.to_int z).

(** [`msg_${campaign._id}_${customer._id}_${Date.now()}`] *)
Definition makeVendorMessageId (campaignId customerId : string) (t : Z) : string :=
  ("msg_" ++ campaignId ++ "_" ++ customerId ++ "_" ++ decimal t)%string.

(** One callback of [customers.map]: its customer, its in-memory [commLog]
    and how far it has come: the first [save] is in flight, the vendor call
    is awaited (the log is stored at [idx]), or the callback has returned. *)
Inductive Phase :=
| Saving
| Sending (idx : nat)
| Settled (idx : nat).

Record Task := {
  customer : Customer;
  commLog : CommunicationLog.doc;
  phase : Phase
}.

(** The server while a launch is under way: the database, the in-memory
    [campaign] document that all callbacks of the launch share, the
    callbacks, the response of the launch handler once it is sent, and
    the receipt handlers that have started. *)
Record State := {
  db : Db;
  campaign : Campaign.doc;
  tasks : list Task;
  response : option Response;
  handlers : list Receipts.Handler
}.

Definition newTask (campaignId message : string) (t : Z) (c : Customer) : Task :=
  {| customer := c;
     commLog :=
       {| CommunicationLog.campaignId := campaignId;
          CommunicationLog.customerId := Mongo._id c;
          CommunicationLog.message := personalize message (Mongo.name c);
          CommunicationLog.status := Value CommunicationLog.PENDING;
          CommunicationLog.sentAt := None;
          CommunicationLog.deliveredAt := None;
          CommunicationLog.failureReason := None;
          CommunicationLog.vendorMessageId :=
            makeVendorMessageId campaignId (Mongo._id c) t |};
     phase := Saving |}.

(** [Segment.findById(value.segmentId)]: [None] when the id cannot be
    cast and the call throws, else the segment with that id, if any. *)
Definition findSegment (env : Env) (db0 : Db) (id : string)
  : option (option (string * Segment.doc)) :=
  match castObjectId env id with
  | None => None
  | Some id' => Some (pair id' <$> segments db0 !! id')
  end.

(** The handler up to [Promise.all]: an early answer (500 from the [catch]
    when [findById] or [find] throws), or the state in which the campaign
    is stored as RUNNING and every callback has run up to its first
    await. *)
Definition launchStart (env : Env) (db0 : Db) (body : Request) : Response + State :=
  match campaignSchema body with
  | None => inl (Error 400 "Validation failed")
  | Some value =>
      match findSegment env db0 (segmentId value) with
      | None => inl (Error 500 "Failed to create campaign")
      | Some None => inl (Error 404 "Segment not found")
      | Some (Some (id, segment)) =>
          let query := Rules.buildSegmentQuery (rt env) (Segment.rules segment) in
          match find (rt env) (strictQuery env) (customers db0) query with
          | None => inl (Error 500 "Failed to create campaign")
          | Some [] => inl (Error 400 "No customers found in segment")
          | Some found =>
              let campaign :=
                {| Campaign._id := newId env;
                   Campaign.name := name value;
                   Campaign.segmentId := id;
                   Campaign.message := message value;
                   Campaign.audienceSize := Z.of_nat (length found);
                   Campaign.status := Campaign.RUNNING;
                   Campaign.createdBy := user env;
                   Campaign.stats := Campaign.noStats |} in
              inr {| db := setCampaigns (<[newId env := campaign]> (campaigns db0)) db0;
                     campaign := campaign;
                     tasks := imap (fun i c => newTask (newId env) (message value) (now env i) c) found;
                     response := None;
                     handlers := [] |}
          end
      end
  end.

(** The customers the handler finds for a request ([[]] when it answers
    before it has them). *)
Definition audience (env : Env) (db0 : Db) (body : Request) : list Customer :=
  match campaignSchema body with
  | None => []
  | Some value =>
      match findSegment env db0 (segmentId value) with
      | Some (Some (_, segment)) =>
          default []
            (find (rt env) (strictQuery env) (customers db0)
               (Rules.buildSegmentQuery (rt env) (Segment.rules segment)))
      | _ => []
      end
  end.

Definition setPhase (p : Phase) (task : Task) : Task :=
  {| customer := customer task; commLog := commLog task; phase := p |}.

(** The first [commLog.save()] of task [i] completes: the log is stored. *)
Definition saved (i : nat) (task : Task) (st : State) : State :=
  {| db := setLogs (logs (db st) ++ [commLog task]) (db st);
     campaign := campaign st;
     tasks := <[i := setPhase (Sending (length (logs (db st)))) task]> (tasks st);
     response := response st;
     handlers := handlers st |}.

(** What the callback writes to its [commLog] for an outcome. *)
Definition record (o : VendorAPI.Outcome) (t : Z) (l : CommunicationLog.doc)
  : CommunicationLog.doc :=
  match o with
  | VendorAPI.Returned r =>
      if VendorAPI.success r then
        CommunicationLog.setSentAt t
          (CommunicationLog.setStatus (Value CommunicationLog.SENT) l)
      else
        let l' := CommunicationLog.setStatus (Value CommunicationLog.FAILED) l in
        match VendorAPI.error r with
        | Some e => CommunicationLog.setFailureReason e l'
        | None => l'
        end
  | VendorAPI.Threw =>
      CommunicationLog.setFailureReason "Vendor API error"
        (CommunicationLog.setStatus (Value CommunicationLog.FAILED) l)
  end.

(** And what it adds to the shared [campaign.stats]. *)
Definition count (o : VendorAPI.Outcome) (st : Campaign.Stats) : Campaign.Stats :=
  match o with
  | VendorAPI.Returned r =>
      if VendorAPI.success r then Campaign.incSent st else Campaign.incFailed st
  | VendorAPI.Threw => Campaign.incFailed st
  end.

(** The vendor call of task [i] ends with [o] at time [t]: the callback
    updates its log (in memory, then the paths it changed in the stored
    document) and the shared counters, and returns. *)
Definition settled (i : nat) (task : Task) (idx : nat) (o : VendorAPI.Outcome) (t : Z)
  (st : State) : State :=
  {| db := setLogs (alter (record o t) idx (logs (db st))) (db st);
     campaign := Campaign.setStats (count o (Campaign.stats (campaign st))) (campaign st);
     tasks :=
       <[i := {| customer := customer task; commLog := record o t (commLog task);
                 phase := Settled idx |}]> (tasks st);
     response := response st;
     handlers := handlers st |}.

(** [campaign.save()] after [Promise.all]: the paths the handler changed
    ([status], [stats.sent], [stats.failed]) are written to the stored
    campaign; what receipts wrote meanwhile stays. *)
Definition saveCampaign (mem stored : Campaign.doc) : Campaign.doc :=
  Campaign.setStats
    {| Campaign.sent := Campaign.sent (Campaign.stats mem);
       Campaign.failed := Campaign.failed (Campaign.stats mem);
       Campaign.delivered := Campaign.delivered (Campaign.stats stored);
       Campaign.opened := Campaign.opened (Campaign.stats stored);
       Campaign.clicked := Campaign.clicked (Campaign.stats stored) |}
    (Campaign.setStatus (Campaign.status mem) stored).

Definition completed (st : State) : State :=
  let campaign' := Campaign.setStatus Campaign.COMPLETED (campaign st) in
  {| db := setCampaigns (alter (saveCampaign campaign') (Campaign._id campaign')
                           (campaigns (db st))) (db st);
     campaign := campaign';
     tasks := tasks st;
     response := Some (Created "Campaign created and launched successfully" campaign');
     handlers := handlers st |}.

(** A receipt arrives while the launch is under way (or after it), and
    the [findOne] of its handler returns. *)
Definition arrived (r : Receipts.Receipt) (st : State) : State :=
  {| db := db st;
     campaign := campaign st;
     tasks := tasks st;
     response := response st;
     handlers := handlers st ++ [Receipts.arrive (db st) r] |}.

(** The await of receipt handler [k] is over: the handler has gone on to
    [h'] and left the database [db']. *)
Definition handled (k : nat) (db' : Db) (h' : Receipts.Handler) (st : State) : State :=
  {| db := db';
     campaign := campaign st;
     tasks := tasks st;
     response := response st;
     handlers := <[k := h']> (handlers st) |}.

(** A receipt is handled from its arrival to its answer with nothing else
    happening meanwhile. *)
Definition receipt (r : Receipts.Receipt) (st : State) : State :=
  let '(db', h) := Receipts.finish 3 (db st) (Receipts.arrive (db st) r) in
  {| db := db';
     campaign := campaign st;
     tasks := tasks st;
     response := response st;
     handlers := handlers st ++ [h] |}.

Definition isSettled (task : Task) : bool :=
  match phase task with Settled _ => true | _ => false end.

(** How many callbacks hold a log with status [s]. *)
Definition countStatus (s : CommunicationLog.Status) (ts : list Task) : nat :=
  length (filter (fun task => CommunicationLog.status (commLog task) = Value s) ts).

(** Whether a vendor call ended as an accepted send. *)
Definition accepted (o : VendorAPI.Outcome) : bool :=
  match o with
  | VendorAPI.Returned r => VendorAPI.success r
  | VendorAPI.Threw => false
  end.

(** The interleavings of one launch with receipt handling: any callback
    and any receipt handler whose await is over goes on, in any order;
    the launch handler answers once all callbacks have returned; a receipt
    may arrive at any time. *)
Inductive step : State -> State -> Prop :=
| step_saved st i task :
    tasks st !! i = Some task -> phase task = Saving ->
    step st (saved i task st)
| step_settled st i task idx o t :
    tasks st !! i = Some task -> phase task = Sending idx ->
    step st (settled i task idx o t st)
| step_completed st :
    response st = None -> forallb isSettled (tasks st) = true ->
    step st (completed st)
| step_arrived st r :
    step st (arrived r st)
| step_handled st k h db' h' :
    handlers st !! k = Some h -> Receipts.next (db st) h = Some (db', h') ->
    step st (handled k db' h' st).

Definition steps : State -> State -> Prop := rtc step.

(** One schedule, as a function: the callbacks are driven to their end one
    after the other, task [i] ending with outcome [outcomes i] at time
    [times i]; then the handler answers. *)
Definition runTask (outcomes : nat -> VendorAPI.Outcome) (times : nat -> Z)
  (st : State) (i : nat) : State :=
  match tasks st !! i with
  | Some task =>
      match phase task with
      | Saving =>
          settled i (setPhase (Sending (length (logs (db st)))) task)
            (length (logs (db st))) (outcomes i) (times i) (saved i task st)
      | Sending idx => settled i task idx (outcomes i) (times i) st
      | Settled _ => st
      end
  | None => st
  end.

Definition run (outcomes : nat -> VendorAPI.Outcome) (times : nat -> Z) (st : State) : State :=
  match response st with
  | Some _ => st
  | None => completed (foldl (runTask outcomes times) st (seq 0 (length (tasks st))))
  end.

Definition launch (env : Env) (db0 : Db) (body : Request)
  (outcomes : nat -> VendorAPI.Outcome) (times : nat -> Z) : Response * Db :=
  match launchStart env db0 body with
  | inl r => (r, db0)
  | inr st0 =>
      let st := run outcomes times st0 in
      match response st with
      | Some r => (r, db st)
      | None => (Error 500 "Failed to create campaign", db st)
      end
  end.

End Dispatch.

(** ** Invariants of a launch *)

Module Invariants.
Import Js Dispatch.

(** What holds of every state of the launch of campaign [cid] over [N]
    customers: the callbacks are [N]; a log in memory is PENDING until its
    callback has returned and SENT or FAILED afterwards; the shared counters
    count the SENT and the FAILED logs; the campaign is stored, RUNNING
    until the handler answers; and once it has answered, every callback
    has returned and the campaign, in memory and stored, is COMPLETED with
    the counters of the launch. *)
Record Inv (cid : string) (N : nat) (st : State) : Prop := {
  inv_tasks : length (tasks st) = N;
  inv_phase : forall i task, tasks st !! i = Some task ->
    match phase task with
    | Settled _ =>
        CommunicationLog.status (commLog task) = Value CommunicationLog.SENT \/
        CommunicationLog.status (commLog task) = Value CommunicationLog.FAILED
    | _ => CommunicationLog.status (commLog task) = Value CommunicationLog.PENDING
    end;
  inv_sent :
    Campaign.sent (Campaign.stats (campaign st))
    = Z.of_nat (countStatus CommunicationLog.SENT (tasks st));
  inv_failed :
    Campaign.failed (Campaign.stats (campaign st))
    = Z.of_nat (countStatus CommunicationLog.FAILED (tasks st));
  inv_id : Campaign._id (campaign st) = cid;
  inv_running : response st = None ->
    Campaign.status (campaign st) = Campaign.RUNNING /\
    exists c, campaigns (db st) !! cid = Some c /\ Campaign.status c = Campaign.RUNNING;
  inv_response : forall r, response st = Some r ->
    forallb isSettled (tasks st) = true /\
    Campaign.status (campaign st) = Campaign.COMPLETED /\
    r = Created "Campaign created and launched successfully" (campaign st) /\
    exists c, campaigns (db st) !! cid = Some c /\
              Campaign.status c = Campaign.COMPLETED /\
              Campaign.sent (Campaign.stats c) = Campaign.sent (Campaign.stats (campaign st)) /\
              Campaign.failed (Campaign.stats c) = Campaign.failed (Campaign.stats (campaign st))
}.

(** [1] when the log of a callback has status [s], else [0]. *)
Definition one (s : CommunicationLog.Status) (task : Task) : nat :=
  if decide (CommunicationLog.status (commLog task) = Value s) then 1 else 0.

(** How many of the first [N] vendor calls end as accepted sends. *)
Definition acceptedCount (outcomes : nat -> VendorAPI.Outcome) (N : nat) : nat :=
  length (filter (fun j => accepted (outcomes j) = true) (seq 0 N)).

(** The string form of an ObjectId has 24 characters. *)
Definition isObjectId (s : string) : Prop := String.length s = 24%nat.

(** The store and the new campaign id a launch starts from: ids are
    ObjectIds, customers are stored once, the stored logs carry distinct
    [vendorMessageId]s, each issued by [makeVendorMessageId] for an earlier
    campaign. *)
Record wellFormed (env : Env) (db0 : Db) : Prop := {
  wf_new : isObjectId (newId env);
  wf_customers : NoDup (Mongo._id <$> customers db0);
  wf_customer_ids : forall c, c ∈ customers db0 -> isObjectId (Mongo._id c);
  wf_logs : NoDup (CommunicationLog.vendorMessageId <$> logs db0);
  wf_issued : forall l, l ∈ logs db0 ->
    exists cid uid t, isObjectId cid /\ cid <> newId env /\
      CommunicationLog.vendorMessageId l = makeVendorMessageId cid uid t
}.

(** What identifies a log, and a callback. *)
Definition key (l : CommunicationLog.doc) : string * string * string :=
  (CommunicationLog.campaignId l, CommunicationLog.customerId l,
   CommunicationLog.vendorMessageId l).

Definition identity (task : Task) : Mongo.Customer * (string * string * string) :=
  (customer task, key (commLog task)).

(** The logs a launch is to store: for the [i]-th customer found, the
    campaign, the customer and the [vendorMessageId] made for them. *)
Definition issued (env : Env) (found : list Mongo.Customer)
  : list (string * string * string) :=
  imap (fun i c => (newId env, Mongo._id c,
                    makeVendorMessageId (newId env) (Mongo._id c) (now env i))) found.

(** Whether the first save of a callback has completed. *)
Definition started (task : Task) : bool :=
  match phase task with Saving => false | _ => true end.

(** The logs stored in a state of a launch from [st0] on [db0] are those
    of [db0] and one for each callback whose first save has completed, and
    the callbacks keep their customer and the ids of their log. *)
Record Stored (db0 : Db) (st0 st : State) : Prop := {
  stored_logs :
    key <$> logs (db st)
    ≡ₚ (key <$> logs db0)
       ++ (key <$> (commLog <$> filter (fun task => started task = true) (tasks st)));
  stored_identity : identity <$> tasks st = identity <$> tasks st0
}.


End Invariants.

(** ** Sample data *)

Module Samples.
Import Js Mongo Rules.

(** A host on UTC whose clock stands at [t].  Its conversions between
    strings and numbers are those of JavaScript on whole numbers written
    in decimal, which is all the samples use; it parses no date. *)
Definition utc (t : Z) : Runtime :=
  {| clock := fun _ => t;
     LocalTZA := fun _ _ => 0;
     StringToNumber := fun s =>
       match NilZero.int_of_string s with
       | Some i => Finite (inject_Z (Z.of_int i))
       | None => NaN
       end;
     NumberToString := fun q => NilZero.string_of_int (Z.to_int (Qnum q / Zpos (Qden q)));
     DateParse := fun _ => None;
     DateToString := fun _ => "Invalid Date" |}.

(** A host in New York in the autumn of 2025: four hours behind UTC until
    daylight saving time ends on 2 November at 06:00 UTC (02:00 local
    time), five hours behind from then on. *)
Definition newYork (t : Z) : Runtime :=
  {| clock := fun _ => t;
     LocalTZA := fun t' isUTC =>
       if (t' <? (if isUTC then 1762063200000 else 1762048800000))
       then - (4 * 3600000) else - (5 * 3600000);
     StringToNumber := StringToNumber (utc t);
     NumberToString := NumberToString (utc t);
     DateParse := DateParse (utc t);
     DateToString := DateToString (utc t) |}.

(** Mongoose's cast of a string to an ObjectId, on the ids of the
    samples: 24 characters, taken as they are. *)
Definition castObjectId (s : string) : option string :=
  if (String.length s =? 24)%nat then Some s else None.

(** 2025-11-03T00:00:00Z *)
Definition today : Z := 1762128000000.

Definition shopper (id : string) (spent : Q) (visit : option Z) : Customer :=
  {| Mongo._id := id; Mongo.name := "Asha"; email := "asha@example.com";
     totalSpent := spent; visitCount := 3 # 1; lastVisit := visit;
     city := Some "Pune" |}.

(** A store with three customers and one segment, [totalSpent > 10000]. *)
Definition asha : Customer := shopper "64b0c0ffee0123456789ab01" (15000 # 1) (Some 1759276800000).
Definition ravi : Customer := shopper "64b0c0ffee0123456789ab02" (5000 # 1) None.
Definition meera : Customer := shopper "64b0c0ffee0123456789ab03" (12000 # 1) (Some 1761955200000).

Definition bigSpenders : Segment.doc :=
  {| Segment.name := "Big spenders";
     Segment.rules :=
       [ {| field := "totalSpent"; operator := ">"; value := JNum (10000 # 1);
            logicalOperator := Some "AND" |} ];
     Segment.audienceSize := 2 |}.

Definition store : Db :=
  {| customers := [asha; ravi; meera];
     segments := {[ "64b0c0ffee0123456789ab10" := bigSpenders ]};
     campaigns := ∅;
     logs := [] |}.

Definition env : Dispatch.Env :=
  {| Dispatch.rt := utc today;
     Dispatch.strictQuery := false;
     Dispatch.castObjectId := castObjectId;
     Dispatch.newId := "64b0c0ffee0123456789ab20";
     Dispatch.user := "64b0c0ffee0123456789ab30";
     Dispatch.now := fun i => today + Z.of_nat i |}.

Definition body : Dispatch.Request :=
  {| Dispatch.name := " Diwali offer ";
     Dispatch.segmentId := "64b0c0ffee0123456789ab10";
     Dispatch.message := "Hi {name}, enjoy 20% off!" |}.

Definition accepted (id : string) : VendorAPI.Outcome :=
  VendorAPI.Returned
    {| VendorAPI.success := true; VendorAPI.error := None;
       VendorAPI.vendorMessageId := id |}.

Definition refused (id : string) : VendorAPI.Outcome :=
  VendorAPI.Returned
    {| VendorAPI.success := false; VendorAPI.error := Some "Delivery failed";
       VendorAPI.vendorMessageId := id |}.

(** The launch of [body] on [store] at its start. *)
Definition started : Dispatch.State :=
  match Dispatch.launchStart env store body with
  | inr st => st
  | inl _ =>
      {| Dispatch.db := store;
         Dispatch.campaign :=
           {| Campaign._id := EmptyString; Campaign.name := EmptyString; Campaign.segmentId := EmptyString;
              Campaign.message := EmptyString; Campaign.audienceSize := 0;
              Campaign.status := Campaign.DRAFT; Campaign.createdBy := EmptyString;
              Campaign.stats := Campaign.noStats |};
         Dispatch.tasks := []; Dispatch.response := None; Dispatch.handlers := [] |}
  end.

(** The first send is accepted and the second one throws. *)
Definition outcomes (i : nat) : VendorAPI.Outcome :=
  match i with
  | O => accepted "msg_64b0c0ffee0123456789ab20_64b0c0ffee0123456789ab01_1762128000000"
  | _ => VendorAPI.Threw
  end.

Definition times (i : nat) : Z := today + 500.

(** The store after that launch. *)
Definition launched : Db := snd (Dispatch.launch env store body outcomes times).

(** The ids of the two logs of that launch. *)
Definition firstId : string :=
  "msg_64b0c0ffee0123456789ab20_64b0c0ffee0123456789ab01_1762128000000".

Definition secondId : string :=
  "msg_64b0c0ffee0123456789ab20_64b0c0ffee0123456789ab03_1762128000001".

(** A second launch, on the store the first one left. *)
Definition env2 : Dispatch.Env :=
  {| Dispatch.rt := utc today;
     Dispatch.strictQuery := false;
     Dispatch.castObjectId := castObjectId;
     Dispatch.newId := "64b0c0ffee0123456789ab21";
     Dispatch.user := "64b0c0ffee0123456789ab30";
     Dispatch.now := fun i => today + 60000 |}.

Definition started2 : Dispatch.State :=
  match Dispatch.launchStart env2 launched body with
  | inr st => st
  | inl _ => started
  end.

Definition receiptFor (id status : string) : Receipts.Receipt :=
  {| Receipts.vendorMessageId := id; Receipts.status := Value status;
     Receipts.deliveredAt := Some (today + 3000) |}.

End Samples.

(** ** Further definitions for the properties of the remaining code *)

Module Coverage.
Import Js Mongo Rules.

(** A rule on a field, as a segment stores it. *)
Definition fieldRule (f op : string) (v : Json) (lo : option string) : Rule :=
  {| field := f; operator := op; value := v; logicalOperator := lo |}.

(** A field that goes through the last branch of the loop and becomes a
    key of the condition. *)
Definition isStandard (f : string) : Prop :=
  f <> "daysSinceLastVisit" /\ f <> "customerTier" /\ f <> "__proto__".

(** The fields of the [enum] of models/Segment.js that go through the
    last branch: paths of the Customer schema. *)
Definition storedFields : list string := ["totalSpent"; "visitCount"; "location.city"].

(** Whether [Customer.find] with the compiled query of [rules] returns
    the stored customer [c]; [None] when the cast of the query throws. *)
Definition selects (rt : Runtime) (strictQuery : bool) (rules : list Rule) (c : Customer)
  : option bool :=
  matchesQuery c <$> cast rt strictQuery (buildSegmentQuery rt rules).

(** A condition whose values have the types of their paths already: a
    number on a Number path, a string on a String path, a valid date on
    a Date path, null anywhere, and for [$in] and [$nin] an array of
    such; every path is one of the schema. *)
Definition typedValue (ty : PathType) (o : Operand) : bool :=
  match o, ty with
  | OUndefined, _ => true
  | OJson (JNum _), PNumber => true
  | OJson (JStr _), PString => true
  | ODate (Some _), PDate => true
  | _, _ => false
  end.

Definition typedOp (ty : PathType) (p : string * Operand) : bool :=
  let '(op, o) := p in
  if existsb (String.eqb op) ["$gt"; "$gte"; "$lt"; "$lte"; "$ne"; "$eq"] then
    typedValue ty o
  else if existsb (String.eqb op) ["$in"; "$nin"] then
    match o with
    | OJson (JArr l) => forallb (fun v => typedValue ty (OJson v)) l
    | _ => false
    end
  else false.

Definition typedField (ty : PathType) (fc : FieldCond) : bool :=
  match fc with
  | FValue (OJson (JArr _)) => false
  | FValue o => typedValue ty o
  | FOps [] => false
  | FOps ops => forallb (typedOp ty) ops
  end.

Definition typedCondition (cond : Condition) : bool :=
  forallb (fun '(path, fc) =>
             match schemaType path with
             | Some ty => typedField ty fc
             | None => false
             end) cond.

Definition typed (rt : Runtime) (rules : list Rule) : bool :=
  forallb typedCondition (imap (ruleCondition rt) rules).

(** The operators the branches of [buildSegmentQuery] have a case for. *)
Definition dayOperators : list string := [">"; "<"; ">="; "<="; "="].

Definition standardOperators : list string :=
  [">"; "<"; ">="; "<="; "="; "!="; "in"; "not_in"].

(** The four labels of [tierRanges]. *)
Definition tierLabels : list string := ["PREMIUM"; "GOLD"; "SILVER"; "BRONZE"].

(** Receipts handled one after the other. *)
Definition ingestAll (db : Db) (rs : list Receipts.Receipt) : Db :=
  foldl (fun db r => snd (Receipts.deliveryReceipt db r)) db rs.

(** Whether a receipt is one the handler counts for campaign [cid]: it
    carries DELIVERED and the log it names belongs to [cid]. *)
Definition creditsTo (db : Db) (cid : string) (r : Receipts.Receipt) : bool :=
  match Receipts.findOne (logs db) (Receipts.vendorMessageId r) with
  | Some (_, l) =>
      Receipts.isDelivered r
      && String.eqb (CommunicationLog.campaignId l) cid
  | None => false
  end.



(** A state with another database and other receipt handlers. *)
Definition withReceipts (st : Dispatch.State) (db' : Db) (hs : list Receipts.Handler)
  : Dispatch.State :=
  {| Dispatch.db := db'; Dispatch.campaign := Dispatch.campaign st;
     Dispatch.tasks := Dispatch.tasks st; Dispatch.response := Dispatch.response st;
     Dispatch.handlers := hs |}.

(** A handler that has answered a receipt with success. *)
Definition processed (r : Receipts.Receipt) : Receipts.Handler :=
  {| Receipts.receipt := r;
     Receipts.phase := Receipts.Answered (Ok "Delivery receipt processed") |}.

(** [stats.delivered] of a stored campaign. *)
Definition deliveredOf (db : Db) (cid : string) : option Z :=
  (fun c => Campaign.delivered (Campaign.stats c)) <$> campaigns db !! cid.

(** The fields of a campaign that are fixed when it is created. *)
Definition header (c : Campaign.doc) : string * string * string * string * Z * string :=
  (Campaign._id c, Campaign.name c, Campaign.segmentId c, Campaign.message c,
   Campaign.audienceSize c, Campaign.createdBy c).

(** What one step keeps of a stored log and of a stored campaign. *)
Definition sameLog (l l' : CommunicationLog.doc) : Prop :=
  Invariants.key l' = Invariants.key l /\
  CommunicationLog.message l' = CommunicationLog.message l.

Definition sameCampaign (c c' : Campaign.doc) : Prop :=
  header c' = header c /\
  Campaign.opened (Campaign.stats c') = Campaign.opened (Campaign.stats c) /\
  Campaign.clicked (Campaign.stats c') = Campaign.clicked (Campaign.stats c).

(** Whether a character occurs in a string. *)
Fixpoint occurs (ch : ascii) (s : string) : bool :=
  match s with
  | EmptyString => false
  | String c rest => Ascii.eqb c ch || occurs ch rest
  end.

(** What follows the token when a string starts with it. *)
Definition afterToken (s : string) : option string :=
  match s with
  | String "{" (String "n" (String "a" (String "m" (String "e" (String "}" rest))))) =>
      Some rest
  | _ => None
  end.

End Coverage.

(** * Properties *)

(** ** The rule compiler *)

Module CompilerFacts.
Import Js Mongo Rules.

(** *** Comparison operators on stored values *)

Lemma gte_num (a b : Q) :
  matchOp "$gte" (DNum a) (OJson (JNum b)) = true <-> (b <= a)%Q.
Proof.
  cbn -[Qcompare]. rewrite (Qle_alt b a), <- (Qcompare_antisym a b).
  destruct (a ?= b)%Q; cbn; intuition congruence.
Qed.

Lemma lte_num (a b : Q) :
  matchOp "$lte" (DNum a) (OJson (JNum b)) = true <-> (a <= b)%Q.
Proof.
  cbn -[Qcompare]. rewrite (Qle_alt a b).
  destruct (a ?= b)%Q; cbn; intuition congruence.
Qed.

Lemma lt_date (a b : Z) :
  matchOp "$lt" (DDate a) (ODate (Some b)) = true <-> a < b.
Proof.
  cbn -[Z.compare]. unfold Z.lt. destruct (a ?= b); intuition congruence.
Qed.

Lemma gt_date (a b : Z) :
  matchOp "$gt" (DDate a) (ODate (Some b)) = true <-> b < a.
Proof.
  cbn -[Z.compare]. unfold Z.lt.
  rewrite (Z.compare_antisym a b). destruct (a ?= b); cbn; intuition congruence.
Qed.

Lemma lte_date (a b : Z) :
  matchOp "$lte" (DDate a) (ODate (Some b)) = true <-> a <= b.
Proof.
  cbn -[Z.compare]. unfold Z.le. destruct (a ?= b); intuition congruence.
Qed.

Lemma gte_date (a b : Z) :
  matchOp "$gte" (DDate a) (ODate (Some b)) = true <-> b <= a.
Proof.
  cbn -[Z.compare]. unfold Z.le.
  rewrite (Z.compare_antisym a b). destruct (a ?= b); cbn; intuition congruence.
Qed.

(** A stored field that is missing satisfies no date comparison. *)
Lemma missing_no_date op t :
  In op ["$lt"; "$gt"; "$lte"; "$gte"] -> matchOp op DMissing (ODate t) = false.
Proof.
  cbn. intros [<-|[<-|[<-|[<-|[]]]]]; reflexivity.
Qed.

(** *** Rules by field *)

(** The condition of a rule does not read its [logicalOperator]. *)
Lemma ruleCondition_withLogical rt i lo r :
  ruleCondition rt i (withLogical lo r) = ruleCondition rt i r.
Proof. reflexivity. Qed.

(** The query document of a tier rule with one of the four labels. *)
Lemma tier_condition rt i label lo min max :
  assoc label tierRanges = Some (min, max) ->
  ruleCondition rt i (tierRule label lo) =
    [("totalSpent",
      FOps (("$gte", OJson (JNum min)) ::
            match max with Some m => [("$lte", OJson (JNum m))] | None => [] end))].
Proof.
  intros H. unfold ruleCondition, tierRangesAt. cbn [field operator value tierRule].
  cbn [ToPropertyKey]. rewrite H. reflexivity.
Qed.

(** What a condition on [totalSpent] with a lower and an upper bound asks. *)
Lemma spend_between c min max :
  matchesCondition c
    [("totalSpent", FOps [("$gte", OJson (JNum min)); ("$lte", OJson (JNum max))])] = true
  <-> (min <= totalSpent c /\ totalSpent c <= max)%Q.
Proof.
  unfold matchesCondition, matchField. cbn [forallb getField String.eqb].
  change (getField c "totalSpent") with (DNum (totalSpent c)).
  rewrite !andb_true_r, andb_true_iff, gte_num, lte_num. reflexivity.
Qed.

Lemma spend_from c min :
  matchesCondition c [("totalSpent", FOps [("$gte", OJson (JNum min))])] = true
  <-> (min <= totalSpent c)%Q.
Proof.
  unfold matchesCondition, matchField. cbn [forallb].
  change (getField c "totalSpent") with (DNum (totalSpent c)).
  rewrite !andb_true_r, gte_num. reflexivity.
Qed.

(** On whole amounts the four compiled ranges are the spec's intervals. *)
Lemma tier_ranges_whole_amounts rt lo c (n : Z) :
  (totalSpent c == inject_Z n)%Q ->
  (matchesQuery c (buildSegmentQuery rt [tierRule "BRONZE" lo]) = true
     <-> 0 <= n <= 5000) /\
  (matchesQuery c (buildSegmentQuery rt [tierRule "SILVER" lo]) = true
     <-> 5000 < n <= 20000) /\
  (matchesQuery c (buildSegmentQuery rt [tierRule "GOLD" lo]) = true
     <-> 20000 < n <= 50000) /\
  (matchesQuery c (buildSegmentQuery rt [tierRule "PREMIUM" lo]) = true
     <-> 50000 < n).
Proof.
  intros Hn. unfold buildSegmentQuery. cbn [imap].
  rewrite (tier_condition rt 0 "BRONZE" lo (0 # 1) (Some (5000 # 1))) by reflexivity.
  rewrite (tier_condition rt 0 "SILVER" lo (5001 # 1) (Some (20000 # 1))) by reflexivity.
  rewrite (tier_condition rt 0 "GOLD" lo (20001 # 1) (Some (50000 # 1))) by reflexivity.
  rewrite (tier_condition rt 0 "PREMIUM" lo (50001 # 1) None) by reflexivity.
  cbn [matchesQuery]. rewrite !spend_between, spend_from, !Hn.
  unfold Qle, inject_Z. cbn [Qnum Qden]. repeat split; lia.
Qed.

(** *** Dates *)

Lemma truncate_whole (a b : Z) : truncate (inject_Z a - inject_Z b) = a - b.
Proof.
  unfold truncate, Qminus, Qplus, Qopp, inject_Z. cbn [Qnum Qden].
  rewrite Z.quot_1_r. lia.
Qed.

(** In a zone with a fixed offset, [d.setDate(d.getDate() - v)] for a whole
    number [v] moves [d] back by [v] times 24 hours. *)
Lemma setDate_back rt now v :
  fixedZone rt ->
  setDate rt now (minus (getDate rt now) (Some (inject_Z v)))
  = TimeClip (now - v * msPerDay).
Proof.
  intros [off Hoff]. unfold setDate, minus, getDate, UTC, LocalTime.
  rewrite truncate_whole, !Hoff. f_equal.
  set (lt := now + off). unfold Day, TimeWithinDay.
  pose proof (Z.div_mod lt msPerDay) as Hdm.
  assert (msPerDay <> 0) as Hne by (unfold msPerDay; lia).
  specialize (Hdm Hne). nia.
Qed.

Lemma TimeClip_valid t : - maxTime <= t <= maxTime -> TimeClip t = Some t.
Proof.
  intros H. unfold TimeClip.
  destruct (Z.leb_spec (Z.abs t) maxTime); [reflexivity | lia].
Qed.

(** The condition of a days rule on a customer who has a [lastVisit]. *)
Lemma last_visit_ops c t ops :
  lastVisit c = Some t ->
  matchesCondition c [("lastVisit", FOps ops)]
  = forallb (fun '(op, o) => matchOp op (DDate t) o) ops.
Proof.
  intros H. unfold matchesCondition, matchField. cbn [forallb].
  unfold getField. cbn [String.eqb Ascii.eqb Bool.eqb]. rewrite H.
  apply andb_true_r.
Qed.

(** *** Tiers *)

(** C4 (the code at a fractional amount): a customer who has spent 20000.5
    lies in (20000, 50000] and is GOLD by the model's own virtual
    [custromerTier], yet the compiled predicate of [customerTier = "GOLD"]
    ([totalSpent >= 20001 and <= 50000]) does not hold of them, nor does
    that of any other tier. *)
Theorem tier_gold_fractional_amount :
  let c := Samples.shopper "64b0c0ffee0123456789abcd" (40001 # 2) None in
  (20000 < totalSpent c /\ totalSpent c <= 50000)%Q /\
  custromerTier c = "GOLD" /\
  forall rt lo,
    matchesQuery c (buildSegmentQuery rt [tierRule "GOLD" lo]) = false /\
    matchesQuery c (buildSegmentQuery rt [tierRule "SILVER" lo]) = false /\
    matchesQuery c (buildSegmentQuery rt [tierRule "BRONZE" lo]) = false /\
    matchesQuery c (buildSegmentQuery rt [tierRule "PREMIUM" lo]) = false.
Proof.
  cbn zeta. split; [split; reflexivity || (intros H; discriminate H) |].
  split; [reflexivity |].
  intros rt lo. repeat split; reflexivity.
Qed.

(** *** Combination *)

(** C5: a list of two or more rules compiles to the per-rule conditions
    under one operator, [$or] when the first rule's [logicalOperator] is
    "OR" and [$and] otherwise (also when it is absent), so the predicate is
    their disjunction or conjunction; the [logicalOperator] of later rules
    is not read; a one-rule list compiles to that rule's condition with no
    wrapper; the empty list compiles to the empty condition, true of every
    customer. *)
Theorem combination_policy (rt : Runtime) :
  (forall r1 r2 rs,
      let conditions := imap (ruleCondition rt) (r1 :: r2 :: rs) in
      (logicalOperator r1 = Some "OR" ->
         buildSegmentQuery rt (r1 :: r2 :: rs) = QCombine "$or" conditions /\
         forall c, matchesQuery c (buildSegmentQuery rt (r1 :: r2 :: rs))
                   = existsb (matchesCondition c) conditions) /\
      (logicalOperator r1 <> Some "OR" ->
         buildSegmentQuery rt (r1 :: r2 :: rs) = QCombine "$and" conditions /\
         forall c, matchesQuery c (buildSegmentQuery rt (r1 :: r2 :: rs))
                   = forallb (matchesCondition c) conditions)) /\
  (forall r1 rs (later : nat -> option string),
      buildSegmentQuery rt (r1 :: imap (fun i r => withLogical (later i) r) rs)
      = buildSegmentQuery rt (r1 :: rs)) /\
  (forall r, buildSegmentQuery rt [r] = QCond (ruleCondition rt 0 r)) /\
  (buildSegmentQuery rt [] = QCond [] /\
   forall c, matchesQuery c (buildSegmentQuery rt []) = true).
Proof.
  split; [|split; [|split; [|split]]].
  - intros r1 r2 rs conditions. split; intros H.
    + assert (buildSegmentQuery rt (r1 :: r2 :: rs) = QCombine "$or" conditions) as Hq.
      { unfold buildSegmentQuery. cbn [imap]. rewrite H. reflexivity. }
      split; [exact Hq | intros c; rewrite Hq; reflexivity].
    + assert (buildSegmentQuery rt (r1 :: r2 :: rs) = QCombine "$and" conditions) as Hq.
      { unfold buildSegmentQuery. cbn [imap].
        destruct (logicalOperator r1) as [op|]; [|reflexivity].
        destruct (String.eqb_spec op "OR") as [->|]; [congruence | reflexivity]. }
      split; [exact Hq | intros c; rewrite Hq; reflexivity].
  - intros r1 rs later.
    assert (forall (f : nat -> Rule -> Condition) (g : nat -> option string) l,
               (forall i lo r, f i (withLogical lo r) = f i r) ->
               imap f (imap (fun i r => withLogical (g i) r) l) = imap f l) as Himap.
    { intros f g l. revert f g. induction l as [|r l IH]; intros f g Hf; [reflexivity|].
      cbn [imap]. rewrite Hf. f_equal. apply IH. intros i lo r'. apply Hf. }
    unfold buildSegmentQuery. cbn [imap].
    rewrite (Himap (ruleCondition rt ∘ S) later rs)
      by (intros i lo r; apply ruleCondition_withLogical).
    reflexivity.
  - reflexivity.
  - reflexivity.
  - reflexivity.
Qed.

(** Witness of C5: two rules, the first one saying OR. *)
Lemma combination_policy_witness :
  buildSegmentQuery (Samples.utc Samples.today)
    [withLogical (Some "OR") (tierRule "GOLD" None); daysRule ">" 30 (Some "AND")]
  = QCombine "$or"
      (imap (ruleCondition (Samples.utc Samples.today))
         [withLogical (Some "OR") (tierRule "GOLD" None); daysRule ">" 30 (Some "AND")]).
Proof.
  exact (proj1 (proj1 (proj1 (combination_policy (Samples.utc Samples.today))
                         (withLogical (Some "OR") (tierRule "GOLD" None))
                         (daysRule ">" 30 (Some "AND")) []) eq_refl)).
Defined.

(** *** Days since the last visit *)

(** C6 as amended: for a customer whose [lastVisit] is [t] and a rule
    value that is a whole number of days, on a host whose time zone has a
    fixed offset from UTC and with the dates being valid time values, the
    cutoff date is [now - days * 24h] and the rule
    [daysSinceLastVisit > days] holds exactly when [t] is strictly earlier
    than the cutoff (so [> 30] holds exactly when the last visit is more
    than 30 days before now); each comparison is turned round onto the
    cutoff, and [=] holds exactly in the 24 hours that start at the
    cutoff. *)
Theorem days_since_last_visit (rt : Runtime) (c : Customer) (t days : Z)
    (lo : option string) :
  let cutoff := clock rt 0 - days * msPerDay in
  fixedZone rt ->
  - maxTime <= cutoff -> cutoff + msPerDay <= maxTime ->
  lastVisit c = Some t ->
  (matchesQuery c (buildSegmentQuery rt [daysRule ">" days lo]) = true <-> t < cutoff) /\
  (matchesQuery c (buildSegmentQuery rt [daysRule "<" days lo]) = true <-> cutoff < t) /\
  (matchesQuery c (buildSegmentQuery rt [daysRule ">=" days lo]) = true <-> t <= cutoff) /\
  (matchesQuery c (buildSegmentQuery rt [daysRule "<=" days lo]) = true <-> cutoff <= t) /\
  (matchesQuery c (buildSegmentQuery rt [daysRule "=" days lo]) = true
     <-> cutoff <= t < cutoff + msPerDay).
Proof.
  intros cutoff Hzone Hlo Hhi Hvisit.
  assert (0 < msPerDay) as Hday by reflexivity.
  unfold buildSegmentQuery. cbn [imap]. unfold ruleCondition.
  cbn [field operator value daysRule ToNumber String.eqb Ascii.eqb Bool.eqb].
  rewrite (setDate_back rt (clock rt 0) days Hzone). fold cutoff.
  rewrite (TimeClip_valid cutoff) by lia.
  cbn [matchesQuery mbind option_bind].
  change (24 * 60 * 60 * 1000) with msPerDay.
  rewrite (TimeClip_valid (cutoff + msPerDay)) by lia.
  rewrite !(last_visit_ops c t _ Hvisit). cbn [forallb].
  rewrite !andb_true_r, andb_true_iff, !lt_date, gt_date, lte_date, !gte_date.
  repeat split; lia.
Qed.

(** Witness of C6: [daysSinceLastVisit > 30] on 2025-11-03 for a customer
    last seen on 2025-10-01. *)
Lemma days_since_last_visit_witness :
  matchesQuery (Samples.shopper "64b0c0ffee0123456789abcd" (100 # 1) (Some 1759276800000))
    (buildSegmentQuery (Samples.utc Samples.today) [daysRule ">" 30 None]) = true
  <-> 1759276800000 < Samples.today - 30 * msPerDay.
Proof.
  refine (proj1 (days_since_last_visit (Samples.utc Samples.today)
                   (Samples.shopper "64b0c0ffee0123456789abcd" (100 # 1) (Some 1759276800000))
                   1759276800000 30 None _ _ _ _)).
  - exists 0. reflexivity.
  - vm_compute. discriminate.
  - vm_compute. discriminate.
  - reflexivity.
Defined.

(** C6 as stated fails: [setDate] moves the date by calendar days of the
    local time zone and truncates a fractional day of the month.  In New
    York on 15 November 2025, 12:00 UTC, the cutoff of
    [daysSinceLastVisit > 30] is 16 October 11:00 UTC, an hour before
    now minus 30 days (daylight saving time has ended in between), so a
    customer last seen on 16 October at 11:30 UTC, more than 30 days
    before now, is not selected.  And on UTC the cutoff of
    [daysSinceLastVisit > 0.5] on 3 November 00:00 is 2 November 00:00, a
    whole day back, so a customer last seen on 2 November at 06:00, more
    than half a day before now, is not selected. *)
Lemma days_rule_calendar_days :
  (let rt := Samples.newYork 1763208000000 in
   let t := 1760614200000 in
   let c := Samples.shopper "64b0c0ffee0123456789abcd" (100 # 1) (Some t) in
   t < clock rt 0 - 30 * msPerDay /\
   ruleCondition rt 0 (daysRule ">" 30 None)
   = [("lastVisit", FOps [("$lt", ODate (Some (clock rt 0 - 30 * msPerDay - 3600000)))])] /\
   matchesQuery c (buildSegmentQuery rt [daysRule ">" 30 None]) = false) /\
  (let rt := Samples.utc Samples.today in
   let t := Samples.today - 18 * 3600000 in
   let c := Samples.shopper "64b0c0ffee0123456789abcd" (100 # 1) (Some t) in
   let r := {| field := "daysSinceLastVisit"; operator := ">"; value := JNum (1 # 2);
               logicalOperator := None |} in
   (inject_Z t < inject_Z (clock rt 0) - (1 # 2) * inject_Z msPerDay)%Q /\
   ruleCondition rt 0 r
   = [("lastVisit", FOps [("$lt", ODate (Some (clock rt 0 - msPerDay)))])] /\
   matchesQuery c (buildSegmentQuery rt [r]) = false).
Proof.
  cbn zeta. split; (split; [reflexivity|]); split; vm_compute; reflexivity.
Qed.

(** *** Tier rules without a range *)

Lemma assoc_In {A} k (l : list (string * A)) a :
  assoc k l = Some a -> In k (map fst l).
Proof.
  induction l as [|[k' a'] l IH]; cbn [assoc map fst In]; [discriminate|].
  destruct (String.eqb_spec k k') as [->|_]; [left; reflexivity | right; auto].
Qed.

(** X23: a [customerTier] rule whose operator is not "=" or whose value names
    no property of the tier table (none of the four labels, and no
    property that an object literal inherits) compiles to the empty
    condition, which is true of every customer; alone in a list it makes
    the whole query match everyone. *)
Theorem tier_rule_without_range (rt : Runtime) (i : nat) (r : Rule) :
  field r = "customerTier" ->
  operator r <> "=" \/ ~ namesProperty (value r) ->
  ruleCondition rt i r = [] /\
  (forall c, matchesCondition c (ruleCondition rt i r) = true) /\
  (forall c, matchesQuery c (buildSegmentQuery rt [r]) = true).
Proof.
  intros Hfield Hno.
  assert (forall j, ruleCondition rt j r = []) as Hempty.
  { intros j. unfold ruleCondition. rewrite Hfield. cbn [String.eqb Ascii.eqb Bool.eqb].
    destruct (String.eqb_spec (operator r) "=") as [Heq|Hne]; [|reflexivity].
    destruct Hno as [Hop|Hval]; [contradiction|].
    unfold tierRangesAt.
    destruct (ToPropertyKey (value r)) as [k|] eqn:Hk; [|reflexivity].
    destruct (assoc k tierRanges) as [range|] eqn:Hown.
    - exfalso. apply Hval. exists k. split; [assumption|]. left.
      exact (assoc_In k tierRanges range Hown).
    - destruct (existsb (String.eqb k) ObjectPrototype) eqn:Hin; [|reflexivity].
      exfalso. apply Hval. exists k. split; [assumption|]. right.
      apply existsb_exists in Hin as (k' & Hin & Heq').
      apply String.eqb_eq in Heq'. subst k'. assumption. }
  split; [apply Hempty|]. split.
  - intros c. rewrite Hempty. reflexivity.
  - intros c. unfold buildSegmentQuery. cbn [imap]. rewrite Hempty. reflexivity.
Qed.

(** Witness of X23: [customerTier = "PLATINUM"] is such a rule. *)
Lemma tier_rule_without_range_witness :
  ruleCondition (Samples.utc Samples.today) 0 (tierRule "PLATINUM" None) = [] /\
  (forall c, matchesCondition c
               (ruleCondition (Samples.utc Samples.today) 0 (tierRule "PLATINUM" None)) = true) /\
  (forall c, matchesQuery c
               (buildSegmentQuery (Samples.utc Samples.today) [tierRule "PLATINUM" None]) = true).
Proof.
  apply (tier_rule_without_range (Samples.utc Samples.today) 0 (tierRule "PLATINUM" None)).
  - reflexivity.
  - right. intros (k & Hk & Hin). injection Hk as <-.
    cbn in Hin. intuition discriminate.
Defined.

(** C10 (the code at the value "constructor"): the value is none of the
    four labels, so the rule is to compile to the empty condition; yet
    [tierRanges["constructor"]] is the inherited
    [Object.prototype.constructor], which is truthy, and the rule
    compiles to [{ totalSpent: { $gte: undefined, $lte: undefined } }],
    which is not empty, is left as it is by the cast of the query, and is
    not true of a customer with a stored [totalSpent]. *)
Lemma tier_rule_inherited_property :
  let r := tierRule "constructor" None in
  let rt := Samples.utc Samples.today in
  field r = "customerTier" /\
  ~ In (value r) [JStr "BRONZE"; JStr "SILVER"; JStr "GOLD"; JStr "PREMIUM"] /\
  ruleCondition rt 0 r
    = [("totalSpent", FOps [("$gte", OUndefined); ("$lte", OUndefined)])] /\
  ruleCondition rt 0 r <> [] /\
  matchesQuery (Samples.shopper "64b0c0ffee0123456789abcd" (100 # 1) None)
    (buildSegmentQuery rt [r]) = false /\
  forall strict,
    find rt strict [Samples.shopper "64b0c0ffee0123456789abcd" (100 # 1) None]
      (buildSegmentQuery rt [r]) = Some [].
Proof.
  cbn zeta. split; [reflexivity|]. split.
  - cbn. intuition discriminate.
  - split; [reflexivity|]. split; [discriminate|]. split; [reflexivity|].
    intros strict. reflexivity.
Qed.

End CompilerFacts.

(** ** Receipt ingestion *)

Module ReceiptFacts.
Import Js Receipts.

Lemma findOne_Some ls id i l :
  findOne ls id = Some (i, l) ->
  ls !! i = Some l /\ CommunicationLog.vendorMessageId l = id.
Proof.
  unfold findOne. intros H. apply list_find_Some in H. tauto.
Qed.

Lemma findOne_None ls id :
  (forall l, l ∈ ls -> CommunicationLog.vendorMessageId l <> id) ->
  findOne ls id = None.
Proof.
  intros H. unfold findOne. apply list_find_None, Forall_forall. exact H.
Qed.

(** Rewriting the found log in place, with the same id, leaves it the
    first match. *)
Lemma findOne_insert ls id i l l' :
  findOne ls id = Some (i, l) ->
  CommunicationLog.vendorMessageId l' = id ->
  findOne (<[i := l']> ls) id = Some (i, l').
Proof.
  unfold findOne. intros H Hid.
  apply list_find_Some in H as (Hi & _ & Hfirst).
  apply list_find_Some. split; [|split; [assumption|]].
  - apply list_lookup_insert_eq. eapply lookup_lt_Some, Hi.
  - intros j y Hj Hlt. rewrite list_lookup_insert_ne in Hj by lia.
    eapply Hfirst; eassumption.
Qed.

Lemma ingested_status s at_ l : CommunicationLog.status (ingested s at_ l) = s.
Proof. destruct at_; reflexivity. Qed.

(** *** The handler on its own *)

Lemma alter_insert {A} (f : A -> A) (l : list A) i x :
  l !! i = Some x -> alter f i l = <[i := f x]> l.
Proof.
  revert i. induction l as [|y l IH]; intros [|i] H; try discriminate.
  - injection H as ->. reflexivity.
  - cbn in H. cbn. f_equal. apply IH. exact H.
Qed.

Lemma map_alter_insert {A} (f : A -> A) (m : gmap string A) k x :
  m !! k = Some x -> alter f k m = <[k := f x]> m.
Proof.
  intros H. apply map_eq. intros j. destruct (decide (j = k)) as [->|Hne].
  - rewrite lookup_alter_eq, lookup_insert_eq, H. reflexivity.
  - rewrite lookup_alter_ne, lookup_insert_ne by congruence. reflexivity.
Qed.

(** With no other handler in between, the stored document is the loaded
    one and the save leaves the document as the handler has it in
    memory. *)
Lemma saveLog_alone s at_ l : saveLog l (ingested s at_ l) l = ingested s at_ l.
Proof.
  unfold saveLog. rewrite ingested_status.
  destruct l as [cid uid msg st sent del reason id].
  destruct at_ as [t|]; destruct del as [t'|];
    cbn;
    repeat match goal with
           | |- context [decide ?P] => destruct (decide P)
           end;
    unfold CommunicationLog.setDeliveredAt, CommunicationLog.setStatus; cbn;
    congruence.
Qed.

Lemma saveDelivered_alone c :
  saveDelivered c c = Campaign.setStats (Campaign.incDelivered (Campaign.stats c)) c.
Proof. reflexivity. Qed.

(** The handler run on its own, written out. *)
Lemma deliveryReceipt_alone db r :
  deliveryReceipt db r =
  match findOne (logs db) (vendorMessageId r) with
  | None => (Error 404 "Communication log not found", db)
  | Some (i, commLog) =>
      match castStatus (status r) with
      | None => (Error 500 "Failed to process delivery receipt", db)
      | Some s =>
          let db1 := setLogs (<[i := ingested s (deliveredAt r) commLog]> (logs db)) db in
          (Ok "Delivery receipt processed",
           match campaigns db !! CommunicationLog.campaignId commLog with
           | Some campaign =>
               if isDelivered r then
                 setCampaigns
                   (<[CommunicationLog.campaignId commLog :=
                       Campaign.setStats (Campaign.incDelivered (Campaign.stats campaign))
                         campaign]> (campaigns db)) db1
               else db1
           | None => db1
           end)
      end
  end.
Proof.
  unfold deliveryReceipt, arrive.
  destruct (findOne (logs db) (vendorMessageId r)) as [[i commLog]|] eqn:Hfind; [|reflexivity].
  apply findOne_Some in Hfind as [Hi _].
  cbn [finish next phase receipt].
  destruct (castStatus (status r)) as [s|]; [|reflexivity].
  rewrite (alter_insert _ _ _ _ Hi), saveLog_alone.
  cbn [finish next phase receipt setPhase campaigns setLogs].
  destruct (campaigns db !! CommunicationLog.campaignId commLog) as [campaign|] eqn:Hc;
    [|reflexivity].
  destruct (isDelivered r); [|reflexivity].
  cbn [finish next phase receipt setPhase campaigns setLogs answer].
  rewrite (map_alter_insert _ _ _ _ Hc), saveDelivered_alone. reflexivity.
Qed.

Lemma ingested_id s at_ l :
  CommunicationLog.vendorMessageId (ingested s at_ l) = CommunicationLog.vendorMessageId l.
Proof. destruct at_; reflexivity. Qed.

Lemma ingested_campaign s at_ l :
  CommunicationLog.campaignId (ingested s at_ l) = CommunicationLog.campaignId l.
Proof. destruct at_; reflexivity. Qed.

(** The handler on a DELIVERED receipt for a stored log of a stored
    campaign. *)
Lemma deliveryReceipt_delivered db r i l c :
  findOne (logs db) (vendorMessageId r) = Some (i, l) ->
  status r = Value "DELIVERED" ->
  campaigns db !! CommunicationLog.campaignId l = Some c ->
  deliveryReceipt db r =
    (Ok "Delivery receipt processed",
     setCampaigns
       (<[CommunicationLog.campaignId l :=
           Campaign.setStats (Campaign.incDelivered (Campaign.stats c)) c]> (campaigns db))
       (setLogs (<[i := ingested (Value CommunicationLog.DELIVERED) (deliveredAt r) l]>
                   (logs db)) db)).
Proof.
  intros Hfind Hstatus Hc. rewrite deliveryReceipt_alone, Hfind.
  unfold isDelivered. rewrite Hstatus.
  cbn [castStatus CommunicationLog.statusOfString String.eqb Ascii.eqb Bool.eqb
       fmap option_fmap option_map].
  cbn zeta. rewrite Hc. reflexivity.
Qed.

(** The handler on a receipt whose status the schema accepts. *)
Lemma deliveryReceipt_logs db r i l s :
  findOne (logs db) (vendorMessageId r) = Some (i, l) ->
  castStatus (status r) = Some s ->
  fst (deliveryReceipt db r) = Ok "Delivery receipt processed" /\
  logs (snd (deliveryReceipt db r)) = <[i := ingested s (deliveredAt r) l]> (logs db).
Proof.
  intros Hfind Hs. rewrite deliveryReceipt_alone, Hfind, Hs. cbn zeta.
  destruct (campaigns db !! CommunicationLog.campaignId l);
    [destruct (isDelivered r)|]; split; reflexivity.
Qed.

Lemma deliveryReceipt_rejected db r i l :
  findOne (logs db) (vendorMessageId r) = Some (i, l) ->
  castStatus (status r) = None ->
  deliveryReceipt db r = (Error 500 "Failed to process delivery receipt", db).
Proof.
  intros Hfind Hs. rewrite deliveryReceipt_alone, Hfind, Hs. reflexivity.
Qed.

(** The same DELIVERED receipt handled twice, one time after the other. *)
Lemma delivered_receipt_twice db r i l c :
  findOne (logs db) (vendorMessageId r) = Some (i, l) ->
  status r = Value "DELIVERED" ->
  campaigns db !! CommunicationLog.campaignId l = Some c ->
  exists c2,
    campaigns (snd (deliveryReceipt (snd (deliveryReceipt db r)) r))
      !! CommunicationLog.campaignId l = Some c2 /\
    Campaign.delivered (Campaign.stats c2) = Campaign.delivered (Campaign.stats c) + 2.
Proof.
  intros Hfind Hstatus Hc.
  pose proof (findOne_Some _ _ _ _ Hfind) as [Hi Hid].
  pose proof (deliveryReceipt_delivered db r i l c Hfind Hstatus Hc) as H1.
  assert (Hdb1 := f_equal snd H1). cbn [snd] in Hdb1.
  set (db1 := snd (deliveryReceipt db r)) in *.
  set (l1 := ingested (Value CommunicationLog.DELIVERED) (deliveredAt r) l) in *.
  set (c1 := Campaign.setStats (Campaign.incDelivered (Campaign.stats c)) c) in *.
  assert (findOne (logs db1) (vendorMessageId r) = Some (i, l1)) as Hfind1.
  { rewrite Hdb1. cbn [logs setCampaigns setLogs].
    apply (findOne_insert _ _ _ l); [assumption|].
    unfold l1. rewrite ingested_id. assumption. }
  assert (campaigns db1 !! CommunicationLog.campaignId l1 = Some c1) as Hc1.
  { unfold l1. rewrite ingested_campaign, Hdb1. cbn [campaigns setCampaigns].
    apply lookup_insert_eq. }
  pose proof (deliveryReceipt_delivered db1 r i l1 c1 Hfind1 Hstatus Hc1) as H2.
  assert (Hdb2 := f_equal snd H2). cbn [snd] in Hdb2.
  exists (Campaign.setStats (Campaign.incDelivered (Campaign.stats c1)) c1).
  split.
  - rewrite Hdb2. cbn [campaigns setCampaigns]. unfold l1 at 1.
    rewrite ingested_campaign. apply lookup_insert_eq.
  - cbn. lia.
Qed.

(** C9: a receipt whose [vendorMessageId] no stored log carries is answered
    404 "Communication log not found", and the store (every log, every
    campaign and its counters) is returned as it was. *)
Theorem unknown_receipt (db : Db) (r : Receipt) :
  (forall l, l ∈ logs db -> CommunicationLog.vendorMessageId l <> vendorMessageId r) ->
  deliveryReceipt db r = (Error 404 "Communication log not found", db).
Proof.
  intros H. rewrite deliveryReceipt_alone, (findOne_None _ _ H). reflexivity.
Qed.

(** Witness of C9: a receipt for an id that was never issued. *)
Lemma unknown_receipt_witness :
  deliveryReceipt Samples.launched (Samples.receiptFor "msg_unknown" "DELIVERED")
  = (Error 404 "Communication log not found", Samples.launched).
Proof.
  apply (unknown_receipt Samples.launched (Samples.receiptFor "msg_unknown" "DELIVERED")).
  intros l Hl. vm_compute in Hl.
  apply elem_of_cons in Hl as [->|Hl]; [discriminate|].
  apply elem_of_cons in Hl as [->|Hl]; [discriminate|].
  inversion Hl.
Defined.

(** C1 as amended: a DELIVERED receipt for a stored log of a stored
    campaign is answered with success, sets that log's status to DELIVERED
    and leaves the other logs alone, adds one to [stats.delivered] of the
    log's campaign and leaves [sent], [failed] and every other campaign
    alone; the same receipt a second time adds one again. *)
Theorem delivered_receipt (db : Db) (r : Receipt) (i : nat)
    (l : CommunicationLog.doc) (c : Campaign.doc) :
  findOne (logs db) (vendorMessageId r) = Some (i, l) ->
  status r = Value "DELIVERED" ->
  campaigns db !! CommunicationLog.campaignId l = Some c ->
  let db1 := snd (deliveryReceipt db r) in
  let db2 := snd (deliveryReceipt db1 r) in
  fst (deliveryReceipt db r) = Ok "Delivery receipt processed" /\
  (exists l1, logs db1 !! i = Some l1 /\
              CommunicationLog.status l1 = Value CommunicationLog.DELIVERED) /\
  (forall j, j <> i -> logs db1 !! j = logs db !! j) /\
  (exists c1, campaigns db1 !! CommunicationLog.campaignId l = Some c1 /\
              Campaign.delivered (Campaign.stats c1)
              = Campaign.delivered (Campaign.stats c) + 1 /\
              Campaign.sent (Campaign.stats c1) = Campaign.sent (Campaign.stats c) /\
              Campaign.failed (Campaign.stats c1) = Campaign.failed (Campaign.stats c)) /\
  (forall k, k <> CommunicationLog.campaignId l ->
             campaigns db1 !! k = campaigns db !! k) /\
  (exists c2, campaigns db2 !! CommunicationLog.campaignId l = Some c2 /\
              Campaign.delivered (Campaign.stats c2)
              = Campaign.delivered (Campaign.stats c) + 2).
Proof.
  intros Hfind Hstatus Hc db1 db2.
  pose proof (findOne_Some _ _ _ _ Hfind) as [Hi Hid].
  assert (i < length (logs db))%nat as Hlt by (eapply lookup_lt_Some, Hi).
  pose proof (deliveryReceipt_delivered db r i l c Hfind Hstatus Hc) as H1.
  assert (Hdb1 := f_equal snd H1). cbn [snd] in Hdb1. fold db1 in Hdb1.
  set (l1 := ingested (Value CommunicationLog.DELIVERED) (deliveredAt r) l) in *.
  set (c1 := Campaign.setStats (Campaign.incDelivered (Campaign.stats c)) c) in *.
  assert (findOne (logs db1) (vendorMessageId r) = Some (i, l1)) as Hfind1.
  { rewrite Hdb1. cbn [logs setCampaigns setLogs].
    apply (findOne_insert _ _ _ l); [assumption|].
    unfold l1. rewrite ingested_id. assumption. }
  assert (campaigns db1 !! CommunicationLog.campaignId l1 = Some c1) as Hc1.
  { unfold l1. rewrite ingested_campaign, Hdb1. cbn [campaigns setCampaigns].
    apply lookup_insert_eq. }
  pose proof (deliveryReceipt_delivered db1 r i l1 c1 Hfind1 Hstatus Hc1) as H2.
  assert (Hdb2 := f_equal snd H2). cbn [snd] in Hdb2. fold db2 in Hdb2.
  split; [rewrite H1; reflexivity|].
  split.
  { exists l1. split; [|apply ingested_status].
    rewrite Hdb1. cbn [logs setCampaigns setLogs].
    apply list_lookup_insert_eq. assumption. }
  split.
  { intros j Hj. rewrite Hdb1. cbn [logs setCampaigns setLogs].
    apply list_lookup_insert_ne. congruence. }
  split.
  { exists c1. split; [|repeat split].
    rewrite Hdb1. cbn [campaigns setCampaigns]. apply lookup_insert_eq. }
  split.
  { intros k Hk. rewrite Hdb1. cbn [campaigns setCampaigns].
    apply lookup_insert_ne. congruence. }
  exists (Campaign.setStats (Campaign.incDelivered (Campaign.stats c1)) c1).
  split.
  - rewrite Hdb2. cbn [campaigns setCampaigns]. unfold l1 at 1.
    rewrite ingested_campaign. apply lookup_insert_eq.
  - cbn. lia.
Qed.

(** Witness of C1: the receipt of the first log of the sample launch. *)
Lemma delivered_receipt_witness :
  let r := Samples.receiptFor Samples.firstId "DELIVERED" in
  let db1 := snd (deliveryReceipt Samples.launched r) in
  let db2 := snd (deliveryReceipt db1 r) in
  (exists l1, logs db1 !! 0%nat = Some l1 /\
              CommunicationLog.status l1 = Value CommunicationLog.DELIVERED) /\
  (exists c2, campaigns db2 !! "64b0c0ffee0123456789ab20" = Some c2 /\
              Campaign.delivered (Campaign.stats c2) = 0 + 2).
Proof.
  cbn zeta.
  destruct (findOne (logs Samples.launched) Samples.firstId) as [[i l]|] eqn:Hfind;
    [|vm_compute in Hfind; discriminate].
  assert (i = 0%nat /\ CommunicationLog.campaignId l = "64b0c0ffee0123456789ab20") as [-> Hcid]
    by (vm_compute in Hfind; injection Hfind as <- <-; split; reflexivity).
  destruct (campaigns Samples.launched !! CommunicationLog.campaignId l) as [c|] eqn:Hc;
    [|rewrite Hcid in Hc; vm_compute in Hc; discriminate].
  assert (Campaign.delivered (Campaign.stats c) = 0) as Hzero
    by (rewrite Hcid in Hc; vm_compute in Hc; injection Hc as <-; reflexivity).
  pose proof (delivered_receipt Samples.launched
                (Samples.receiptFor Samples.firstId "DELIVERED") 0 l c Hfind eq_refl Hc)
    as (_ & Hlog & _ & _ & _ & Hc2).
  rewrite Hcid, Hzero in Hc2. split; [exact Hlog | exact Hc2].
Defined.

(** C1 as stated fails: in the store the sample launch left, the first log
    is SENT and its campaign has [stats.delivered = 0]; the DELIVERED
    receipt for it makes that 1, and the same receipt again makes it 2. *)
Lemma delivered_receipt_counted_twice :
  let r := Samples.receiptFor Samples.firstId "DELIVERED" in
  let cid := "64b0c0ffee0123456789ab20" in
  let db1 := snd (deliveryReceipt Samples.launched r) in
  let db2 := snd (deliveryReceipt db1 r) in
  let delivered db := Campaign.delivered <$> (Campaign.stats <$> campaigns db !! cid) in
  CommunicationLog.status <$> logs Samples.launched !! 0%nat
  = Some (Value CommunicationLog.SENT) /\
  delivered Samples.launched = Some 0 /\
  delivered db1 = Some 1 /\
  delivered db2 = Some 2 /\
  delivered db2 <> delivered db1.
Proof.
  cbn zeta. repeat split; try (vm_compute; reflexivity).
  vm_compute. discriminate.
Qed.

End ReceiptFacts.

(** ** Campaign launch *)

Module DispatchFacts.
Import Js Dispatch Invariants.

(** *** What a callback writes *)

Lemma record_status o t l :
  CommunicationLog.status (record o t l)
  = Value (if accepted o then CommunicationLog.SENT else CommunicationLog.FAILED).
Proof.
  destruct o as [[[] [e|] v]|]; reflexivity.
Qed.

Lemma record_id o t l :
  CommunicationLog.vendorMessageId (record o t l) = CommunicationLog.vendorMessageId l /\
  CommunicationLog.campaignId (record o t l) = CommunicationLog.campaignId l /\
  CommunicationLog.customerId (record o t l) = CommunicationLog.customerId l.
Proof.
  destruct o as [[[] [e|] v]|]; repeat split.
Qed.

Lemma count_sent o s :
  Campaign.sent (count o s) = Campaign.sent s + (if accepted o then 1 else 0).
Proof.
  destruct o as [[[] e v]|]; cbn; lia.
Qed.

Lemma count_failed o s :
  Campaign.failed (count o s) = Campaign.failed s + (if accepted o then 0 else 1).
Proof.
  destruct o as [[[] e v]|]; cbn; lia.
Qed.

Lemma count_delivered o s :
  Campaign.delivered (count o s) = Campaign.delivered s.
Proof.
  destruct o as [[[] e v]|]; reflexivity.
Qed.

(** *** Counting callbacks by the status of their log *)

Lemma countStatus_cons s task ts :
  countStatus s (task :: ts) = (one s task + countStatus s ts)%nat.
Proof.
  unfold countStatus, one. rewrite filter_cons.
  destruct (decide _); reflexivity.
Qed.

Lemma countStatus_insert s ts i old new :
  ts !! i = Some old ->
  (countStatus s (<[i := new]> ts) + one s old = countStatus s ts + one s new)%nat.
Proof.
  revert i. induction ts as [|x ts IH]; intros [|i] H; try discriminate.
  - injection H as ->. cbn [insert list_insert]. rewrite !countStatus_cons. lia.
  - cbn in H. change (<[S i := new]> (x :: ts)) with (x :: <[i := new]> ts).
    rewrite !countStatus_cons. specialize (IH i H). lia.
Qed.

(** When every log is SENT or FAILED the two counts add up to the number
    of callbacks. *)
Lemma countStatus_total ts :
  (forall task, task ∈ ts ->
     CommunicationLog.status (commLog task) = Value CommunicationLog.SENT \/
     CommunicationLog.status (commLog task) = Value CommunicationLog.FAILED) ->
  (countStatus CommunicationLog.SENT ts + countStatus CommunicationLog.FAILED ts
   = length ts)%nat.
Proof.
  induction ts as [|x ts IH]; intros H; [reflexivity|].
  rewrite !countStatus_cons. cbn [length].
  assert (Hx := H x (list_elem_of_here x ts)).
  rewrite <- IH by (intros task Ht; apply H; right; exact Ht).
  unfold one. destruct Hx as [Hx|Hx]; rewrite Hx;
    repeat (destruct (decide _) as [?|?]; try discriminate; try congruence); lia.
Qed.

(** *** A receipt handler and the stored campaigns *)

(** One step of a receipt handler keeps every stored campaign, with its
    status and its counters of sends. *)
Lemma next_campaign db h db' h' k c :
  Receipts.next db h = Some (db', h') ->
  campaigns db !! k = Some c ->
  exists c', campaigns db' !! k = Some c' /\
             Campaign.status c' = Campaign.status c /\
             Campaign.sent (Campaign.stats c') = Campaign.sent (Campaign.stats c) /\
             Campaign.failed (Campaign.stats c') = Campaign.failed (Campaign.stats c).
Proof.
  intros Hnext Hc. unfold Receipts.next in Hnext.
  destruct (Receipts.phase h) as [idx commLog|commLog|cid campaign|r].
  - destruct (Receipts.castStatus _); injection Hnext as <- _; exists c; auto.
  - destruct (campaigns db !! _); [destruct (Receipts.isDelivered _)|];
      injection Hnext as <- _; exists c; auto.
  - injection Hnext as <- _. cbn [campaigns setCampaigns].
    destruct (decide (k = cid)) as [->|Hk].
    + rewrite lookup_alter_eq, Hc. eexists. split; [reflexivity|]. auto.
    + rewrite lookup_alter_ne by congruence. exists c. auto.
  - discriminate.
Qed.

(** *** The invariant *)

Lemma all_settled ts i task :
  forallb isSettled ts = true -> ts !! i = Some task -> isSettled task = true.
Proof.
  intros Hall Hi. rewrite forallb_forall in Hall. apply Hall.
  apply list_elem_of_In. eapply list_elem_of_lookup_2, Hi.
Qed.

Lemma one_same s task task' :
  commLog task' = commLog task -> one s task' = one s task.
Proof. unfold one. intros ->. reflexivity. Qed.

Lemma lookup_insert_inv {A} (l : list A) i j x y :
  <[i := x]> l !! j = Some y -> (j = i /\ y = x) \/ l !! j = Some y.
Proof.
  intros H. destruct (decide (i = j)) as [->|Hne].
  - destruct (decide (j < length l)%nat).
    + rewrite list_lookup_insert_eq in H by assumption. left. split; congruence.
    + rewrite list_insert_ge in H by lia. right. assumption.
  - rewrite list_lookup_insert_ne in H by assumption. right. assumption.
Qed.

Lemma step_Inv cid N st st' : Inv cid N st -> step st st' -> Inv cid N st'.
Proof.
  intros [Hlen Hphase Hsent Hfailed Hid Hrun Hresp] Hstep.
  destruct Hstep as [st i task Hi Hsaving | st i task idx o t Hi Hsending | st Hnone Hall
                    | st r | st k h db' h' Hk Hnext].
  - (* the first save of a callback completes *)
    pose proof (Hphase i task Hi) as Hpending. rewrite Hsaving in Hpending.
    assert (forall s, countStatus s (tasks (saved i task st)) = countStatus s (tasks st)) as Hcount.
    { intros s. cbn [tasks saved].
      pose proof (countStatus_insert s (tasks st) i task
                    (setPhase (Sending (length (logs (db st)))) task) Hi) as H.
      unfold one in H. cbn [commLog setPhase] in H. lia. }
    split.
    + cbn [tasks saved]. rewrite length_insert. assumption.
    + cbn [tasks saved]. intros j task' Hj.
      apply lookup_insert_inv in Hj as [[_ ->]|Hj]; [exact Hpending | exact (Hphase j task' Hj)].
    + rewrite Hcount. exact Hsent.
    + rewrite Hcount. exact Hfailed.
    + exact Hid.
    + exact Hrun.
    + cbn [response saved tasks]. intros r Hr. destruct (Hresp r Hr) as (Hall & _).
      pose proof (all_settled _ _ _ Hall Hi) as Hs. unfold isSettled in Hs.
      rewrite Hsaving in Hs. discriminate.
  - (* a vendor call ends *)
    pose proof (Hphase i task Hi) as Hpending. rewrite Hsending in Hpending.
    assert (response st = None) as Hnone.
    { destruct (response st) as [r|] eqn:Hr; [|reflexivity].
      destruct (Hresp r eq_refl) as (Hall & _).
      pose proof (all_settled _ _ _ Hall Hi) as Hs. unfold isSettled in Hs.
      rewrite Hsending in Hs. discriminate. }
    set (task' := {| customer := customer task; commLog := record o t (commLog task);
                     phase := Settled idx |}).
    assert (forall s, (countStatus s (tasks (settled i task idx o t st)) + one s task
                       = countStatus s (tasks st) + one s task')%nat) as Hcount.
    { intros s. cbn [tasks settled]. apply countStatus_insert. exact Hi. }
    assert (forall s, one s task = if decide (CommunicationLog.PENDING = s) then 1%nat else 0%nat)
      as Hold.
    { intros s. unfold one. rewrite Hpending.
      destruct (decide (CommunicationLog.PENDING = s)) as [->|Hne];
        [apply decide_True; reflexivity | apply decide_False; congruence]. }
    assert (forall s, one s task' =
              if decide ((if accepted o then CommunicationLog.SENT else CommunicationLog.FAILED) = s)
              then 1%nat else 0%nat)
      as Hnew.
    { intros s. unfold one, task'. cbn [commLog]. rewrite record_status.
      destruct (decide (_ = s)) as [->|Hne];
        [apply decide_True; reflexivity | apply decide_False; congruence]. }
    split.
    + cbn [tasks settled]. rewrite length_insert. assumption.
    + cbn [tasks settled]. intros j task'' Hj.
      apply lookup_insert_inv in Hj as [[_ ->]|Hj]; [|exact (Hphase j task'' Hj)].
      cbn [phase commLog]. rewrite record_status. destruct (accepted o); auto.
    + cbn [campaign settled Campaign.stats Campaign.setStats]. rewrite count_sent, Hsent.
      specialize (Hcount CommunicationLog.SENT).
      rewrite Hold, Hnew in Hcount. rewrite decide_False in Hcount by discriminate.
      destruct (accepted o);
        [rewrite decide_True in Hcount by reflexivity
        |rewrite decide_False in Hcount by discriminate]; lia.
    + cbn [campaign settled Campaign.stats Campaign.setStats]. rewrite count_failed, Hfailed.
      specialize (Hcount CommunicationLog.FAILED).
      rewrite Hold, Hnew in Hcount. rewrite decide_False in Hcount by discriminate.
      destruct (accepted o);
        [rewrite decide_False in Hcount by discriminate
        |rewrite decide_True in Hcount by reflexivity]; lia.
    + exact Hid.
    + cbn [response settled campaign db campaigns setLogs Campaign.status Campaign.setStats].
      exact Hrun.
    + cbn [response settled]. intros r Hr. congruence.
  - (* the handler answers *)
    destruct (Hrun Hnone) as (_ & c & Hc & _).
    split.
    + exact Hlen.
    + exact Hphase.
    + exact Hsent.
    + exact Hfailed.
    + exact Hid.
    + cbn [response completed]. discriminate.
    + cbn [response completed]. intros r Hr. injection Hr as <-.
      split; [exact Hall|]. split; [reflexivity|]. split; [reflexivity|].
      cbn [db completed campaigns setCampaigns campaign Campaign._id Campaign.setStatus].
      rewrite Hid, lookup_alter_eq, Hc. cbn [fmap option_fmap option_map].
      eexists. split; [reflexivity|]. repeat split.
  - (* a receipt arrives *)
    split; assumption.
  - (* a receipt handler goes on *)
    split; try assumption.
    + cbn [response handled campaign db]. intros Hnone.
      destruct (Hrun Hnone) as (Hmem & c & Hc & Hstatus). split; [exact Hmem|].
      destruct (next_campaign _ _ _ _ cid c Hnext Hc) as (c' & Hc' & Hs & _).
      exists c'. split; [exact Hc' | congruence].
    + cbn [response handled campaign db tasks]. intros r' Hr'.
      destruct (Hresp r' Hr') as (Hall & Hmem & Hr & c & Hc & Hs & Hsn & Hfl).
      split; [exact Hall|]. split; [exact Hmem|]. split; [exact Hr|].
      destruct (next_campaign _ _ _ _ cid c Hnext Hc) as (c' & Hc' & Hs' & Hsn' & Hfl').
      exists c'. split; [exact Hc'|]. repeat split; congruence.
Qed.

Lemma steps_Inv cid N st st' : Inv cid N st -> steps st st' -> Inv cid N st'.
Proof.
  intros Hinv Hsteps. induction Hsteps as [|st st1 st2 Hstep _ IH]; [assumption|].
  apply IH. eapply step_Inv; eassumption.
Qed.

(** *** The start of a launch *)

Lemma launchStart_inr env db0 body st0 :
  launchStart env db0 body = inr st0 ->
  audience env db0 body <> [] /\
  exists value,
    campaignSchema body = Some value /\
    tasks st0 = imap (fun i c => newTask (newId env) (message value) (now env i) c)
                     (audience env db0 body) /\
    response st0 = None /\
    Campaign._id (campaign st0) = newId env /\
    Campaign.status (campaign st0) = Campaign.RUNNING /\
    Campaign.stats (campaign st0) = Campaign.noStats /\
    Campaign.audienceSize (campaign st0) = Z.of_nat (length (audience env db0 body)) /\
    db st0 = setCampaigns (<[newId env := campaign st0]> (campaigns db0)) db0.
Proof.
  unfold launchStart, audience.
  destruct (campaignSchema body) as [value|]; [|discriminate].
  destruct (findSegment env db0 (segmentId value)) as [[[id segment]|]|]; try discriminate.
  destruct (Mongo.find _ _ _ _) as [[|c found]|] eqn:Hfound; try discriminate.
  intros H. injection H as <-. split; [discriminate|].
  exists value. cbn [tasks response campaign db Campaign._id Campaign.status
                     Campaign.stats Campaign.audienceSize default].
  repeat split.
Qed.

Lemma launchStart_handlers env db0 body st0 :
  launchStart env db0 body = inr st0 -> handlers st0 = [].
Proof.
  unfold launchStart.
  destruct (campaignSchema body) as [value|]; [|discriminate].
  destruct (findSegment env db0 (segmentId value)) as [[[id segment]|]|]; try discriminate.
  destruct (Mongo.find _ _ _ _) as [[|c found]|]; try discriminate.
  intros H. injection H as <-. reflexivity.
Qed.

Lemma newTask_lookup cid msg (nows : nat -> Z) found i task :
  imap (fun i c => newTask cid msg (nows i) c) found !! i = Some task ->
  exists c, found !! i = Some c /\ task = newTask cid msg (nows i) c.
Proof.
  rewrite list_lookup_imap. destruct (found !! i) as [c|]; [|discriminate].
  cbn. intros H. injection H as <-. exists c. split; reflexivity.
Qed.

Lemma countStatus_none s ts :
  (forall task, task ∈ ts -> CommunicationLog.status (commLog task) <> Value s) ->
  countStatus s ts = 0%nat.
Proof.
  induction ts as [|x ts IH]; intros H; [reflexivity|].
  rewrite countStatus_cons, IH by (intros task Ht; apply H; right; exact Ht).
  unfold one. rewrite decide_False; [reflexivity|].
  apply H. left.
Qed.

Lemma launchStart_Inv env db0 body st0 :
  launchStart env db0 body = inr st0 ->
  Inv (newId env) (length (audience env db0 body)) st0.
Proof.
  intros Hstart.
  destruct (launchStart_inr _ _ _ _ Hstart)
    as (_ & value & _ & Htasks & Hresp & Hid & Hstatus & Hstats & _ & Hdb).
  assert (forall task, task ∈ tasks st0 ->
            phase task = Saving /\
            CommunicationLog.status (commLog task) = Value CommunicationLog.PENDING) as Hnew.
  { intros task Hin. apply list_elem_of_lookup in Hin as [i Hi]. rewrite Htasks in Hi.
    apply newTask_lookup in Hi as (c & _ & ->). split; reflexivity. }
  split.
  - rewrite Htasks, length_imap. reflexivity.
  - intros i task Hi.
    destruct (Hnew task (list_elem_of_lookup_2 _ _ _ Hi)) as [-> Hp]. exact Hp.
  - rewrite Hstats, countStatus_none; [reflexivity|].
    intros task Hin. destruct (Hnew task Hin) as [_ ->]. discriminate.
  - rewrite Hstats, countStatus_none; [reflexivity|].
    intros task Hin. destruct (Hnew task Hin) as [_ ->]. discriminate.
  - exact Hid.
  - intros _. split; [exact Hstatus|]. exists (campaign st0). split; [|exact Hstatus].
    rewrite Hdb. cbn [campaigns setCampaigns]. apply lookup_insert_eq.
  - rewrite Hresp. discriminate.
Qed.

(** *** Driving a launch to its end *)

(** A callback driven to its end: the steps taken are steps of the launch,
    the callback has returned, its log records its outcome, and no other
    callback is touched. *)
Lemma runTask_spec outcomes times st i :
  let st' := runTask outcomes times st i in
  steps st st' /\
  length (tasks st') = length (tasks st) /\
  response st' = response st /\
  (forall j, j <> i -> tasks st' !! j = tasks st !! j) /\
  (forall task, tasks st !! i = Some task ->
     exists task', tasks st' !! i = Some task' /\ isSettled task' = true /\
       customer task' = customer task /\
       (isSettled task = true -> task' = task) /\
       (isSettled task = false ->
          commLog task' = record (outcomes i) (times i) (commLog task))).
Proof.
  unfold runTask. destruct (tasks st !! i) as [task|] eqn:Hi.
  2: { cbn zeta. split; [apply rtc_refl|]. repeat split. intros task H. discriminate. }
  assert (i < length (tasks st))%nat as Hlt by (eapply lookup_lt_Some, Hi).
  destruct (phase task) as [|idx|idx] eqn:Hphase; cbn zeta.
  - set (task1 := setPhase (Sending (length (logs (db st)))) task).
    assert (tasks (saved i task st) !! i = Some task1) as Hi1
      by (cbn [tasks saved]; apply list_lookup_insert_eq; exact Hlt).
    split.
    { eapply rtc_l; [apply (step_saved st i task Hi Hphase)|].
      apply rtc_once. apply (step_settled _ i task1 _ _ _ Hi1). reflexivity. }
    cbn [tasks settled saved response]. rewrite !length_insert.
    split; [reflexivity|]. split; [reflexivity|]. split.
    { intros j Hj. rewrite !list_lookup_insert_ne by congruence. reflexivity. }
    intros task0 H0. injection H0 as <-. eexists. split.
    { apply list_lookup_insert_eq. rewrite length_insert. exact Hlt. }
    cbn [customer commLog phase isSettled task1 setPhase].
    split; [reflexivity|]. split; [reflexivity|]. split; [|reflexivity].
    unfold isSettled. rewrite Hphase. discriminate.
  - split.
    { apply rtc_once. apply (step_settled st i task idx _ _ Hi Hphase). }
    cbn [tasks settled response]. rewrite length_insert.
    split; [reflexivity|]. split; [reflexivity|]. split.
    { intros j Hj. rewrite list_lookup_insert_ne by congruence. reflexivity. }
    intros task0 H0. injection H0 as <-. eexists. split.
    { apply list_lookup_insert_eq. exact Hlt. }
    cbn [customer commLog phase isSettled].
    split; [reflexivity|]. split; [reflexivity|]. split; [|reflexivity].
    unfold isSettled. rewrite Hphase. discriminate.
  - split; [apply rtc_refl|]. repeat split.
    intros task0 H0. exists task. rewrite Hi. split; [reflexivity|].
    injection H0 as <-. unfold isSettled. rewrite Hphase.
    repeat split. discriminate.
Qed.

Lemma runTasks_spec outcomes times m : forall k st,
  (k + m = length (tasks st))%nat ->
  let st' := foldl (runTask outcomes times) st (seq k m) in
  steps st st' /\
  length (tasks st') = length (tasks st) /\
  response st' = response st /\
  (forall j, (j < k)%nat -> tasks st' !! j = tasks st !! j) /\
  (forall j task, (k <= j)%nat -> tasks st !! j = Some task ->
     exists task', tasks st' !! j = Some task' /\ isSettled task' = true /\
       customer task' = customer task /\
       (isSettled task = true -> task' = task) /\
       (isSettled task = false ->
          commLog task' = record (outcomes j) (times j) (commLog task))).
Proof.
  induction m as [|m IH]; intros k st Hlen; cbn [seq foldl].
  - cbn zeta. split; [apply rtc_refl|]. repeat split.
    intros j task Hj Htask. apply lookup_lt_Some in Htask. lia.
  - destruct (runTask_spec outcomes times st k) as (Hs1 & Hl1 & Hr1 & Ho1 & Hk1).
    set (st1 := runTask outcomes times st k) in *.
    destruct (IH (S k) st1 ltac:(lia)) as (Hs2 & Hl2 & Hr2 & Ho2 & Hk2).
    cbn zeta. split; [etrans; eassumption|].
    split; [congruence|]. split; [congruence|]. split.
    + intros j Hj. rewrite Ho2 by lia. apply Ho1. lia.
    + intros j task Hj Htask. destruct (decide (j = k)) as [->|Hne].
      * destruct (Hk1 task Htask) as (task' & Ht' & Hset & Hcust & Hsame & Hrec).
        exists task'. rewrite Ho2 by lia. auto.
      * rewrite <- Ho1 in Htask by assumption.
        apply (Hk2 j task); [lia | exact Htask].
Qed.

Lemma forallb_lookup {A} (f : A -> bool) (l : list A) :
  (forall i x, l !! i = Some x -> f x = true) -> forallb f l = true.
Proof.
  intros H. apply forallb_forall. intros x Hin.
  apply list_elem_of_In, list_elem_of_lookup in Hin as [i Hi]. eauto.
Qed.

(** The launch driven to its end from a state in which the handler has not
    answered: the end is reached by steps of the launch, the handler has
    answered 201 with the campaign COMPLETED, and every callback that had
    not returned has recorded its outcome. *)
Lemma run_spec outcomes times st :
  response st = None ->
  let st' := run outcomes times st in
  steps st st' /\
  response st' = Some (Created "Campaign created and launched successfully" (campaign st')) /\
  Campaign.status (campaign st') = Campaign.COMPLETED /\
  length (tasks st') = length (tasks st) /\
  (forall j task, tasks st !! j = Some task ->
     exists task', tasks st' !! j = Some task' /\ isSettled task' = true /\
       customer task' = customer task /\
       (isSettled task = false ->
          commLog task' = record (outcomes j) (times j) (commLog task))).
Proof.
  intros Hnone. unfold run. rewrite Hnone.
  destruct (runTasks_spec outcomes times (length (tasks st)) 0 st eq_refl)
    as (Hsteps & Hlen & Hresp & _ & Htasks).
  set (st1 := foldl (runTask outcomes times) st (seq 0 (length (tasks st)))) in *.
  cbn zeta. split.
  { eapply rtc_r; [exact Hsteps|]. apply step_completed; [congruence|].
    apply forallb_lookup. intros i task' Hi.
    assert (i < length (tasks st))%nat as Hlt by (rewrite <- Hlen; eapply lookup_lt_Some, Hi).
    destruct (lookup_lt_is_Some_2 _ _ Hlt) as [task Htask].
    destruct (Htasks i task ltac:(lia) Htask) as (task'' & Hi' & Hset & _).
    congruence. }
  cbn [response completed campaign tasks Campaign.status Campaign.setStatus].
  split; [reflexivity|]. split; [reflexivity|]. split; [exact Hlen|].
  intros j task Htask.
  destruct (Htasks j task ltac:(lia) Htask) as (task' & Hj & Hset & Hcust & _ & Hrec).
  exists task'. auto.
Qed.

(** Counting the logs with a status when the status of the log at each
    position is known. *)
Lemma countStatus_seq s (f : nat -> CommunicationLog.Status) ts : forall k,
  (forall j task, ts !! j = Some task ->
     CommunicationLog.status (commLog task) = Value (f (k + j)%nat)) ->
  countStatus s ts = length (filter (fun j => f j = s) (seq k (length ts))).
Proof.
  induction ts as [|x ts IH]; intros k H; [reflexivity|].
  rewrite countStatus_cons. cbn [length seq]. rewrite filter_cons.
  rewrite (IH (S k)).
  2: { intros j task Hj. rewrite (H (S j) task Hj). do 2 f_equal. lia. }
  unfold one. rewrite (H 0%nat x eq_refl), Nat.add_0_r.
  destruct (decide (f k = s)) as [->|Hne];
    [rewrite decide_True by reflexivity | rewrite decide_False by congruence]; reflexivity.
Qed.

(** From every state of a launch the answer of the handler can still be
    reached. *)
Lemma can_complete st : exists st', steps st st' /\ response st' <> None.
Proof.
  destruct (response st) as [r|] eqn:Hr.
  - exists st. split; [apply rtc_refl | congruence].
  - destruct (run_spec (fun _ => VendorAPI.Threw) (fun _ => 0) st Hr) as (Hsteps & Hresp & _).
    eexists. split; [exact Hsteps | congruence].
Qed.

(** The logs in memory once the launch has been driven from its start. *)
Lemma run_statuses env db0 body st0 outcomes times :
  launchStart env db0 body = inr st0 ->
  forall j task, tasks (run outcomes times st0) !! j = Some task ->
    CommunicationLog.status (commLog task)
    = Value (if accepted (outcomes j) then CommunicationLog.SENT else CommunicationLog.FAILED).
Proof.
  intros Hstart j task Hj.
  destruct (launchStart_inr _ _ _ _ Hstart) as (_ & value & _ & Htasks & Hresp & _).
  destruct (run_spec outcomes times st0 Hresp) as (_ & _ & _ & Hlen & Hrun).
  assert (j < length (tasks st0))%nat as Hlt by (rewrite <- Hlen; eapply lookup_lt_Some, Hj).
  destruct (lookup_lt_is_Some_2 _ _ Hlt) as [task0 Htask0].
  destruct (Hrun j task0 Htask0) as (task' & Hj' & _ & _ & Hrec).
  assert (task' = task) as -> by congruence.
  rewrite Htasks in Htask0. apply newTask_lookup in Htask0 as (c & _ & ->).
  rewrite Hrec by reflexivity. apply record_status.
Qed.

(** Once every callback has returned the two counters add up to the
    number of callbacks. *)
Lemma Inv_total cid N st :
  Inv cid N st -> forallb isSettled (tasks st) = true ->
  Campaign.sent (Campaign.stats (campaign st))
  + Campaign.failed (Campaign.stats (campaign st)) = Z.of_nat N.
Proof.
  intros [Hlen Hphase Hsent Hfailed _ _ _] Hall.
  rewrite Hsent, Hfailed, <- Hlen, <- countStatus_total; [lia|].
  intros task Hin. apply list_elem_of_lookup in Hin as [i Hi].
  pose proof (Hphase i task Hi) as Hp.
  pose proof (all_settled _ _ _ Hall Hi) as Hs. unfold isSettled in Hs.
  destruct (phase task); try discriminate. exact Hp.
Qed.

(** The counters of a launch driven from its start to its end. *)
Lemma run_counts env db0 body st0 outcomes times :
  launchStart env db0 body = inr st0 ->
  let N := length (audience env db0 body) in
  let st := run outcomes times st0 in
  Campaign.sent (Campaign.stats (campaign st)) = Z.of_nat (acceptedCount outcomes N) /\
  Campaign.failed (Campaign.stats (campaign st)) = Z.of_nat (N - acceptedCount outcomes N).
Proof.
  intros Hstart N st.
  pose proof (launchStart_Inv _ _ _ _ Hstart) as Hinv0. fold N in Hinv0.
  destruct (launchStart_inr _ _ _ _ Hstart) as (_ & value & _ & _ & Hnone & _).
  destruct (run_spec outcomes times st0 Hnone) as (Hsteps & Hresp & _ & Hlen & Hrun).
  fold st in Hsteps, Hresp, Hlen.
  pose proof (steps_Inv _ _ _ _ Hinv0 Hsteps) as Hinv.
  pose proof Hinv as [Hlen' Hphase Hsent Hfailed _ _ Hresp'].
  destruct (Hresp' _ Hresp) as (Hall & _).
  pose proof (Inv_total _ _ _ Hinv Hall) as Htotal.
  assert (Campaign.sent (Campaign.stats (campaign st)) = Z.of_nat (acceptedCount outcomes N)) as Hs.
  { rewrite Hsent.
    rewrite (countStatus_seq CommunicationLog.SENT
               (fun j => if accepted (outcomes j) then CommunicationLog.SENT
                         else CommunicationLog.FAILED) (tasks st) 0).
    2: { intros j task Hj. apply (run_statuses env db0 body st0 outcomes times Hstart j task Hj). }
    rewrite Hlen'. unfold acceptedCount. do 2 f_equal.
    apply list_filter_iff. intros j. destruct (accepted (outcomes j)); split; congruence. }
  assert (acceptedCount outcomes N <= N)%nat as Hle.
  { unfold acceptedCount. etrans; [apply length_filter|]. rewrite length_seq. lia. }
  split; [exact Hs | lia].
Qed.

(** C3: in a launch over an audience of [N] customers there are [N]
    callbacks; in every state the shared [stats.sent] and [stats.failed]
    count the callbacks whose log is SENT and FAILED, so once all have
    returned [stats.sent + stats.failed = N], in memory and, when the
    handler has answered, in the stored campaign; the return of one vendor
    call adds one to [sent] when the send was accepted and one to [failed]
    otherwise (a throwing call included), touches no other callback and no
    other log, and leaves the launch able to reach its answer; and a launch
    driven to its end has [sent] equal to the number of accepted sends and
    [failed] to the number of the others. *)
Theorem sends_accounted (env : Env) (db0 : Db) (body : Request) (st0 : State) :
  launchStart env db0 body = inr st0 ->
  let N := length (audience env db0 body) in
  let sent st := Campaign.sent (Campaign.stats (campaign st)) in
  let failed st := Campaign.failed (Campaign.stats (campaign st)) in
  (forall st, steps st0 st ->
     length (tasks st) = N /\
     sent st = Z.of_nat (countStatus CommunicationLog.SENT (tasks st)) /\
     failed st = Z.of_nat (countStatus CommunicationLog.FAILED (tasks st)) /\
     (forallb isSettled (tasks st) = true -> sent st + failed st = Z.of_nat N) /\
     (forall r, response st = Some r ->
        exists c, campaigns (db st) !! newId env = Some c /\
                  Campaign.sent (Campaign.stats c) + Campaign.failed (Campaign.stats c)
                  = Z.of_nat N) /\
     (forall i task idx o t,
        tasks st !! i = Some task -> phase task = Sending idx ->
        let st' := settled i task idx o t st in
        step st st' /\
        sent st' = sent st + (if accepted o then 1 else 0) /\
        failed st' = failed st + (if accepted o then 0 else 1) /\
        (forall j, j <> i -> tasks st' !! j = tasks st !! j) /\
        (forall j, j <> idx -> logs (db st') !! j = logs (db st) !! j) /\
        response st' = response st /\
        exists st'', steps st' st'' /\ response st'' <> None)) /\
  (forall outcomes times,
     let st := run outcomes times st0 in
     steps st0 st /\ response st <> None /\
     sent st = Z.of_nat (acceptedCount outcomes N) /\
     failed st = Z.of_nat (N - acceptedCount outcomes N) /\
     sent st + failed st = Z.of_nat N).
Proof.
  intros Hstart N sent failed.
  pose proof (launchStart_Inv _ _ _ _ Hstart) as Hinv0. fold N in Hinv0.
  split.
  - intros st Hsteps.
    pose proof (steps_Inv _ _ _ _ Hinv0 Hsteps) as Hinv.
    pose proof Hinv as [Hlen Hphase Hsent Hfailed Hid Hrun Hresp].
    split; [exact Hlen|]. split; [exact Hsent|]. split; [exact Hfailed|].
    split; [apply (Inv_total _ _ _ Hinv)|]. split.
    + intros r Hr. destruct (Hresp r Hr) as (Hall & _ & _ & c & Hc & _ & Hs & Hf).
      exists c. split; [exact Hc|]. rewrite Hs, Hf. apply (Inv_total _ _ _ Hinv Hall).
    + intros i task idx o t Hi Hsending st'.
      split; [apply step_settled; assumption|].
      unfold sent, failed, st'.
      cbn [campaign settled Campaign.stats Campaign.setStats tasks db logs setLogs response].
      split; [apply count_sent|]. split; [apply count_failed|]. split.
      { intros j Hj. apply list_lookup_insert_ne. congruence. }
      split.
      { intros j Hj. apply list_lookup_alter_ne. congruence. }
      split; [reflexivity|]. apply can_complete.
  - intros outcomes times st.
    destruct (launchStart_inr _ _ _ _ Hstart) as (_ & value & _ & _ & Hnone & _).
    destruct (run_spec outcomes times st0 Hnone) as (Hsteps & Hresp & _).
    destruct (run_counts env db0 body st0 outcomes times Hstart) as (Hs & Hf).
    fold N in Hs, Hf. fold st in Hs, Hf, Hsteps, Hresp.
    assert (acceptedCount outcomes N <= N)%nat as Hle.
    { unfold acceptedCount. etrans; [apply length_filter|]. rewrite length_seq. lia. }
    split; [exact Hsteps|]. split; [congruence|].
    unfold sent, failed. split; [exact Hs|]. split; [exact Hf|]. lia.
Qed.

(** Witness of C3: the sample launch, one send accepted and one throwing. *)
Lemma sends_accounted_witness :
  launchStart Samples.env Samples.store Samples.body = inr Samples.started /\
  let st := run Samples.outcomes Samples.times Samples.started in
  Campaign.sent (Campaign.stats (campaign st))
  + Campaign.failed (Campaign.stats (campaign st)) = 2.
Proof.
  assert (launchStart Samples.env Samples.store Samples.body = inr Samples.started) as H
    by (vm_compute; reflexivity).
  split; [exact H|].
  exact (proj2 (proj2 (proj2 (proj2
           (proj2 (sends_accounted Samples.env Samples.store Samples.body Samples.started H)
              Samples.outcomes Samples.times))))).
Defined.

(** C8: when the handler of a launch has answered, every callback has
    returned and the answer is 201 with the campaign COMPLETED, which is
    also what is stored; in no state of the launch is the campaign FAILED,
    in memory or stored; once all callbacks have returned the handler
    completes the campaign whatever their outcomes; and a launch in which
    no send is accepted, driven to its end, is COMPLETED with
    [sent = 0] and [failed = N]. *)
Theorem campaign_completed (env : Env) (db0 : Db) (body : Request) (st0 : State) :
  launchStart env db0 body = inr st0 ->
  let N := length (audience env db0 body) in
  (forall st r, steps st0 st -> response st = Some r ->
     forallb isSettled (tasks st) = true /\
     r = Created "Campaign created and launched successfully" (campaign st) /\
     Campaign.status (campaign st) = Campaign.COMPLETED /\
     exists c, campaigns (db st) !! newId env = Some c /\
               Campaign.status c = Campaign.COMPLETED) /\
  (forall st, steps st0 st ->
     Campaign.status (campaign st) <> Campaign.FAILED /\
     exists c, campaigns (db st) !! newId env = Some c /\
               Campaign.status c <> Campaign.FAILED) /\
  (forall st, steps st0 st -> response st = None ->
     forallb isSettled (tasks st) = true ->
     step st (completed st) /\
     Campaign.status (campaign (completed st)) = Campaign.COMPLETED) /\
  (forall outcomes times,
     let st := run outcomes times st0 in
     steps st0 st /\
     response st = Some (Created "Campaign created and launched successfully" (campaign st)) /\
     Campaign.status (campaign st) = Campaign.COMPLETED /\
     ((forall i, accepted (outcomes i) = false) ->
      Campaign.sent (Campaign.stats (campaign st)) = 0 /\
      Campaign.failed (Campaign.stats (campaign st)) = Z.of_nat N)).
Proof.
  intros Hstart N.
  pose proof (launchStart_Inv _ _ _ _ Hstart) as Hinv0. fold N in Hinv0.
  split; [|split; [|split]].
  - intros st r Hsteps Hr.
    destruct (steps_Inv _ _ _ _ Hinv0 Hsteps) as [_ _ _ _ _ _ Hresp].
    destruct (Hresp r Hr) as (Hall & Hmem & -> & c & Hc & Hs & _).
    split; [exact Hall|]. split; [reflexivity|]. split; [exact Hmem|].
    exists c. split; assumption.
  - intros st Hsteps.
    destruct (steps_Inv _ _ _ _ Hinv0 Hsteps) as [_ _ _ _ _ Hrun Hresp].
    destruct (response st) as [r|] eqn:Hr.
    + destruct (Hresp r eq_refl) as (_ & Hmem & _ & c & Hc & Hs & _).
      split; [congruence|]. exists c. split; [exact Hc | congruence].
    + destruct (Hrun eq_refl) as (Hmem & c & Hc & Hs).
      split; [congruence|]. exists c. split; [exact Hc | congruence].
  - intros st _ Hnone Hall. split; [apply step_completed; assumption | reflexivity].
  - intros outcomes times st.
    destruct (launchStart_inr _ _ _ _ Hstart) as (_ & value & _ & _ & Hnone & _).
    destruct (run_spec outcomes times st0 Hnone) as (Hsteps & Hresp & Hstatus & _).
    split; [exact Hsteps|]. split; [exact Hresp|]. split; [exact Hstatus|].
    intros Hnoone.
    destruct (run_counts env db0 body st0 outcomes times Hstart) as (Hs & Hf).
    fold N in Hs, Hf. fold st in Hs, Hf.
    assert (acceptedCount outcomes N = 0%nat) as Hzero.
    { unfold acceptedCount. generalize (seq 0 N). intros l.
      induction l as [|j l IH]; [reflexivity|].
      rewrite filter_cons, decide_False; [exact IH|].
      rewrite Hnoone. discriminate. }
    rewrite Hzero in Hs, Hf. split; [exact Hs | rewrite Hf; f_equal; lia].
Qed.

(** *** A receipt handler driven to its answer *)

(** A handler driven through its awaits takes steps of the launch. *)
Lemma finish_steps n : forall st k h,
  handlers st !! k = Some h ->
  steps st (handled k (fst (Receipts.finish n (db st) h))
              (snd (Receipts.finish n (db st) h)) st).
Proof.
  assert (forall st k h, handlers st !! k = Some h -> handled k (db st) h st = st) as Hid.
  { intros [d c ts resp hs] k h Hk. unfold handled. cbn in *.
    rewrite list_insert_id by exact Hk. reflexivity. }
  induction n as [|n IH]; intros st k h Hk; cbn [Receipts.finish fst snd].
  - rewrite Hid by exact Hk. apply rtc_refl.
  - destruct (Receipts.next (db st) h) as [[db1 h1]|] eqn:Hnext.
    + eapply rtc_l; [apply (step_handled st k h db1 h1 Hk Hnext)|].
      assert (handlers (handled k db1 h1 st) !! k = Some h1) as Hk1
        by (cbn [handlers handled]; apply list_lookup_insert_eq; eapply lookup_lt_Some, Hk).
      specialize (IH (handled k db1 h1 st) k h1 Hk1).
      cbn [db handled] in IH. unfold handled in IH |- *. cbn [handlers db campaign tasks response] in IH.
      rewrite list_insert_insert_eq in IH. exact IH.
    + cbn [fst snd]. rewrite Hid by exact Hk. apply rtc_refl.
Qed.

(** Handling a receipt from its arrival to its answer is a sequence of
    steps. *)
Lemma receipt_steps r st : steps st (receipt r st).
Proof.
  eapply rtc_l; [apply (step_arrived st r)|].
  pose proof (finish_steps 3 (arrived r st) (length (handlers st))
                (Receipts.arrive (db st) r)) as H.
  cbn [handlers arrived db] in H.
  specialize (H ltac:(rewrite lookup_app_r, Nat.sub_diag by lia; reflexivity)).
  unfold receipt. destruct (Receipts.finish 3 (db st) _) as [db' h'].
  cbn [fst snd] in H. unfold handled, arrived in H |- *.
  cbn [handlers db campaign tasks response] in H.
  rewrite insert_app_r_alt, Nat.sub_diag in H by lia. exact H.
Qed.

Lemma receipt_db r st : db (receipt r st) = snd (Receipts.deliveryReceipt (db st) r).
Proof.
  unfold receipt, Receipts.deliveryReceipt.
  destruct (Receipts.finish 3 (db st) _). reflexivity.
Qed.

(** *** The logs a launch stores *)

Lemma append_inj (a a' b b' : string) :
  String.length a = String.length a' ->
  (a ++ b)%string = (a' ++ b')%string -> a = a' /\ b = b'.
Proof.
  revert a'. induction a as [|c a IH]; intros [|c' a'] Hlen H; try discriminate.
  - split; [reflexivity | exact H].
  - cbn in Hlen, H. injection H as -> H. injection Hlen as Hlen.
    destruct (IH a' Hlen H) as [-> ->]. split; reflexivity.
Qed.

(** Ids made for ObjectIds tell the campaign and the customer apart. *)
Lemma makeVendorMessageId_inj cid cid' uid uid' t t' :
  isObjectId cid -> isObjectId cid' ->
  makeVendorMessageId cid uid t = makeVendorMessageId cid' uid' t' ->
  cid = cid' /\ (isObjectId uid -> isObjectId uid' -> uid = uid').
Proof.
  unfold makeVendorMessageId, isObjectId. intros Hc Hc' H.
  simpl in H. injection H as H.
  destruct (append_inj _ _ _ _ (eq_trans Hc (eq_sym Hc')) H) as [-> H1].
  split; [reflexivity|]. intros Hu Hu'.
  simpl in H1. injection H1 as H1.
  destruct (append_inj _ _ _ _ (eq_trans Hu (eq_sym Hu')) H1) as [-> _]. reflexivity.
Qed.

Lemma filter_insert_new {A} (P : A -> Prop) `{forall x, Decision (P x)} (l : list A) i x y :
  l !! i = Some x -> ~ P x -> P y ->
  filter P (<[i := y]> l) ≡ₚ y :: filter P l.
Proof.
  revert i. induction l as [|z l IH]; intros [|i] Hi Hx Hy; try discriminate.
  - injection Hi as ->. cbn [insert list_insert].
    rewrite !filter_cons, decide_True, decide_False by assumption. reflexivity.
  - cbn in Hi. change (<[S i := y]> (z :: l)) with (z :: <[i := y]> l).
    rewrite !filter_cons. destruct (decide (P z)).
    + rewrite (IH i Hi Hx Hy). apply Permutation_swap.
    + apply (IH i Hi Hx Hy).
Qed.

Lemma filter_insert_same {A B} (P : A -> Prop) `{forall x, Decision (P x)} (g : A -> B)
    (l : list A) i x y :
  l !! i = Some x -> P x -> P y -> g y = g x ->
  g <$> filter P (<[i := y]> l) = g <$> filter P l.
Proof.
  revert i. induction l as [|z l IH]; intros [|i] Hi Hx Hy Hg; try discriminate.
  - injection Hi as ->. cbn [insert list_insert].
    rewrite !filter_cons, !decide_True by assumption. cbn. congruence.
  - cbn in Hi. change (<[S i := y]> (z :: l)) with (z :: <[i := y]> l).
    rewrite !filter_cons. destruct (decide (P z)); cbn; rewrite (IH i Hi Hx Hy Hg); reflexivity.
Qed.

Lemma fmap_insert_same {A B} (g : A -> B) (l : list A) i x y :
  l !! i = Some x -> g y = g x -> g <$> <[i := y]> l = g <$> l.
Proof.
  intros Hi Hg. rewrite list_fmap_insert, Hg. apply list_insert_id.
  rewrite list_lookup_fmap, Hi. reflexivity.
Qed.

Lemma fmap_alter_same {A B} (g : A -> B) (f : A -> A) (l : list A) i :
  (forall x, g (f x) = g x) -> g <$> alter f i l = g <$> l.
Proof.
  intros Hg. revert i. induction l as [|z l IH]; intros [|i]; cbn; try reflexivity.
  - rewrite Hg. reflexivity.
  - f_equal. apply IH.
Qed.

Lemma key_record o t l : key (record o t l) = key l.
Proof.
  unfold key. destruct (record_id o t l) as (-> & -> & ->). reflexivity.
Qed.


Lemma key_saveLog loaded assigned l : key (Receipts.saveLog loaded assigned l) = key l.
Proof.
  unfold Receipts.saveLog.
  destruct (decide _); destruct (CommunicationLog.deliveredAt assigned);
    try destruct (decide _); reflexivity.
Qed.

(** A step of a receipt handler keeps the customers, the segments and the
    ids of every stored log. *)
Lemma next_keys db h db' h' :
  Receipts.next db h = Some (db', h') ->
  customers db' = customers db /\ segments db' = segments db /\
  key <$> logs db' = key <$> logs db.
Proof.
  intros Hnext. unfold Receipts.next in Hnext.
  destruct (Receipts.phase h) as [idx commLog|commLog|cid campaign|r].
  - destruct (Receipts.castStatus _); injection Hnext as <- _; repeat split.
    cbn [logs setLogs]. apply fmap_alter_same. intros l. apply key_saveLog.
  - destruct (campaigns db !! _); [destruct (Receipts.isDelivered _)|];
      injection Hnext as <- _; repeat split.
  - injection Hnext as <- _. repeat split.
  - discriminate.
Qed.

Lemma finish_keys n db h :
  customers (fst (Receipts.finish n db h)) = customers db /\
  segments (fst (Receipts.finish n db h)) = segments db /\
  key <$> logs (fst (Receipts.finish n db h)) = key <$> logs db.
Proof.
  revert db h. induction n as [|n IH]; intros db h; cbn [Receipts.finish]; [auto|].
  destruct (Receipts.next db h) as [[db' h']|] eqn:Hnext; [|auto].
  destruct (next_keys _ _ _ _ Hnext) as (Hc & Hs & Hk).
  destruct (IH db' h') as (Hc' & Hs' & Hk'). repeat split; congruence.
Qed.

Lemma deliveryReceipt_finish db r :
  snd (Receipts.deliveryReceipt db r)
  = fst (Receipts.finish 3 db (Receipts.arrive db r)).
Proof.
  unfold Receipts.deliveryReceipt. destruct (Receipts.finish 3 db _). reflexivity.
Qed.

(** A receipt handled on its own keeps the ids of every stored log. *)
Lemma deliveryReceipt_keys db r :
  key <$> logs (snd (Receipts.deliveryReceipt db r)) = key <$> logs db.
Proof. rewrite deliveryReceipt_finish. apply finish_keys. Qed.

Lemma step_Stored cid N db0 st0 st st' :
  Inv cid N st -> Stored db0 st0 st -> step st st' -> Stored db0 st0 st'.
Proof.
  intros Hinv [Hlogs Hident] Hstep.
  destruct Hstep as [st i task Hi Hsaving | st i task idx o t Hi Hsending | st Hnone Hall
                    | st r | st k h db' h' Hk Hnext].
  - split.
    + cbn [db saved logs setLogs tasks]. rewrite fmap_app, Hlogs.
      rewrite (filter_insert_new _ (tasks st) i task)
        by (first [exact Hi | unfold started; rewrite Hsaving; discriminate | reflexivity]).
      cbn [fmap list_fmap]. fold (fmap (M := list) key).
      rewrite <- app_assoc. apply Permutation_app_head.
      cbn [commLog setPhase app]. symmetry. apply Permutation_cons_append.
    + cbn [tasks saved]. rewrite <- Hident.
      apply (fmap_insert_same identity _ i task); [exact Hi | reflexivity].
  - split.
    + cbn [db settled logs setLogs tasks].
      rewrite (fmap_alter_same key) by (intros l; apply key_record).
      rewrite Hlogs. apply Permutation_app_head.
      rewrite <- !list_fmap_compose.
      rewrite (filter_insert_same _ (key ∘ commLog) (tasks st) i task);
        first [reflexivity | exact Hi | unfold started; rewrite Hsending; reflexivity
              | cbn; apply key_record].
    + cbn [tasks settled]. rewrite <- Hident.
      apply (fmap_insert_same identity _ i task); [exact Hi|].
      unfold identity. cbn [customer commLog]. rewrite key_record. reflexivity.
  - split; assumption.
  - split; assumption.
  - split; [|exact Hident]. cbn [db handled tasks].
    destruct (next_keys _ _ _ _ Hnext) as (_ & _ & ->). exact Hlogs.
Qed.

Lemma steps_Stored cid N db0 st0 st st' :
  Inv cid N st -> Stored db0 st0 st -> steps st st' -> Stored db0 st0 st'.
Proof.
  intros Hinv Hstored Hsteps. induction Hsteps as [|st st1 st2 Hstep _ IH]; [assumption|].
  apply IH; [eapply step_Inv | eapply step_Stored]; eassumption.
Qed.

Lemma filter_none {A} (P : A -> Prop) `{forall x, Decision (P x)} (l : list A) :
  (forall x, x ∈ l -> ~ P x) -> filter P l = [].
Proof.
  induction l as [|x l IH]; intros Hl; [reflexivity|].
  rewrite filter_cons, decide_False by (apply Hl; left).
  apply IH. intros y Hy. apply Hl. right. exact Hy.
Qed.

Lemma filter_all {A} (P : A -> Prop) `{forall x, Decision (P x)} (l : list A) :
  (forall x, x ∈ l -> P x) -> filter P l = l.
Proof.
  induction l as [|x l IH]; intros Hl; [reflexivity|].
  rewrite filter_cons, decide_True by (apply Hl; left).
  f_equal. apply IH. intros y Hy. apply Hl. right. exact Hy.
Qed.

Lemma launchStart_Stored env db0 body st0 :
  launchStart env db0 body = inr st0 -> Stored db0 st0 st0.
Proof.
  intros Hstart.
  destruct (launchStart_inr _ _ _ _ Hstart) as (_ & value & _ & Htasks & _ & _ & _ & _ & _ & Hdb).
  split; [|reflexivity].
  rewrite filter_none.
  - rewrite Hdb. cbn [logs setCampaigns fmap list_fmap]. rewrite app_nil_r. reflexivity.
  - intros task Hin. apply list_elem_of_lookup in Hin as [i Hi]. rewrite Htasks in Hi.
    apply newTask_lookup in Hi as (c & _ & ->). discriminate.
Qed.

(** The customers found are stored customers, each found once. *)
Lemma find_sublist rt strict cs q found :
  Mongo.find rt strict cs q = Some found -> found `sublist_of` cs.
Proof.
  unfold Mongo.find. destruct (Mongo.cast rt strict q) as [q'|]; [|discriminate].
  cbn. intros H. injection H as <-.
  induction cs as [|c cs IH]; cbn [List.filter]; [constructor|].
  destruct (Mongo.matchesQuery c q'); [apply sublist_skip | apply sublist_cons]; exact IH.
Qed.

Lemma audience_sublist env db0 body : audience env db0 body `sublist_of` customers db0.
Proof.
  unfold audience. destruct (campaignSchema body); [|apply sublist_nil_l].
  destruct (findSegment env db0 _) as [[[id segment]|]|]; try apply sublist_nil_l.
  destruct (Mongo.find _ _ _ _) as [found|] eqn:Hfound; [|apply sublist_nil_l].
  exact (find_sublist _ _ _ _ _ Hfound).
Qed.

Lemma launchStart_keys env db0 body st0 :
  launchStart env db0 body = inr st0 ->
  key <$> (commLog <$> tasks st0) = issued env (audience env db0 body).
Proof.
  intros Hstart.
  destruct (launchStart_inr _ _ _ _ Hstart) as (_ & value & _ & Htasks & _).
  rewrite Htasks. unfold issued. generalize (now env). generalize (audience env db0 body).
  intros found. induction found as [|c found IH]; intros nows; [reflexivity|].
  cbn [imap fmap list_fmap]. f_equal. apply (IH (nows ∘ S)).
Qed.

Lemma issued_lookup env found i k :
  issued env found !! i = Some k ->
  exists c, found !! i = Some c /\
    k = (newId env, Mongo._id c, makeVendorMessageId (newId env) (Mongo._id c) (now env i)).
Proof.
  unfold issued. rewrite list_lookup_imap. destruct (found !! i) as [c|]; [|discriminate].
  cbn. intros H. injection H as <-. exists c. split; reflexivity.
Qed.

(** The ids issued by a launch are distinct from each other and from the
    stored ones. *)
Lemma issued_NoDup env db0 body :
  wellFormed env db0 ->
  NoDup ((CommunicationLog.vendorMessageId <$> logs db0)
         ++ (snd <$> issued env (audience env db0 body))).
Proof.
  intros [Hnew Hcust Hids Hlogs Hissued].
  pose proof (audience_sublist env db0 body) as Hsub.
  assert (forall c, c ∈ audience env db0 body -> isObjectId (Mongo._id c)) as Hfound
    by (intros c Hc; apply Hids; eapply elem_of_sublist; eassumption).
  assert (NoDup (Mongo._id <$> audience env db0 body)) as Hdistinct.
  { eapply sublist_NoDup; [exact Hcust|]. apply fmap_sublist. exact Hsub. }
  apply NoDup_app. split; [exact Hlogs|]. split.
  - intros x Hold Hnew'.
    apply list_elem_of_fmap in Hold as (l & -> & Hl).
    destruct (Hissued l Hl) as (cid & uid & t & Hcid & Hne & Hmade).
    apply list_elem_of_fmap in Hnew' as (k & Hk & Hin).
    apply list_elem_of_lookup in Hin as [i Hi].
    apply issued_lookup in Hi as (c & _ & ->). cbn [snd] in Hk.
    rewrite Hmade in Hk.
    destruct (makeVendorMessageId_inj _ _ _ _ _ _ Hcid Hnew Hk) as [Heq _]. contradiction.
  - apply NoDup_alt. intros i j x Hi Hj.
    rewrite list_lookup_fmap in Hi, Hj.
    destruct (issued env (audience env db0 body) !! i) as [ki|] eqn:Hki; [|discriminate].
    destruct (issued env (audience env db0 body) !! j) as [kj|] eqn:Hkj; [|discriminate].
    apply issued_lookup in Hki as (ci & Hci & ->). apply issued_lookup in Hkj as (cj & Hcj & ->).
    cbn [fmap option_fmap option_map snd] in Hi, Hj.
    rewrite <- Hi in Hj. apply (inj Some) in Hj.
    destruct (makeVendorMessageId_inj _ _ _ _ _ _ Hnew Hnew Hj) as [_ Hsame].
    assert (Mongo._id cj = Mongo._id ci) as Hid.
    { apply Hsame; apply Hfound; eapply list_elem_of_lookup_2; eassumption. }
    apply (proj1 (NoDup_alt _) Hdistinct i j (Mongo._id ci));
      rewrite list_lookup_fmap; [rewrite Hci | rewrite Hcj];
      cbn [fmap option_fmap option_map]; congruence.
Qed.

(** C7: a launch that starts has an audience of [N >= 1] customers; in
    every state of it, a callback whose first save completes stores one new
    log, PENDING, for its own customer (the [i]-th found) with the id made
    for that customer; no two stored logs carry the same
    [vendorMessageId]; and once all callbacks have returned the store
    holds, besides the logs it held before, exactly [N] logs, one for each
    customer found: the launch has created [N] logs. *)
Theorem logs_created (env : Env) (db0 : Db) (body : Request) (st0 : State) :
  launchStart env db0 body = inr st0 ->
  wellFormed env db0 ->
  let found := audience env db0 body in
  let N := length found in
  (1 <= N)%nat /\
  forall st, steps st0 st ->
    (forall i task, tasks st !! i = Some task -> phase task = Saving ->
       step st (saved i task st) /\
       logs (db (saved i task st)) = (logs (db st) ++ [commLog task])%list /\
       CommunicationLog.status (commLog task) = Value CommunicationLog.PENDING /\
       exists c, found !! i = Some c /\ customer task = c /\
         key (commLog task)
         = (newId env, Mongo._id c,
            makeVendorMessageId (newId env) (Mongo._id c) (now env i))) /\
    (forall i j l l', logs (db st) !! i = Some l -> logs (db st) !! j = Some l' ->
       CommunicationLog.vendorMessageId l = CommunicationLog.vendorMessageId l' -> i = j) /\
    (forallb isSettled (tasks st) = true ->
       length (logs (db st)) = (length (logs db0) + N)%nat /\
       key <$> logs (db st) ≡ₚ (key <$> logs db0) ++ issued env found).
Proof.
  intros Hstart Hwf found N.
  pose proof (launchStart_Inv _ _ _ _ Hstart) as Hinv0.
  pose proof (launchStart_Stored _ _ _ _ Hstart) as Hstored0.
  pose proof (launchStart_keys _ _ _ _ Hstart) as Hkeys0. fold found in Hkeys0.
  destruct (launchStart_inr _ _ _ _ Hstart) as (Hne & value & _ & Htasks0 & _).
  fold found in Hne, Htasks0.
  split.
  { unfold N. destruct found; [contradiction | cbn; lia]. }
  intros st Hsteps.
  pose proof (steps_Inv _ _ _ _ Hinv0 Hsteps) as Hinv.
  destruct (steps_Stored _ _ _ _ _ _ Hinv0 Hstored0 Hsteps) as [Hlogs Hident].
  assert (key <$> (commLog <$> tasks st) = issued env found) as Hkeys.
  { rewrite <- Hkeys0, <- !list_fmap_compose.
    change (key ∘ commLog) with (snd ∘ identity).
    rewrite !(list_fmap_compose identity snd), Hident. reflexivity. }
  split; [|split].
  - intros i task Hi Hsaving.
    split; [apply step_saved; assumption|]. split; [reflexivity|]. split.
    { pose proof (inv_phase _ _ _ Hinv i task Hi) as Hp. rewrite Hsaving in Hp. exact Hp. }
    assert (identity <$> tasks st !! i = identity <$> tasks st0 !! i) as Hi0
      by (rewrite <- !list_lookup_fmap, Hident; reflexivity).
    rewrite Hi, Htasks0, list_lookup_imap in Hi0.
    destruct (found !! i) as [c|]; [|discriminate].
    cbn [fmap option_fmap option_map] in Hi0. apply (inj Some) in Hi0.
    unfold identity in Hi0. cbn [customer commLog newTask] in Hi0.
    injection Hi0 as Hc H1 H2 H3. exists c. split; [reflexivity|]. split; [exact Hc|].
    unfold key. rewrite H1, H2, H3. reflexivity.
  - intros i j l l' Hi Hj Hsame.
    assert (NoDup (CommunicationLog.vendorMessageId <$> logs (db st))) as Hnodup.
    { change CommunicationLog.vendorMessageId with (snd ∘ key).
      rewrite list_fmap_compose, Hlogs, fmap_app, <- list_fmap_compose.
      eapply sublist_NoDup; [apply (issued_NoDup env db0 body Hwf)|].
      apply sublist_app; [reflexivity|]. fold found. rewrite <- Hkeys.
      apply fmap_sublist, fmap_sublist, fmap_sublist, sublist_filter. }
    apply (proj1 (NoDup_alt _) Hnodup i j (CommunicationLog.vendorMessageId l));
      rewrite list_lookup_fmap; [rewrite Hi | rewrite Hj];
      cbn [fmap option_fmap option_map]; congruence.
  - intros Hall.
    assert (key <$> logs (db st) ≡ₚ (key <$> logs db0) ++ issued env found) as Hperm.
    { rewrite Hlogs, filter_all, Hkeys; [reflexivity|].
      intros task Hin. apply list_elem_of_lookup in Hin as [i Hi].
      pose proof (all_settled _ _ _ Hall Hi) as Hs. unfold isSettled in Hs.
      unfold started. destruct (phase task); [discriminate | reflexivity | reflexivity]. }
    split; [|exact Hperm].
    apply Permutation_length in Hperm.
    rewrite length_app, !length_fmap in Hperm. rewrite Hperm.
    unfold issued. rewrite length_imap. reflexivity.
Qed.

(** Witness of C8: the sample launch, in which one send throws. *)
Lemma campaign_completed_witness :
  launchStart Samples.env Samples.store Samples.body = inr Samples.started /\
  Campaign.status (campaign (run Samples.outcomes Samples.times Samples.started))
  = Campaign.COMPLETED.
Proof.
  assert (launchStart Samples.env Samples.store Samples.body = inr Samples.started) as H
    by (vm_compute; reflexivity).
  split; [exact H|].
  exact (proj1 (proj2 (proj2
           (proj2 (proj2 (proj2
              (campaign_completed Samples.env Samples.store Samples.body Samples.started H)))
              Samples.outcomes Samples.times)))).
Defined.

Lemma sample_wellFormed : wellFormed Samples.env2 Samples.launched.
Proof.
  split.
  - reflexivity.
  - vm_compute. repeat (apply NoDup_cons; split; [rewrite ?elem_of_cons, elem_of_nil; intuition discriminate|]).
    apply NoDup_nil_2.
  - intros c Hc. vm_compute in Hc.
    repeat (apply elem_of_cons in Hc as [->|Hc]; [reflexivity|]). inversion Hc.
  - vm_compute. repeat (apply NoDup_cons; split; [rewrite ?elem_of_cons, elem_of_nil; intuition discriminate|]).
    apply NoDup_nil_2.
  - intros l Hl. vm_compute in Hl.
    apply elem_of_cons in Hl as [->|Hl].
    { exists "64b0c0ffee0123456789ab20", "64b0c0ffee0123456789ab01", Samples.today.
      split; [reflexivity|]. split; [discriminate | reflexivity]. }
    apply elem_of_cons in Hl as [->|Hl]; [|inversion Hl].
    exists "64b0c0ffee0123456789ab20", "64b0c0ffee0123456789ab03", (Samples.today + 1).
    split; [reflexivity|]. split; [discriminate | reflexivity].
Qed.

(** Witness of C7: a second launch on the store the sample launch left;
    driven to its end it has stored two more logs. *)
Lemma logs_created_witness :
  launchStart Samples.env2 Samples.launched Samples.body = inr Samples.started2 /\
  wellFormed Samples.env2 Samples.launched /\
  length (logs (db (run Samples.outcomes Samples.times Samples.started2)))
  = (length (logs Samples.launched)
     + length (audience Samples.env2 Samples.launched Samples.body))%nat.
Proof.
  assert (launchStart Samples.env2 Samples.launched Samples.body = inr Samples.started2) as H
    by (vm_compute; reflexivity).
  split; [exact H|]. split; [exact sample_wellFormed|].
  refine (proj1 (proj2 (proj2 (proj2
            (logs_created Samples.env2 Samples.launched Samples.body Samples.started2
               H sample_wellFormed) _ _)) _)).
  - apply run_spec. vm_compute. reflexivity.
  - vm_compute. reflexivity.
Defined.

End DispatchFacts.

(** ** The lifecycle of a log *)

Module LifecycleFacts.
Import Js Dispatch Invariants.




(** What a receipt does to the stored logs. *)
Lemma deliveryReceipt_cases db r :
  logs (snd (Receipts.deliveryReceipt db r)) = logs db \/
  exists i l s,
    Receipts.findOne (logs db) (Receipts.vendorMessageId r) = Some (i, l) /\
    Receipts.castStatus (Receipts.status r) = Some s /\
    logs (snd (Receipts.deliveryReceipt db r))
    = <[i := Receipts.ingested s (Receipts.deliveredAt r) l]> (logs db).
Proof.
  destruct (Receipts.findOne (logs db) (Receipts.vendorMessageId r)) as [[i l]|] eqn:Hfind.
  - destruct (Receipts.castStatus (Receipts.status r)) as [s|] eqn:Hs.
    + right. exists i, l, s. split; [reflexivity|]. split; [reflexivity|].
      apply (ReceiptFacts.deliveryReceipt_logs db r i l s Hfind Hs).
    + left. rewrite (ReceiptFacts.deliveryReceipt_rejected db r i l Hfind Hs). reflexivity.
  - left. rewrite ReceiptFacts.deliveryReceipt_alone, Hfind. reflexivity.
Qed.





End LifecycleFacts.

(** ** Scenarios of the specification *)

Module Scenarios.
Import Js Mongo Rules.

(** Any rule set on an empty population has audience size 0. *)
Lemma empty_population rt strict rules n :
  countDocuments rt strict [] (buildSegmentQuery rt rules) = Some n -> n = 0%nat.
Proof.
  unfold countDocuments, find. destruct (cast _ _ _); [|discriminate].
  cbn. congruence.
Qed.

(** [totalSpent > 10000] on customers who spent 15000 and 5000: one match. *)
Example audience_of_one rt strict :
  countDocuments rt strict
    [Samples.shopper "64b0c0ffee0123456789ab01" (15000 # 1) None;
     Samples.shopper "64b0c0ffee0123456789ab02" (5000 # 1) None]
    (buildSegmentQuery rt (Segment.rules Samples.bigSpenders)) = Some 1%nat.
Proof. reflexivity. Qed.

(** The template "Hi {name}, enjoy 20% off!" for Asha. *)
Example personalized :
  Dispatch.personalize "Hi {name}, enjoy 20% off!" "Asha" = "Hi Asha, enjoy 20% off!".
Proof. reflexivity. Qed.

(** The vendor posts a receipt exactly after an accepted send, DELIVERED
    and for the id it was given. *)
Lemma vendor_receipt random at_ id :
  match VendorAPI.sendMessage random at_ id with
  | (result, Some r) =>
      VendorAPI.success result = true /\ Receipts.vendorMessageId r = id /\
      Receipts.status r = Value "DELIVERED"
  | (result, None) => VendorAPI.success result = false
  end.
Proof.
  unfold VendorAPI.sendMessage. destruct (Qlt_le_dec (1 # 10) random); cbn; auto.
Qed.

(** The sample launch answers 201; its first log is SENT, its second FAILED. *)
Example sample_launch :
  match Dispatch.launch Samples.env Samples.store Samples.body Samples.outcomes Samples.times with
  | (Created _ c, db) =>
      Campaign.status c = Campaign.COMPLETED /\
      Campaign.audienceSize c = 2 /\
      (CommunicationLog.status <$> logs db)
      = [Value CommunicationLog.SENT; Value CommunicationLog.FAILED] /\
      (CommunicationLog.vendorMessageId <$> logs db) = [Samples.firstId; Samples.secondId]
  | _ => False
  end.
Proof. vm_compute. repeat split. Qed.

End Scenarios.

(** ** More on the rule compiler *)

Module CompilerCoverage.
Import Js Mongo Rules Coverage.

Lemma standard_branch rt i r :
  field r <> "daysSinceLastVisit" -> field r <> "customerTier" ->
  ruleCondition rt i r =
    if String.eqb (operator r) ">" then
      setKey (field r) (FOps [("$gt", OJson (value r))])
    else if String.eqb (operator r) "<" then
      setKey (field r) (FOps [("$lt", OJson (value r))])
    else if String.eqb (operator r) ">=" then
      setKey (field r) (FOps [("$gte", OJson (value r))])
    else if String.eqb (operator r) "<=" then
      setKey (field r) (FOps [("$lte", OJson (value r))])
    else if String.eqb (operator r) "=" then
      setKey (field r) (FValue (OJson (value r)))
    else if String.eqb (operator r) "!=" then
      setKey (field r) (FOps [("$ne", OJson (value r))])
    else if String.eqb (operator r) "in" then
      setKey (field r) (FOps [("$in", OJson (asArray (value r)))])
    else if String.eqb (operator r) "not_in" then
      setKey (field r) (FOps [("$nin", OJson (asArray (value r)))])
    else [].
Proof.
  intros Hd Ht. unfold ruleCondition.
  apply String.eqb_neq in Hd, Ht. rewrite Hd, Ht. reflexivity.
Qed.

Lemma setKey_standard f fc : f <> "__proto__" -> setKey f fc = [(f, fc)].
Proof.
  intros H. unfold setKey. apply String.eqb_neq in H. rewrite H. reflexivity.
Qed.

Lemma gt_num (a b : Q) :
  matchOp "$gt" (DNum a) (OJson (JNum b)) = true <-> (b < a)%Q.
Proof.
  cbn -[Qcompare]. rewrite (Qlt_alt b a), <- (Qcompare_antisym a b).
  destruct (a ?= b)%Q; cbn; intuition congruence.
Qed.

Lemma lt_num (a b : Q) :
  matchOp "$lt" (DNum a) (OJson (JNum b)) = true <-> (a < b)%Q.
Proof.
  cbn -[Qcompare]. rewrite (Qlt_alt a b).
  destruct (a ?= b)%Q; cbn; intuition congruence.
Qed.

(** X1: a rule comparing [totalSpent] or [visitCount] with a number holds
    of a customer exactly when the stored number stands in that relation
    to the rule's value: [>] strictly above, [<] strictly below, [>=] and
    [<=] with equality allowed. *)
Theorem numeric_rules (rt : Runtime) (c : Customer) (v : Q) (lo : option string) :
  let holds f op := matchesQuery c (buildSegmentQuery rt [fieldRule f op (JNum v) lo]) = true in
  ((holds "totalSpent" ">" <-> v < totalSpent c) /\
   (holds "totalSpent" "<" <-> totalSpent c < v) /\
   (holds "totalSpent" ">=" <-> v <= totalSpent c) /\
   (holds "totalSpent" "<=" <-> totalSpent c <= v))%Q /\
  ((holds "visitCount" ">" <-> v < visitCount c) /\
   (holds "visitCount" "<" <-> visitCount c < v) /\
   (holds "visitCount" ">=" <-> v <= visitCount c) /\
   (holds "visitCount" "<=" <-> visitCount c <= v))%Q.
Proof.
  intros holds. unfold holds, buildSegmentQuery. cbn [imap].
  unfold ruleCondition, setKey, fieldRule.
  cbn [field operator value String.eqb Ascii.eqb Bool.eqb matchesQuery].
  unfold matchesCondition, matchField. cbn [forallb].
  change (getField c "totalSpent") with (DNum (totalSpent c)).
  change (getField c "visitCount") with (DNum (visitCount c)).
  rewrite !andb_true_r, !gt_num, !lt_num, !CompilerFacts.gte_num, !CompilerFacts.lte_num.
  repeat split; intros H; exact H.
Qed.

(** The condition of a rule on a standard field has the field as its one
    key. *)
Lemma standard_key rt i f op v lo c fc :
  isStandard f -> ruleCondition rt i (fieldRule f op v lo) = [(f, fc)] ->
  matchesCondition c (ruleCondition rt i (fieldRule f op v lo)) = matchField (getField c f) fc.
Proof.
  intros _ ->. unfold matchesCondition. cbn [forallb]. apply andb_true_r.
Qed.

Lemma standard_condition rt i f op v lo :
  isStandard f ->
  ruleCondition rt i (fieldRule f op v lo) =
    if String.eqb op ">" then [(f, FOps [("$gt", OJson v)])]
    else if String.eqb op "<" then [(f, FOps [("$lt", OJson v)])]
    else if String.eqb op ">=" then [(f, FOps [("$gte", OJson v)])]
    else if String.eqb op "<=" then [(f, FOps [("$lte", OJson v)])]
    else if String.eqb op "=" then [(f, FValue (OJson v))]
    else if String.eqb op "!=" then [(f, FOps [("$ne", OJson v)])]
    else if String.eqb op "in" then [(f, FOps [("$in", OJson (asArray v))])]
    else if String.eqb op "not_in" then [(f, FOps [("$nin", OJson (asArray v))])]
    else [].
Proof.
  intros (Hd & Ht & Hp).
  rewrite standard_branch by assumption. cbn [field operator value fieldRule].
  rewrite !setKey_standard by assumption. reflexivity.
Qed.

(** What [find] returns is what [selects] says of each customer. *)
Lemma find_selects rt strict cs rules :
  find rt strict cs (buildSegmentQuery rt rules)
  = match cast rt strict (buildSegmentQuery rt rules) with
    | Some q => Some (List.filter (fun c => matchesQuery c q) cs)
    | None => None
    end.
Proof. unfold find. destruct (cast _ _ _); reflexivity. Qed.

(** The query of one rule on a stored field, cast. *)
Lemma selects_stored rt strict f op v lo c ty fc :
  schemaType f = Some ty ->
  ruleCondition rt 0 (fieldRule f op v lo) = [(f, fc)] ->
  selects rt strict [fieldRule f op v lo] c
  = (fun fc' => matchField (getField c f) fc') <$> castField rt ty fc.
Proof.
  intros Hty Hcond. unfold selects, buildSegmentQuery. cbn [imap]. rewrite Hcond.
  cbn [cast castCondition]. rewrite Hty.
  destruct (castField rt ty fc) as [fc'|]; [|reflexivity].
  cbn. rewrite andb_true_r. reflexivity.
Qed.

Lemma castField_op rt ty op o :
  castField rt ty (FOps [(op, o)]) = (fun p => FOps [p]) <$> castOp rt ty op o.
Proof. cbn. destruct (castOp rt ty op o); reflexivity. Qed.

Lemma matchField_op d op o : matchField d (FOps [(op, o)]) = matchOp op d o.
Proof. cbn. apply andb_true_r. Qed.

Lemma castOp_in rt ty o :
  castOp rt ty "$in" o = pair "$in" <$> castArray rt ty o /\
  castOp rt ty "$nin" o = pair "$nin" <$> castArray rt ty o /\
  castOp rt ty "$ne" o = pair "$ne" <$> castValue rt ty o.
Proof. repeat split. Qed.

Lemma storedFields_standard f :
  In f storedFields -> isStandard f /\ exists ty, schemaType f = Some ty /\ ty <> PDate.
Proof.
  intros [<-|[<-|[<-|[]]]]; (split; [repeat split; discriminate|]);
    eexists; (split; [reflexivity | discriminate]).
Qed.

(** X2: on a stored field ([totalSpent], [visitCount], [location.city]),
    as Mongoose casts the query: [not_in] selects exactly the customers
    that [in] does not; for a value that is not an array, [!=] selects
    exactly the customers that [=] does not, and [in] the same as [=]
    (the value is wrapped in a one-element array); for an array, [=]
    selects what [in] does (the cast turns it into [$in]) and [!=] makes
    the query throw.  Each pair throws together when the value cannot be
    cast to the type of the field. *)
Theorem equality_rules (rt : Runtime) (strict : bool) (c : Customer) (f : string)
    (v : Json) (lo : option string) :
  In f storedFields ->
  let holds op := selects rt strict [fieldRule f op v lo] c in
  holds "not_in" = negb <$> holds "in" /\
  ((forall l, v <> JArr l) ->
   holds "!=" = negb <$> holds "=" /\ holds "in" = holds "=") /\
  (forall l, v = JArr l -> holds "=" = holds "in" /\ holds "!=" = None).
Proof.
  intros Hf holds.
  destruct (storedFields_standard f Hf) as (Hstd & ty & Hty & Hdate).
  assert (forall op fc,
            ruleCondition rt 0 (fieldRule f op v lo) = [(f, fc)] ->
            holds op = (fun fc' => matchField (getField c f) fc') <$> castField rt ty fc)
    as Hholds by (intros op fc; apply selects_stored; exact Hty).
  rewrite (Hholds "not_in" (FOps [("$nin", OJson (asArray v))])),
          (Hholds "in" (FOps [("$in", OJson (asArray v))])),
          (Hholds "!=" (FOps [("$ne", OJson v)])),
          (Hholds "=" (FValue (OJson v)))
    by (rewrite (standard_condition rt 0 f _ v lo Hstd); reflexivity).
  assert (forall o, castValue rt ty (OJson (JArr o)) = None) as Harr
    by (intros o; destruct ty; [reflexivity | reflexivity | contradiction]).
  rewrite !castField_op.
  destruct (castOp_in rt ty (OJson (asArray v))) as (-> & -> & _).
  destruct (castOp_in rt ty (OJson v)) as (_ & _ & ->).
  split; [|split].
  - destruct (castArray rt ty (OJson (asArray v))) as [o|]; [|reflexivity].
    cbn [fmap option_fmap option_map]. rewrite !matchField_op. reflexivity.
  - intros Hscalar.
    assert (castArray rt ty (OJson (asArray v))
            = (fun o => OList [o]) <$> castValue rt ty (OJson v)) as ->.
    { destruct v as [q|x|l]; [| |destruct (Hscalar l eq_refl)]; cbn [asArray castArray mapM];
        destruct (castValue rt ty _); reflexivity. }
    assert (castField rt ty (FValue (OJson v)) = FValue <$> castValue rt ty (OJson v)) as ->
      by (destruct v as [q|x|l]; [| |destruct (Hscalar l eq_refl)]; reflexivity).
    destruct (castValue rt ty (OJson v)) as [o|]; [|split; reflexivity].
    cbn [fmap option_fmap option_map]. rewrite !matchField_op.
    unfold matchOp. cbn [String.eqb Ascii.eqb Bool.eqb isIn existsb matchField].
    rewrite orb_false_r. split; reflexivity.
  - intros l ->. cbn [asArray]. rewrite Harr. split; [|reflexivity].
    cbn [castField]. destruct (castArray rt ty (OJson (JArr l))) as [o|]; reflexivity.
Qed.

(** Witness of X2: the city of a customer. *)
Lemma equality_rules_witness :
  selects (Samples.utc Samples.today) false
    [fieldRule "location.city" "!=" (JStr "Pune") None] Samples.asha = Some false /\
  selects (Samples.utc Samples.today) false
    [fieldRule "location.city" "=" (JStr "Pune") None] Samples.asha = Some true.
Proof.
  pose proof (equality_rules (Samples.utc Samples.today) false Samples.asha "location.city"
                (JStr "Pune") None) as H.
  cbn zeta in H. destruct H as (_ & H & _).
  - right. right. left. reflexivity.
  - destruct (H ltac:(discriminate)) as [Hne _].
    split; [rewrite Hne|]; vm_compute; reflexivity.
Defined.

(** *** Queries that the cast leaves alone *)

Lemma castValue_typed rt ty o : typedValue ty o = true -> castValue rt ty o = Some o.
Proof.
  destruct o as [[q|x|l]|[t|]| | |]; destruct ty; try discriminate; reflexivity.
Qed.

Lemma mapM_typed rt ty l :
  forallb (fun v => typedValue ty (OJson v)) l = true ->
  mapM (fun v => castValue rt ty (OJson v)) l = Some (map OJson l).
Proof.
  induction l as [|v l IH]; [reflexivity|]. cbn [forallb]. intros H.
  apply andb_true_iff in H as [Hv Hl]. cbn [mapM map].
  rewrite (castValue_typed rt ty _ Hv), (IH Hl). reflexivity.
Qed.

Lemma isIn_list d l : isIn d (OList (map OJson l)) = isIn d (OJson (JArr l)).
Proof. cbn. induction l as [|v l IH]; cbn; [reflexivity|]. rewrite IH. reflexivity. Qed.

Lemma castOp_typed rt ty op o :
  typedOp ty (op, o) = true ->
  exists o', castOp rt ty op o = Some (op, o') /\ forall d, matchOp op d o' = matchOp op d o.
Proof.
  unfold typedOp, castOp.
  destruct (existsb (String.eqb op) ["$gt"; "$gte"; "$lt"; "$lte"; "$ne"; "$eq"]).
  - intros H. exists o. rewrite (castValue_typed rt ty o H). split; reflexivity.
  - destruct (existsb (String.eqb op) ["$in"; "$nin"]) eqn:Hop; [|discriminate].
    destruct o as [[q|x|l]|t| | |l]; try discriminate. intros H.
    exists (OList (map OJson l)). cbn [castArray]. rewrite (mapM_typed rt ty l H).
    split; [reflexivity|]. intros d.
    cbn [existsb orb] in Hop. rewrite orb_false_r in Hop.
    apply orb_true_iff in Hop as [Hop|Hop]; apply String.eqb_eq in Hop; subst op;
      unfold matchOp; cbn [String.eqb Ascii.eqb Bool.eqb]; rewrite isIn_list; reflexivity.
Qed.

Lemma castOps_typed rt ty ops :
  forallb (typedOp ty) ops = true ->
  exists ops', mapM (fun '(op, o) => castOp rt ty op o) ops = Some ops' /\
               forall d, forallb (fun '(op, o) => matchOp op d o) ops'
                         = forallb (fun '(op, o) => matchOp op d o) ops.
Proof.
  induction ops as [|[op o] ops IH]; cbn [forallb]; intros H.
  - exists []. split; reflexivity.
  - apply andb_true_iff in H as [Ho Hops].
    destruct (castOp_typed rt ty op o Ho) as (o' & Hcast & Hmatch).
    destruct (IH Hops) as (ops' & Hcasts & Hmatches).
    exists ((op, o') :: ops'). cbn [mapM]. rewrite Hcast, Hcasts.
    split; [reflexivity|]. intros d. cbn [forallb]. rewrite Hmatch, Hmatches. reflexivity.
Qed.

Lemma castField_typed rt ty fc :
  typedField ty fc = true ->
  exists fc', castField rt ty fc = Some fc' /\ forall d, matchField d fc' = matchField d fc.
Proof.
  destruct fc as [o|ops]; cbn [typedField].
  - intros H. exists (FValue o). split; [|reflexivity].
    destruct o as [[q|x|l]|t| | |l]; try discriminate; try reflexivity;
      cbn [castField]; rewrite (castValue_typed rt ty _ H); reflexivity.
  - destruct ops as [|p ops]; [discriminate|]. intros H.
    destruct (castOps_typed rt ty (p :: ops) H) as (ops' & Hcast & Hmatch).
    exists (FOps ops'). unfold castField. rewrite Hcast. split; [reflexivity | exact Hmatch].
Qed.

Lemma castCondition_typed rt strict cond :
  typedCondition cond = true ->
  exists cond', castCondition rt strict cond = Some cond' /\
                forall c, matchesCondition c cond' = matchesCondition c cond.
Proof.
  induction cond as [|[path fc] cond IH]; cbn [typedCondition forallb]; intros H.
  - exists []. split; reflexivity.
  - apply andb_true_iff in H as [Hfc Hcond].
    destruct (schemaType path) as [ty|] eqn:Hty; [|discriminate].
    destruct (castField_typed rt ty fc Hfc) as (fc' & Hcast & Hmatch).
    destruct (IH Hcond) as (cond' & Hcasts & Hmatches).
    exists ((path, fc') :: cond'). cbn [castCondition]. rewrite Hty, Hcast, Hcasts.
    split; [reflexivity|]. intros c. unfold matchesCondition in *. cbn [forallb].
    rewrite Hmatch, Hmatches. reflexivity.
Qed.

Lemma castConditions_typed rt strict conds :
  forallb typedCondition conds = true ->
  exists conds', mapM (castCondition rt strict) conds = Some conds' /\
                 forall c, map (matchesCondition c) conds' = map (matchesCondition c) conds.
Proof.
  induction conds as [|cond conds IH]; cbn [forallb]; intros H.
  - exists []. split; reflexivity.
  - apply andb_true_iff in H as [Hcond Hconds].
    destruct (castCondition_typed rt strict cond Hcond) as (cond' & Hcast & Hmatch).
    destruct (IH Hconds) as (conds' & Hcasts & Hmatches).
    exists (cond' :: conds'). cbn [mapM]. rewrite Hcast, Hcasts.
    split; [reflexivity|]. intros c. cbn [map]. rewrite Hmatch, Hmatches. reflexivity.
Qed.

Lemma forallb_map {A} (f : A -> bool) l : forallb f l = forallb id (map f l).
Proof. induction l as [|x l IH]; cbn; [reflexivity|]. rewrite IH. reflexivity. Qed.

Lemma existsb_map {A} (f : A -> bool) l : existsb f l = existsb id (map f l).
Proof. induction l as [|x l IH]; cbn; [reflexivity|]. rewrite IH. reflexivity. Qed.

(** The dates of a days rule are valid under the conditions of C6. *)
Lemma daysRule_typed rt op days lo :
  fixedZone rt ->
  - maxTime <= clock rt 0 - days * msPerDay ->
  clock rt 0 - days * msPerDay + msPerDay <= maxTime ->
  typed rt [daysRule op days lo] = true.
Proof.
  intros Hzone Hlo Hhi. assert (0 < msPerDay) as Hday by reflexivity.
  unfold typed. cbn [imap forallb]. unfold ruleCondition.
  cbn [field operator value daysRule ToNumber String.eqb Ascii.eqb Bool.eqb].
  rewrite (CompilerFacts.setDate_back rt (clock rt 0) days Hzone).
  rewrite CompilerFacts.TimeClip_valid by lia. cbn [mbind option_bind].
  change (24 * 60 * 60 * 1000) with msPerDay.
  rewrite CompilerFacts.TimeClip_valid by lia.
  repeat match goal with |- context [String.eqb op ?s] => destruct (String.eqb op s) end;
    reflexivity.
Qed.

Lemma tierRule_typed rt label lo : typed rt [tierRule label lo] = true.
Proof.
  unfold typed. cbn [imap forallb]. unfold ruleCondition, tierRangesAt.
  cbn [field operator value tierRule String.eqb Ascii.eqb Bool.eqb ToPropertyKey].
  destruct (assoc label tierRanges) as [[min [max|]]|]; try reflexivity.
  destruct (existsb (String.eqb label) ObjectPrototype); reflexivity.
Qed.

(** X20: for a list of rules whose compiled conditions hold values of
    the types of their paths, the cast of the query changes nothing of
    what it selects: [find] returns exactly the stored customers of whom
    the compiled predicate holds.  Such are the tier rules, the rules
    that compare [totalSpent] or [visitCount] with a number, or
    [location.city] with a string, and the days rules under the
    conditions of C6. *)
Theorem typed_rules_select (rt : Runtime) (strict : bool) :
  (forall rules, typed rt rules = true ->
     (forall c, selects rt strict rules c = Some (matchesQuery c (buildSegmentQuery rt rules))) /\
     (forall cs, find rt strict cs (buildSegmentQuery rt rules)
                 = Some (List.filter (fun c => matchesQuery c (buildSegmentQuery rt rules)) cs))) /\
  (forall label lo, typed rt [tierRule label lo] = true) /\
  (forall f op q lo, In f ["totalSpent"; "visitCount"] ->
     typed rt [fieldRule f op (JNum q) lo] = true) /\
  (forall op x lo, typed rt [fieldRule "location.city" op (JStr x) lo] = true) /\
  (forall op days lo, fixedZone rt ->
     - maxTime <= clock rt 0 - days * msPerDay ->
     clock rt 0 - days * msPerDay + msPerDay <= maxTime ->
     typed rt [daysRule op days lo] = true).
Proof.
  split; [|split; [|split; [|split]]].
  - intros rules Htyped.
    assert (forall c, selects rt strict rules c
                      = Some (matchesQuery c (buildSegmentQuery rt rules))) as Hsel.
    { intros c. unfold selects, typed in *. unfold buildSegmentQuery.
      destruct rules as [|first rest]; [reflexivity|].
      set (conds := imap (ruleCondition rt) (first :: rest)) in *.
      destruct (castConditions_typed rt strict conds Htyped) as (conds' & Hcast & Hmatch).
      assert (length conds' = length conds) as Hlen
        by (rewrite <- (length_map (matchesCondition c) conds'), Hmatch, length_map; reflexivity).
      destruct conds as [|cond [|cond2 conds]].
      - destruct conds'; [|discriminate]. reflexivity.
      - destruct conds' as [|cond' [|? ?]]; try discriminate.
        cbn [mapM] in Hcast. cbn [cast].
        destruct (castCondition rt strict cond) as [cond''|]; [|discriminate].
        cbn in Hcast. injection Hcast as ->. cbn [fmap option_fmap option_map matchesQuery].
        specialize (Hmatch c). cbn [map] in Hmatch. congruence.
      - cbn [cast]. rewrite Hcast. cbn [fmap option_fmap option_map matchesQuery]. f_equal.
        destruct (String.eqb _ "$and"); [|destruct (String.eqb _ "$or"); [|reflexivity]].
        + rewrite (forallb_map (matchesCondition c) conds'), Hmatch, <- forallb_map. reflexivity.
        + rewrite (existsb_map (matchesCondition c) conds'), Hmatch, <- existsb_map. reflexivity. }
    split; [exact Hsel|]. intros cs. rewrite find_selects.
    unfold selects in Hsel.
    destruct (cast rt strict (buildSegmentQuery rt rules)) as [q|] eqn:Hq.
    + f_equal. induction cs as [|c cs IH]; [reflexivity|]. cbn [List.filter].
      specialize (Hsel c). cbn in Hsel. injection Hsel as ->. rewrite IH. reflexivity.
    + specialize (Hsel (Samples.asha)). discriminate.
  - intros label lo. apply tierRule_typed.
  - intros f op q lo Hf. unfold typed. cbn [imap forallb].
    assert (isStandard f) as Hstd
      by (destruct Hf as [<-|[<-|[]]]; repeat split; discriminate).
    rewrite (standard_condition rt 0 f op (JNum q) lo Hstd).
    repeat match goal with |- context [String.eqb op ?s] => destruct (String.eqb op s) end;
      destruct Hf as [<-|[<-|[]]]; reflexivity.
  - intros op x lo. unfold typed. cbn [imap forallb].
    rewrite (standard_condition rt 0 "location.city" op (JStr x) lo)
      by (repeat split; discriminate).
    repeat match goal with |- context [String.eqb op ?s] => destruct (String.eqb op s) end;
      reflexivity.
  - intros op days lo. apply daysRule_typed.
Qed.

(** Witness of X20: the segment of the samples, [totalSpent > 10000]. *)
Lemma typed_rules_select_witness :
  find (Samples.utc Samples.today) false (customers Samples.store)
    (buildSegmentQuery (Samples.utc Samples.today) (Segment.rules Samples.bigSpenders))
  = Some [Samples.asha; Samples.meera].
Proof.
  rewrite (proj2 (proj1 (typed_rules_select (Samples.utc Samples.today) false)
                    (Segment.rules Samples.bigSpenders) eq_refl)).
  reflexivity.
Defined.

(** X3: a [daysSinceLastVisit] rule whose operator is none of [>], [<],
    [>=], [<=], [=] (so also [!=], [in] and [not_in], which the schema
    admits), and a rule on a standard field whose operator is none of the
    eight, compile to the empty condition: alone in a list they select
    every customer. *)
Theorem unhandled_operator (rt : Runtime) (i : nat) (r : Rule) :
  (field r = "daysSinceLastVisit" /\ ~ In (operator r) dayOperators) \/
  (field r <> "daysSinceLastVisit" /\ field r <> "customerTier" /\
   ~ In (operator r) standardOperators) ->
  ruleCondition rt i r = [] /\
  forall c, matchesQuery c (buildSegmentQuery rt [r]) = true.
Proof.
  intros H.
  assert (forall j, ruleCondition rt j r = []) as Hempty.
  { intros j. destruct H as [[Hf Hop]|(Hd & Ht & Hop)].
    - unfold ruleCondition. rewrite Hf. cbn [String.eqb Ascii.eqb Bool.eqb].
      unfold dayOperators in Hop. cbn [In] in Hop.
      repeat match goal with
             | |- context [String.eqb (operator r) ?s] =>
                 destruct (String.eqb_spec (operator r) s) as [Heq|_];
                 [exfalso; apply Hop; rewrite Heq; tauto|]
             end.
      reflexivity.
    - rewrite standard_branch by assumption.
      unfold standardOperators in Hop. cbn [In] in Hop.
      repeat match goal with
             | |- context [String.eqb (operator r) ?s] =>
                 destruct (String.eqb_spec (operator r) s) as [Heq|_];
                 [exfalso; apply Hop; rewrite Heq; tauto|]
             end.
      reflexivity. }
  split; [apply Hempty|].
  intros c. unfold buildSegmentQuery. cbn [imap]. rewrite Hempty. reflexivity.
Qed.

(** Witness of X3: [daysSinceLastVisit != 30]. *)
Lemma unhandled_operator_witness :
  ruleCondition (Samples.utc Samples.today) 0 (daysRule "!=" 30 None) = [] /\
  forall c, matchesQuery c
              (buildSegmentQuery (Samples.utc Samples.today) [daysRule "!=" 30 None]) = true.
Proof.
  apply (unhandled_operator (Samples.utc Samples.today) 0 (daysRule "!=" 30 None)).
  left. split; [reflexivity|]. cbn. intuition discriminate.
Defined.

(** X4: a [daysSinceLastVisit] rule with one of its five operators never
    holds of a customer who has no [lastVisit], whatever its value. *)
Theorem days_rule_needs_visit (rt : Runtime) (c : Customer) (op : string) (v : Json)
    (lo : option string) :
  In op dayOperators -> lastVisit c = None ->
  matchesQuery c
    (buildSegmentQuery rt [fieldRule "daysSinceLastVisit" op v lo]) = false.
Proof.
  intros Hop Hvisit. unfold buildSegmentQuery. cbn [imap matchesQuery].
  unfold ruleCondition. cbn [field operator value fieldRule String.eqb Ascii.eqb Bool.eqb].
  unfold dayOperators in Hop. cbn [In] in Hop.
  destruct Hop as [<-|[<-|[<-|[<-|[<-|[]]]]]];
    cbn [String.eqb Ascii.eqb Bool.eqb]; unfold matchesCondition, matchField;
    cbn [forallb]; unfold getField; cbn [String.eqb Ascii.eqb Bool.eqb];
    rewrite Hvisit; reflexivity.
Qed.

(** Witness of X4: a customer never seen and [daysSinceLastVisit > 30]. *)
Lemma days_rule_needs_visit_witness :
  matchesQuery Samples.ravi
    (buildSegmentQuery (Samples.utc Samples.today)
       [fieldRule "daysSinceLastVisit" ">" (JNum (30 # 1)) None]) = false.
Proof.
  apply (days_rule_needs_visit (Samples.utc Samples.today) Samples.ravi ">" (JNum (30 # 1)) None).
  - left. reflexivity.
  - reflexivity.
Defined.

(** The five operators of a days rule on the cutoff date, for a whole
    number of days in a zone with a fixed offset. *)
Lemma days_rule_matches rt c t days lo :
  let cutoff := clock rt 0 - days * msPerDay in
  let holds op := matchesQuery c (buildSegmentQuery rt [daysRule op days lo]) = true in
  fixedZone rt -> - maxTime <= cutoff -> cutoff + msPerDay <= maxTime ->
  lastVisit c = Some t ->
  (holds ">" <-> t < cutoff) /\ (holds "<" <-> cutoff < t) /\
  (holds ">=" <-> t <= cutoff) /\ (holds "<=" <-> cutoff <= t) /\
  (holds "=" <-> cutoff <= t < cutoff + msPerDay).
Proof.
  intros cutoff holds Hzone Hlo Hhi Hvisit. unfold holds.
  assert (0 < msPerDay) as Hday by reflexivity.
  unfold buildSegmentQuery. cbn [imap]. unfold ruleCondition.
  cbn [field operator value daysRule ToNumber String.eqb Ascii.eqb Bool.eqb].
  rewrite (CompilerFacts.setDate_back rt (clock rt 0) days Hzone). fold cutoff.
  rewrite (CompilerFacts.TimeClip_valid cutoff) by lia.
  cbn [matchesQuery mbind option_bind].
  change (24 * 60 * 60 * 1000) with msPerDay.
  rewrite (CompilerFacts.TimeClip_valid (cutoff + msPerDay)) by lia.
  rewrite !(CompilerFacts.last_visit_ops c t _ Hvisit). cbn [forallb].
  rewrite !andb_true_r, andb_true_iff, !CompilerFacts.lt_date, CompilerFacts.gt_date,
    CompilerFacts.lte_date, !CompilerFacts.gte_date.
  repeat split; lia.
Qed.

(** The virtual [daysSinceLastVisit] as a quotient and a remainder. *)
Lemma virtual_days now c t :
  lastVisit c = Some t ->
  exists n r, daysSinceLastVisit now c = Some n /\
              now - t = n * msPerDay + r /\ 0 <= r < msPerDay /\
              r = (now - t) mod msPerDay.
Proof.
  intros Hvisit. unfold daysSinceLastVisit. rewrite Hvisit.
  change (1000 * 60 * 60 * 24) with msPerDay.
  exists ((now - t) / msPerDay), ((now - t) mod msPerDay).
  assert (0 < msPerDay) as Hday by reflexivity.
  pose proof (Z.div_mod (now - t) msPerDay ltac:(lia)).
  pose proof (Z.mod_pos_bound (now - t) msPerDay Hday).
  repeat split; lia.
Qed.

(** X5: for a customer with a [lastVisit], the rules
    [daysSinceLastVisit >= d] and [daysSinceLastVisit < d] hold exactly
    when the customer's virtual [daysSinceLastVisit] (whole days elapsed,
    rounded down) is at least [d], respectively below [d]. *)
Theorem days_rule_agrees_with_virtual (rt : Runtime) (c : Customer) (t days : Z)
    (lo : option string) :
  let now := clock rt 0 in
  let cutoff := now - days * msPerDay in
  let holds op := matchesQuery c (buildSegmentQuery rt [daysRule op days lo]) = true in
  fixedZone rt -> - maxTime <= cutoff -> cutoff + msPerDay <= maxTime ->
  lastVisit c = Some t ->
  (holds ">=" <-> exists n, daysSinceLastVisit now c = Some n /\ days <= n) /\
  (holds "<" <-> exists n, daysSinceLastVisit now c = Some n /\ n < days).
Proof.
  intros now cutoff holds Hzone Hlo Hhi Hvisit.
  destruct (days_rule_matches rt c t days lo Hzone Hlo Hhi Hvisit)
    as (_ & Hlt & Hge & _ & _).
  destruct (virtual_days now c t Hvisit) as (n & r & Hn & Hx & Hr & _).
  assert (msPerDay = 86400000) as Hms by reflexivity.
  unfold holds. rewrite Hlt, Hge. fold now. fold cutoff. unfold cutoff.
  split; split.
  - intros H. exists n. split; [exact Hn | lia].
  - intros (n' & Hn' & H). rewrite Hn in Hn'. injection Hn' as <-. lia.
  - intros H. exists n. split; [exact Hn | lia].
  - intros (n' & Hn' & H). rewrite Hn in Hn'. injection Hn' as <-. lia.
Qed.

(** Witness of X5: a customer last seen on 2025-10-01, 33 days before the
    clock's 2025-11-03. *)
Lemma days_rule_agrees_with_virtual_witness :
  matchesQuery Samples.asha
    (buildSegmentQuery (Samples.utc Samples.today) [daysRule ">=" 33 None]) = true
  <-> exists n, daysSinceLastVisit Samples.today Samples.asha = Some n /\ 33 <= n.
Proof.
  refine (proj1 (days_rule_agrees_with_virtual (Samples.utc Samples.today) Samples.asha
                   1759276800000 33 None _ _ _ _)).
  - exists 0. reflexivity.
  - vm_compute. discriminate.
  - vm_compute. discriminate.
  - reflexivity.
Defined.

(** X6: for a customer with a [lastVisit], a rule value that is a whole
    number of days, a host whose time zone has a fixed offset from UTC
    and a cutoff within the range of Date (as in C6 and X5), the other
    three operators differ from the virtual at the
    boundary.  With [n] the virtual [daysSinceLastVisit] and [r] the
    milliseconds elapsed beyond [n] whole days: [> d] holds when [n > d]
    and also when [n = d] with [r > 0]; [<= d] holds when [n < d] and when
    [n = d] with [r = 0]; and [= d] holds when [n = d - 1] with [r > 0] or
    [n = d] with [r = 0], so it selects customers whose virtual value is
    [d - 1], apart from a visit exactly [d] days ago to the millisecond. *)
Theorem days_rule_boundaries (rt : Runtime) (c : Customer) (t days : Z)
    (lo : option string) :
  let now := clock rt 0 in
  let cutoff := now - days * msPerDay in
  let holds op := matchesQuery c (buildSegmentQuery rt [daysRule op days lo]) = true in
  fixedZone rt -> - maxTime <= cutoff -> cutoff + msPerDay <= maxTime ->
  lastVisit c = Some t ->
  exists n, daysSinceLastVisit now c = Some n /\
    let r := (now - t) mod msPerDay in
    (holds ">" <-> days < n \/ (n = days /\ 0 < r)) /\
    (holds "<=" <-> n < days \/ (n = days /\ r = 0)) /\
    (holds "=" <-> (n = days - 1 /\ 0 < r) \/ (n = days /\ r = 0)).
Proof.
  intros now cutoff holds Hzone Hlo Hhi Hvisit.
  destruct (days_rule_matches rt c t days lo Hzone Hlo Hhi Hvisit)
    as (Hgt & _ & _ & Hle & Heq).
  destruct (virtual_days now c t Hvisit) as (n & r & Hn & Hx & Hr & Hmod).
  assert (msPerDay = 86400000) as Hms by reflexivity.
  exists n. split; [exact Hn|]. cbn zeta. rewrite <- Hmod.
  unfold holds. rewrite Hgt, Hle, Heq. fold now. fold cutoff. unfold cutoff.
  repeat split; lia.
Qed.

(** Witness of X6: the same customer and [daysSinceLastVisit = 33]. *)
Lemma days_rule_boundaries_witness :
  exists n, daysSinceLastVisit Samples.today Samples.asha = Some n /\
    (matchesQuery Samples.asha
       (buildSegmentQuery (Samples.utc Samples.today) [daysRule "=" 33 None]) = true
     <-> (n = 33 - 1 /\ 0 < (Samples.today - 1759276800000) mod msPerDay) \/
         (n = 33 /\ (Samples.today - 1759276800000) mod msPerDay = 0)).
Proof.
  destruct (days_rule_boundaries (Samples.utc Samples.today) Samples.asha
              1759276800000 33 None) as (n & Hn & _ & _ & Heq).
  - exists 0. reflexivity.
  - vm_compute. discriminate.
  - vm_compute. discriminate.
  - reflexivity.
  - exists n. split; [exact Hn | exact Heq].
Defined.

(** The virtual tier of a customer who has spent a whole amount. *)
Lemma virtual_tier_whole c (n : Z) :
  (totalSpent c == inject_Z n)%Q ->
  custromerTier c =
    if Z_lt_le_dec 50000 n then "PREMIUM"
    else if Z_lt_le_dec 20000 n then "GOLD"
    else if Z_lt_le_dec 5000 n then "SILVER"
    else "BRONZE".
Proof.
  intros Hn. unfold custromerTier.
  assert (forall k : Z, (inject_Z k < totalSpent c)%Q <-> k < n) as Hlt
    by (intros k; rewrite Hn; unfold Qlt, inject_Z; cbn [Qnum Qden]; lia).
  assert (forall k : Z, (totalSpent c <= inject_Z k)%Q <-> n <= k) as Hle
    by (intros k; rewrite Hn; unfold Qle, inject_Z; cbn [Qnum Qden]; lia).
  destruct (Qlt_le_dec 50000 (totalSpent c)) as [H|H];
    [apply (Hlt 50000) in H | apply (Hle 50000) in H];
    destruct (Z_lt_le_dec 50000 n); try lia; [reflexivity|].
  destruct (Qlt_le_dec 20000 (totalSpent c)) as [H'|H'];
    [apply (Hlt 20000) in H' | apply (Hle 20000) in H'];
    destruct (Z_lt_le_dec 20000 n); try lia; [reflexivity|].
  destruct (Qlt_le_dec 5000 (totalSpent c)) as [H''|H''];
    [apply (Hlt 5000) in H'' | apply (Hle 5000) in H''];
    destruct (Z_lt_le_dec 5000 n); try lia; reflexivity.
Qed.

(** X7: for a customer who has spent a whole, non-negative amount, the
    rule [customerTier = label] with one of the four labels holds exactly
    when [label] is the customer's virtual tier; so the rule of the
    customer's own tier holds of them. *)
Theorem tier_rule_agrees_with_virtual (rt : Runtime) (c : Customer) (n : Z)
    (lo : option string) :
  (totalSpent c == inject_Z n)%Q -> 0 <= n ->
  (forall label, In label tierLabels ->
     (matchesQuery c (buildSegmentQuery rt [tierRule label lo]) = true
      <-> custromerTier c = label)) /\
  matchesQuery c (buildSegmentQuery rt [tierRule (custromerTier c) lo]) = true.
Proof.
  intros Hn Hpos.
  destruct (CompilerFacts.tier_ranges_whole_amounts rt lo c n Hn) as (Hb & Hs & Hg & Hp).
  pose proof (virtual_tier_whole c n Hn) as Hv.
  assert (forall label, In label tierLabels ->
            (matchesQuery c (buildSegmentQuery rt [tierRule label lo]) = true
             <-> custromerTier c = label)) as Hall.
  { intros label Hin. unfold tierLabels in Hin. cbn [In] in Hin. rewrite Hv.
    destruct Hin as [<-|[<-|[<-|[<-|[]]]]];
      [rewrite Hp | rewrite Hg | rewrite Hs | rewrite Hb];
      destruct (Z_lt_le_dec 50000 n); destruct (Z_lt_le_dec 20000 n);
      destruct (Z_lt_le_dec 5000 n);
      split; intros H; try lia; try reflexivity; try discriminate. }
  split; [exact Hall|].
  apply Hall; [|reflexivity].
  rewrite Hv. unfold tierLabels. cbn [In].
  destruct (Z_lt_le_dec 50000 n); destruct (Z_lt_le_dec 20000 n);
    destruct (Z_lt_le_dec 5000 n); tauto.
Qed.

(** Witness of X7: a customer who has spent 15000 is SILVER. *)
Lemma tier_rule_agrees_with_virtual_witness :
  matchesQuery Samples.asha
    (buildSegmentQuery (Samples.utc Samples.today)
       [tierRule (custromerTier Samples.asha) None]) = true.
Proof.
  refine (proj2 (tier_rule_agrees_with_virtual (Samples.utc Samples.today) Samples.asha
                   15000 None _ _)).
  - reflexivity.
  - lia.
Defined.

(** The range a tier rule asks for. *)
Lemma tier_rule_range rt lo c label min max :
  assoc label tierRanges = Some (min, max) ->
  matchesQuery c (buildSegmentQuery rt [tierRule label lo]) = true ->
  (min <= totalSpent c)%Q /\
  match max with Some m => (totalSpent c <= m)%Q | None => True end.
Proof.
  intros Hrange. unfold buildSegmentQuery. cbn [imap].
  rewrite (CompilerFacts.tier_condition rt 0 label lo min max Hrange).
  cbn [matchesQuery]. destruct max as [m|].
  - rewrite CompilerFacts.spend_between. tauto.
  - rewrite CompilerFacts.spend_from. tauto.
Qed.

(** X8: whatever a customer has spent, whole amount or not, at most one
    of the four tier rules holds of them. *)
Theorem tier_rules_exclusive (rt : Runtime) (c : Customer) (label label' : string)
    (lo lo' : option string) :
  In label tierLabels -> In label' tierLabels ->
  matchesQuery c (buildSegmentQuery rt [tierRule label lo]) = true ->
  matchesQuery c (buildSegmentQuery rt [tierRule label' lo']) = true ->
  label = label'.
Proof.
  unfold tierLabels. cbn [In].
  intros [<-|[<-|[<-|[<-|[]]]]] [<-|[<-|[<-|[<-|[]]]]] H H'; try reflexivity;
    eapply tier_rule_range in H; try reflexivity;
    eapply tier_rule_range in H'; try reflexivity;
    cbn in H, H'; exfalso; lra.
Qed.

(** Witness of X8: GOLD and SILVER never hold together. *)
Lemma tier_rules_exclusive_witness :
  In "GOLD" tierLabels /\ In "SILVER" tierLabels /\
  forall c,
    matchesQuery c (buildSegmentQuery (Samples.utc Samples.today) [tierRule "GOLD" None]) = true ->
    matchesQuery c (buildSegmentQuery (Samples.utc Samples.today) [tierRule "SILVER" None]) = true ->
    "GOLD" = "SILVER".
Proof.
  assert (In "GOLD" tierLabels) as Hg by (right; left; reflexivity).
  assert (In "SILVER" tierLabels) as Hs by (right; right; left; reflexivity).
  split; [exact Hg|]. split; [exact Hs|].
  intros c. exact (tier_rules_exclusive (Samples.utc Samples.today) c "GOLD" "SILVER"
                     None None Hg Hs).
Defined.

(** X9: in a list of two or more rules combined with OR, one rule that
    compiles to the empty condition makes the query hold of every
    customer; combined with AND, such a rule after another one changes
    nothing. *)
Theorem empty_condition_in_list (rt : Runtime) :
  (forall r1 r2 rs i r c,
     logicalOperator r1 = Some "OR" ->
     (r1 :: r2 :: rs) !! i = Some r -> ruleCondition rt i r = [] ->
     matchesQuery c (buildSegmentQuery rt (r1 :: r2 :: rs)) = true) /\
  (forall r1 r2 c,
     logicalOperator r1 <> Some "OR" -> ruleCondition rt 1 r2 = [] ->
     matchesQuery c (buildSegmentQuery rt [r1; r2])
     = matchesQuery c (buildSegmentQuery rt [r1])).
Proof.
  split.
  - intros r1 r2 rs i r c Hor Hi Hempty.
    assert (buildSegmentQuery rt (r1 :: r2 :: rs)
            = QCombine "$or" (imap (ruleCondition rt) (r1 :: r2 :: rs))) as ->
      by (unfold buildSegmentQuery; cbn [imap]; rewrite Hor; reflexivity).
    cbn [matchesQuery String.eqb Ascii.eqb Bool.eqb].
    apply existsb_exists. exists []. split; [|reflexivity].
    apply list_elem_of_In. apply (list_elem_of_lookup_2 _ i).
    rewrite list_lookup_imap, Hi. cbn. rewrite Hempty. reflexivity.
  - intros r1 r2 c Hand Hempty.
    assert (buildSegmentQuery rt [r1; r2]
            = QCombine "$and" [ruleCondition rt 0 r1; ruleCondition rt 1 r2]) as ->.
    { unfold buildSegmentQuery. cbn [imap].
      destruct (logicalOperator r1) as [op|]; [|reflexivity].
      destruct (String.eqb_spec op "OR") as [->|]; [congruence | reflexivity]. }
    rewrite Hempty. cbn [matchesQuery String.eqb Ascii.eqb Bool.eqb forallb buildSegmentQuery imap].
    unfold matchesCondition at 2. cbn [forallb]. rewrite !andb_true_r. reflexivity.
Qed.

(** Witness of X9: GOLD customers or [customerTier = "PLATINUM"], for a
    customer who is not GOLD. *)
Lemma empty_condition_in_list_witness :
  matchesQuery Samples.ravi
    (buildSegmentQuery (Samples.utc Samples.today) [tierRule "GOLD" (Some "OR")]) = false /\
  matchesQuery Samples.ravi
    (buildSegmentQuery (Samples.utc Samples.today)
       [tierRule "GOLD" (Some "OR"); tierRule "PLATINUM" None]) = true.
Proof.
  split; [vm_compute; reflexivity|].
  exact (proj1 (empty_condition_in_list (Samples.utc Samples.today))
           (tierRule "GOLD" (Some "OR")) (tierRule "PLATINUM" None) [] 1%nat
           (tierRule "PLATINUM" None) Samples.ravi eq_refl eq_refl eq_refl).
Defined.

End CompilerCoverage.

(** ** More on receipts *)

Module ReceiptCoverage.
Import Js Receipts Invariants Coverage.

Lemma lookup_same_keys (ls ls' : list CommunicationLog.doc) i l :
  key <$> ls = key <$> ls' -> ls !! i = Some l ->
  exists l', ls' !! i = Some l' /\ key l' = key l.
Proof.
  intros Hkeys Hi.
  assert ((key <$> ls') !! i = Some (key l)) as H
    by (rewrite <- Hkeys, list_lookup_fmap, Hi; reflexivity).
  rewrite list_lookup_fmap in H. destruct (ls' !! i) as [l'|]; [|discriminate].
  exists l'. split; [reflexivity|]. cbn in H. congruence.
Qed.

Lemma key_id l l' :
  key l' = key l ->
  CommunicationLog.vendorMessageId l' = CommunicationLog.vendorMessageId l /\
  CommunicationLog.campaignId l' = CommunicationLog.campaignId l /\
  CommunicationLog.customerId l' = CommunicationLog.customerId l.
Proof. unfold key. intros H. injection H as -> -> ->. auto. Qed.

(** The log a receipt names depends on the ids of the stored logs only. *)
Lemma findOne_same_keys ls ls' id i l :
  key <$> ls = key <$> ls' -> findOne ls id = Some (i, l) ->
  exists l', findOne ls' id = Some (i, l') /\ key l' = key l.
Proof.
  intros Hkeys Hfind. unfold findOne in *.
  apply list_find_Some in Hfind as (Hi & Hid & Hfirst).
  destruct (lookup_same_keys ls ls' i l Hkeys Hi) as (l' & Hi' & Hk).
  exists l'. split; [|exact Hk].
  apply list_find_Some. split; [exact Hi'|]. split.
  - destruct (key_id _ _ Hk) as (-> & _). exact Hid.
  - intros j y' Hj Hlt Hy'.
    destruct (lookup_same_keys ls' ls j y' (eq_sym Hkeys) Hj) as (y & Hy & Hky).
    apply (Hfirst j y Hy Hlt). destruct (key_id _ _ Hky) as (-> & _). exact Hy'.
Qed.

Lemma creditsTo_same_keys db db' cid r :
  key <$> logs db = key <$> logs db' -> creditsTo db cid r = creditsTo db' cid r.
Proof.
  intros Hkeys. unfold creditsTo.
  destruct (findOne (logs db) (vendorMessageId r)) as [[i l]|] eqn:Hfind.
  - destruct (findOne_same_keys _ _ _ _ _ Hkeys Hfind) as (l' & -> & Hk).
    destruct (key_id _ _ Hk) as (_ & -> & _). reflexivity.
  - destruct (findOne (logs db') (vendorMessageId r)) as [[i l']|] eqn:Hfind'; [|reflexivity].
    destruct (findOne_same_keys _ _ _ _ _ (eq_sym Hkeys) Hfind') as (l & Hl & _).
    congruence.
Qed.

(** One receipt and one campaign: [stats.delivered] goes up by one when
    the receipt counts for the campaign and stays otherwise; nothing else
    of the campaign changes. *)
Lemma deliveryReceipt_credit db r cid c :
  campaigns db !! cid = Some c ->
  exists c', campaigns (snd (deliveryReceipt db r)) !! cid = Some c' /\
    Campaign.delivered (Campaign.stats c')
    = Campaign.delivered (Campaign.stats c) + (if creditsTo db cid r then 1 else 0) /\
    header c' = header c /\ Campaign.status c' = Campaign.status c /\
    Campaign.sent (Campaign.stats c') = Campaign.sent (Campaign.stats c) /\
    Campaign.failed (Campaign.stats c') = Campaign.failed (Campaign.stats c) /\
    Campaign.opened (Campaign.stats c') = Campaign.opened (Campaign.stats c) /\
    Campaign.clicked (Campaign.stats c') = Campaign.clicked (Campaign.stats c).
Proof.
  intros Hc. rewrite ReceiptFacts.deliveryReceipt_alone. unfold creditsTo.
  assert (exists c', campaigns db !! cid = Some c' /\
            Campaign.delivered (Campaign.stats c') = Campaign.delivered (Campaign.stats c) + 0 /\
            header c' = header c /\ Campaign.status c' = Campaign.status c /\
            Campaign.sent (Campaign.stats c') = Campaign.sent (Campaign.stats c) /\
            Campaign.failed (Campaign.stats c') = Campaign.failed (Campaign.stats c) /\
            Campaign.opened (Campaign.stats c') = Campaign.opened (Campaign.stats c) /\
            Campaign.clicked (Campaign.stats c') = Campaign.clicked (Campaign.stats c)) as Hsame
    by (exists c; rewrite Z.add_0_r; repeat split; assumption).
  destruct (findOne _ _) as [[i l]|]; [|exact Hsame].
  destruct (castStatus (status r)) as [s|] eqn:Hs.
  2: { assert (isDelivered r = false) as ->; [|exact Hsame].
       unfold isDelivered. unfold castStatus in Hs.
       destruct (status r) as [| |x]; try reflexivity.
       destruct (String.eqb_spec x "DELIVERED") as [->|]; [discriminate | reflexivity]. }
  cbn zeta. cbn [snd].
  destruct (isDelivered r); cbn [andb].
  - destruct (String.eqb_spec (CommunicationLog.campaignId l) cid) as [->|Hne].
    + rewrite Hc. cbn [campaigns setCampaigns]. rewrite lookup_insert_eq.
      eexists. split; [reflexivity|]. repeat split.
    + destruct (campaigns db !! CommunicationLog.campaignId l); [|exact Hsame].
      cbn [campaigns setCampaigns]. rewrite lookup_insert_ne by assumption. exact Hsame.
  - destruct (campaigns db !! CommunicationLog.campaignId l); exact Hsame.
Qed.

Lemma ingestAll_keys db rs : key <$> logs (ingestAll db rs) = key <$> logs db.
Proof.
  revert db. induction rs as [|r rs IH]; intros db; [reflexivity|].
  cbn [ingestAll foldl]. fold (ingestAll (snd (deliveryReceipt db r)) rs).
  rewrite IH. apply DispatchFacts.deliveryReceipt_keys.
Qed.

(** X15: after any sequence of receipts handled one after the other,
    each handler ending before the next one starts, a stored campaign is
    still stored, its [stats.delivered] has grown by the number of receipts in
    the sequence that carry DELIVERED and name a log of that campaign,
    each repetition counted again, and its other counters, status and
    fixed fields are as before. *)
Theorem receipts_counted (rs : list Receipt) (db : Db) (cid : string) (c : Campaign.doc) :
  campaigns db !! cid = Some c ->
  exists c', campaigns (ingestAll db rs) !! cid = Some c' /\
    Campaign.delivered (Campaign.stats c')
    = Campaign.delivered (Campaign.stats c)
      + Z.of_nat (length (filter (fun r => creditsTo db cid r = true) rs)) /\
    header c' = header c /\ Campaign.status c' = Campaign.status c /\
    Campaign.sent (Campaign.stats c') = Campaign.sent (Campaign.stats c) /\
    Campaign.failed (Campaign.stats c') = Campaign.failed (Campaign.stats c) /\
    Campaign.opened (Campaign.stats c') = Campaign.opened (Campaign.stats c) /\
    Campaign.clicked (Campaign.stats c') = Campaign.clicked (Campaign.stats c).
Proof.
  revert db c. induction rs as [|r rs IH]; intros db c Hc.
  - exists c. cbn. rewrite Z.add_0_r. repeat split. exact Hc.
  - cbn [ingestAll foldl]. fold (ingestAll (snd (deliveryReceipt db r)) rs).
    destruct (deliveryReceipt_credit db r cid c Hc)
      as (c1 & Hc1 & Hd1 & Hh1 & Hs1 & Hsn1 & Hf1 & Ho1 & Hcl1).
    destruct (IH _ c1 Hc1) as (c' & Hc' & Hd & Hh & Hs & Hsn & Hf & Ho & Hcl).
    exists c'. split; [exact Hc'|].
    split; [|repeat split; congruence].
    rewrite Hd, Hd1, filter_cons.
    rewrite (list_filter_iff _ (fun r0 => creditsTo db cid r0 = true)).
    2: { intros r0. rewrite (creditsTo_same_keys _ db cid r0);
           [reflexivity | apply DispatchFacts.deliveryReceipt_keys]. }
    destruct (creditsTo db cid r) eqn:Hcr.
    + rewrite decide_True by reflexivity. cbn [length]. lia.
    + rewrite decide_False by discriminate. lia.
Qed.

(** Witness of X15: the receipt of the first log of the sample launch,
    three times, and one for the failed log carrying FAILED. *)
Lemma receipts_counted_witness :
  exists c', campaigns
               (ingestAll Samples.launched
                  [Samples.receiptFor Samples.firstId "DELIVERED";
                   Samples.receiptFor Samples.secondId "FAILED";
                   Samples.receiptFor Samples.firstId "DELIVERED";
                   Samples.receiptFor Samples.firstId "DELIVERED"])
             !! "64b0c0ffee0123456789ab20" = Some c' /\
             Campaign.delivered (Campaign.stats c') = 3.
Proof.
  destruct (campaigns Samples.launched !! "64b0c0ffee0123456789ab20") as [c|] eqn:Hc;
    [|vm_compute in Hc; discriminate].
  destruct (receipts_counted
              [Samples.receiptFor Samples.firstId "DELIVERED";
               Samples.receiptFor Samples.secondId "FAILED";
               Samples.receiptFor Samples.firstId "DELIVERED";
               Samples.receiptFor Samples.firstId "DELIVERED"]
              Samples.launched "64b0c0ffee0123456789ab20" c Hc) as (c' & Hc' & Hd & _).
  exists c'. split; [exact Hc'|]. rewrite Hd.
  vm_compute in Hc. injection Hc as <-. vm_compute. reflexivity.
Defined.


End ReceiptCoverage.

(** ** More on the launch *)

Module DispatchCoverage.
Import Js Dispatch Invariants Coverage.

Lemma record_message o t l :
  CommunicationLog.message (record o t l) = CommunicationLog.message l.
Proof. destruct o as [[[] [e|] v]|]; reflexivity. Qed.

Lemma ingested_message s at_ l :
  CommunicationLog.message (Receipts.ingested s at_ l) = CommunicationLog.message l.
Proof. destruct at_; reflexivity. Qed.

Lemma saveLog_sameLog loaded assigned l : sameLog l (Receipts.saveLog loaded assigned l).
Proof.
  unfold Receipts.saveLog, sameLog.
  destruct (decide _); destruct (CommunicationLog.deliveredAt assigned);
    try destruct (decide _); split; reflexivity.
Qed.

(** One step of a receipt handler keeps the customers and the segments,
    every stored log with its ids and message, and every stored campaign
    with its fixed fields. *)
Lemma next_keeps db h db' h' :
  Receipts.next db h = Some (db', h') ->
  customers db' = customers db /\
  segments db' = segments db /\
  (forall idx l, logs db !! idx = Some l ->
     exists l', logs db' !! idx = Some l' /\ sameLog l l') /\
  (forall k c, campaigns db !! k = Some c ->
     exists c', campaigns db' !! k = Some c' /\ sameCampaign c c').
Proof.
  assert (forall c, sameCampaign c c) as Hrefl by (intros c; repeat split).
  assert (forall l : CommunicationLog.doc, sameLog l l) as Hrefl' by (intros l; split; reflexivity).
  intros Hnext. unfold Receipts.next in Hnext.
  destruct (Receipts.phase h) as [idx' commLog|commLog|cid campaign|r].
  - destruct (Receipts.castStatus _); injection Hnext as <- _.
    2: { repeat split; eauto. }
    split; [reflexivity|]. split; [reflexivity|]. split; [|eauto].
    intros idx l Hl. cbn [logs setLogs]. destruct (decide (idx = idx')) as [->|Hne].
    + eexists. split; [rewrite list_lookup_alter_eq, Hl; reflexivity|].
      apply saveLog_sameLog.
    + exists l. split; [|apply Hrefl'].
      rewrite list_lookup_alter_ne by congruence. exact Hl.
  - destruct (campaigns db !! _); [destruct (Receipts.isDelivered _)|];
      injection Hnext as <- _; repeat split; eauto.
  - injection Hnext as <- _.
    split; [reflexivity|]. split; [reflexivity|]. split; [eauto|].
    intros k c Hc. cbn [campaigns setCampaigns].
    destruct (decide (k = cid)) as [->|Hne].
    + rewrite lookup_alter_eq, Hc. eexists. split; [reflexivity|]. repeat split.
    + rewrite lookup_alter_ne by congruence. eauto.
  - discriminate.
Qed.

Lemma step_keeps st st' :
  step st st' ->
  customers (db st') = customers (db st) /\
  segments (db st') = segments (db st) /\
  (forall idx l, logs (db st) !! idx = Some l ->
     exists l', logs (db st') !! idx = Some l' /\ sameLog l l') /\
  (forall k c, campaigns (db st) !! k = Some c ->
     exists c', campaigns (db st') !! k = Some c' /\ sameCampaign c c').
Proof.
  assert (forall c, sameCampaign c c) as Hrefl by (intros c; repeat split).
  intros [st0 i task Hi Hsaving | st0 i task idx' o t Hi Hsending | st0 Hnone Hall
         | st0 r | st0 k h db' h' Hk Hnext].
  - split; [reflexivity|]. split; [reflexivity|]. split.
    + intros idx l Hl. exists l. split; [|split; reflexivity].
      cbn [db saved logs setLogs]. apply lookup_app_l_Some. exact Hl.
    + intros k c Hc. exists c. split; [exact Hc | apply Hrefl].
  - split; [reflexivity|]. split; [reflexivity|]. split.
    + intros idx l Hl. cbn [db settled logs setLogs].
      destruct (decide (idx = idx')) as [->|Hne].
      * exists (record o t l). split.
        { rewrite list_lookup_alter_eq, Hl. reflexivity. }
        split; [apply DispatchFacts.key_record | apply record_message].
      * exists l. split; [|split; reflexivity].
        rewrite list_lookup_alter_ne by congruence. exact Hl.
    + intros k c Hc. exists c. split; [exact Hc | apply Hrefl].
  - split; [reflexivity|]. split; [reflexivity|]. split.
    + intros idx l Hl. exists l. split; [exact Hl | split; reflexivity].
    + intros k c Hc. cbn [db completed campaigns setCampaigns].
      destruct (decide (k = Campaign._id (Campaign.setStatus Campaign.COMPLETED (campaign st0))))
        as [->|Hne].
      * rewrite lookup_alter_eq, Hc. eexists. split; [reflexivity|].
        repeat split.
      * rewrite lookup_alter_ne by congruence. exists c. split; [exact Hc | apply Hrefl].
  - split; [reflexivity|]. split; [reflexivity|]. split.
    + intros idx l Hl. exists l. split; [exact Hl | split; reflexivity].
    + intros k c Hc. exists c. split; [exact Hc | apply Hrefl].
  - cbn [db handled]. apply (next_keeps _ _ _ _ Hnext).
Qed.

(** X12: whatever a launch and the receipts handled meanwhile do, the
    customers and the segments of the store stay as they are, and every
    stored log stays at its position with its campaign, its customer, its
    [vendorMessageId] and its message: logs are only added, never removed,
    moved or re-addressed. *)
Theorem store_append_only (st st' : State) :
  steps st st' ->
  customers (db st') = customers (db st) /\
  segments (db st') = segments (db st) /\
  (length (logs (db st)) <= length (logs (db st')))%nat /\
  forall idx l, logs (db st) !! idx = Some l ->
    exists l', logs (db st') !! idx = Some l' /\
      key l' = key l /\ CommunicationLog.message l' = CommunicationLog.message l.
Proof.
  intros Hsteps.
  assert (customers (db st') = customers (db st) /\
          segments (db st') = segments (db st) /\
          forall idx l, logs (db st) !! idx = Some l ->
            exists l', logs (db st') !! idx = Some l' /\ sameLog l l') as (Hc & Hs & Hl).
  { induction Hsteps as [st|st st1 st2 Hstep _ IH].
    - split; [reflexivity|]. split; [reflexivity|].
      intros idx l Hl. exists l. split; [exact Hl | split; reflexivity].
    - destruct (step_keeps _ _ Hstep) as (Hc1 & Hs1 & Hl1 & _).
      destruct IH as (Hc2 & Hs2 & Hl2).
      split; [congruence|]. split; [congruence|].
      intros idx l Hl. destruct (Hl1 idx l Hl) as (l1 & Hl1' & Hk1 & Hm1).
      destruct (Hl2 idx l1 Hl1') as (l2 & Hl2' & Hk2 & Hm2).
      exists l2. split; [exact Hl2'|]. split; congruence. }
  split; [exact Hc|]. split; [exact Hs|]. split; [|exact Hl].
  destruct (logs (db st)) as [|x ls] eqn:Hlogs using rev_ind; [cbn; lia|].
  destruct (Hl (length ls) x) as (l' & Hl' & _).
  { rewrite lookup_app_r by lia. rewrite Nat.sub_diag. reflexivity. }
  apply lookup_lt_Some in Hl'. rewrite length_app. cbn [length]. lia.
Qed.

(** Witness of X12: the sample launch driven from its start to its end. *)
Lemma store_append_only_witness :
  customers (db (run Samples.outcomes Samples.times Samples.started))
  = customers (db Samples.started).
Proof.
  refine (proj1 (store_append_only Samples.started
                   (run Samples.outcomes Samples.times Samples.started) _)).
  apply DispatchFacts.run_spec. reflexivity.
Defined.

(** X14: whatever a launch and the receipt handlers running meanwhile
    do, every stored campaign stays stored with its id, name, segment,
    message, audience size and creator, and its [stats.opened] and
    [stats.clicked] are never changed (also not by a receipt carrying
    OPENED or CLICKED). *)
Theorem campaigns_kept (st st' : State) :
  steps st st' ->
  forall k c, campaigns (db st) !! k = Some c ->
    exists c', campaigns (db st') !! k = Some c' /\
      header c' = header c /\
      Campaign.opened (Campaign.stats c') = Campaign.opened (Campaign.stats c) /\
      Campaign.clicked (Campaign.stats c') = Campaign.clicked (Campaign.stats c).
Proof.
  intros Hsteps. induction Hsteps as [st|st st1 st2 Hstep _ IH]; intros k c Hc.
  - exists c. split; [exact Hc|]. repeat split.
  - destruct (step_keeps _ _ Hstep) as (_ & _ & _ & Hc1).
    destruct (Hc1 k c Hc) as (c1 & Hc1' & Hh1 & Ho1 & Hcl1).
    destruct (IH k c1 Hc1') as (c2 & Hc2 & Hh2 & Ho2 & Hcl2).
    exists c2. split; [exact Hc2|]. repeat split; congruence.
Qed.

(** Witness of X14: a receipt carrying OPENED for the first log of the
    sample launch, handled after the launch. *)
Lemma campaigns_kept_witness :
  let st := run Samples.outcomes Samples.times Samples.started in
  exists c', campaigns (db (receipt (Samples.receiptFor Samples.firstId "OPENED") st))
               !! newId Samples.env = Some c' /\
             Campaign.opened (Campaign.stats c') = 0.
Proof.
  intros st.
  destruct (campaigns (db st) !! newId Samples.env) as [c|] eqn:Hc;
    [|vm_compute in Hc; discriminate].
  destruct (campaigns_kept st (receipt (Samples.receiptFor Samples.firstId "OPENED") st)
              (DispatchFacts.receipt_steps _ st) (newId Samples.env) c Hc)
    as (c' & Hc' & _ & Ho & _).
  exists c'. split; [exact Hc'|]. rewrite Ho.
  vm_compute in Hc. injection Hc as <-. reflexivity.
Defined.

(** *** Receipts find the log of the callback they are for *)







(** *** The store a launch leaves *)

Lemma runTask_saving outcomes times st k task :
  tasks st !! k = Some task -> phase task = Saving ->
  runTask outcomes times st k
  = settled k (setPhase (Sending (length (logs (db st)))) task)
      (length (logs (db st))) (outcomes k) (times k) (saved k task st).
Proof. intros Hk Hp. unfold runTask. rewrite Hk, Hp. reflexivity. Qed.

(** The callbacks [k], [k+1], ... driven to their end one after the other
    from a state in which none of them has started. *)
Lemma runTasks_result outcomes times ts : forall k st,
  drop k (tasks st) = ts -> Forall (fun task => phase task = Saving) ts ->
  let st' := foldl (runTask outcomes times) st (seq k (length ts)) in
  logs (db st')
  = (logs (db st)
     ++ imap (fun i task => record (outcomes (k + i)%nat) (times (k + i)%nat) (commLog task)) ts)%list /\
  customers (db st') = customers (db st) /\
  segments (db st') = segments (db st) /\
  campaigns (db st') = campaigns (db st) /\
  response st' = response st /\
  header (campaign st') = header (campaign st) /\
  Campaign.status (campaign st') = Campaign.status (campaign st) /\
  Campaign.delivered (Campaign.stats (campaign st'))
  = Campaign.delivered (Campaign.stats (campaign st)) /\
  Campaign.opened (Campaign.stats (campaign st'))
  = Campaign.opened (Campaign.stats (campaign st)) /\
  Campaign.clicked (Campaign.stats (campaign st'))
  = Campaign.clicked (Campaign.stats (campaign st)).
Proof.
  induction ts as [|task ts IH]; intros k st Hdrop Hsaving.
  - cbn. rewrite app_nil_r. repeat split.
  - apply Forall_cons in Hsaving as [Hp Hsaving].
    assert (tasks st !! k = Some task) as Hk.
    { rewrite <- (Nat.add_0_r k), <- lookup_drop, Hdrop. reflexivity. }
    cbn [length seq foldl]. rewrite (runTask_saving outcomes times st k task Hk Hp).
    set (st1 := settled k _ _ _ _ _).
    assert (drop (S k) (tasks st1) = ts) as Hdrop1.
    { unfold st1. cbn [tasks settled saved]. rewrite !drop_insert_lt by lia.
      rewrite (drop_S _ _ _ Hk) in Hdrop. congruence. }
    destruct (IH (S k) st1 Hdrop1 Hsaving)
      as (Hlogs & Hcust & Hseg & Hcamp & Hresp & Hhead & Hstatus & Hd & Ho & Hc).
    cbn zeta. split.
    { rewrite Hlogs. unfold st1. cbn [db settled saved logs setLogs].
      rewrite <- (Nat.add_0_r (length (logs (db st)))) at 1.
      rewrite alter_app_r. cbn [alter list_alter imap].
      rewrite <- app_assoc. cbn [app]. rewrite Nat.add_0_r. do 2 f_equal.
      apply imap_ext. intros i x _. cbn. rewrite Nat.add_succ_r. reflexivity. }
    rewrite Hcust, Hseg, Hcamp, Hresp, Hhead, Hstatus, Hd, Ho, Hc.
    unfold st1. cbn [db settled saved customers segments campaigns setLogs response
                     campaign Campaign.stats Campaign.setStats Campaign.status].
    repeat split; destruct (outcomes k) as [[[] e v]|]; reflexivity.
Qed.

(** The state a launch starts in, field by field. *)
Lemma launchStart_state env db0 body st0 :
  launchStart env db0 body = inr st0 ->
  exists id, castObjectId env (segmentId body) = Some id /\
  let campaign0 :=
    {| Campaign._id := newId env; Campaign.name := trim (name body);
       Campaign.segmentId := id; Campaign.message := message body;
       Campaign.audienceSize := Z.of_nat (length (audience env db0 body));
       Campaign.status := Campaign.RUNNING; Campaign.createdBy := user env;
       Campaign.stats := Campaign.noStats |} in
  st0 = {| db := setCampaigns (<[newId env := campaign0]> (campaigns db0)) db0;
           campaign := campaign0;
           tasks := imap (fun i c => newTask (newId env) (message body) (now env i) c)
                         (audience env db0 body);
           response := None;
           handlers := [] |}.
Proof.
  unfold launchStart, audience, campaignSchema, findSegment.
  destruct (lengthBetween 2 100 (trim (name body))
            && negb (String.eqb (segmentId body) EmptyString)
            && lengthBetween 10 1000 (message body)); [|discriminate].
  cbn [segmentId name message].
  destruct (castObjectId env (segmentId body)) as [id|]; [|discriminate].
  destruct (segments db0 !! id) as [segment|]; [|discriminate].
  cbn [fmap option_fmap option_map].
  destruct (Mongo.find _ _ _ _) as [[|c found]|] eqn:Hfound; try discriminate.
  intros H. injection H as <-. exists id. split; reflexivity.
Qed.

(** X11: a launch whose callbacks run one after the other, with no
    receipt handled meanwhile, answers 201 with the campaign COMPLETED,
    its name trimmed, its [segmentId] as Mongoose casts it,
    [audienceSize = N], [sent] the number of accepted sends and [failed]
    the number of the others; it leaves the customers and segments
    untouched, adds that campaign to the stored ones, and appends to the
    stored logs one log per customer found, in their order, each recording
    the outcome of its own send. *)
Theorem launch_result (env : Env) (db0 : Db) (body : Request) (st0 : State)
    (id : string) (outcomes : nat -> VendorAPI.Outcome) (times : nat -> Z) :
  launchStart env db0 body = inr st0 ->
  castObjectId env (segmentId body) = Some id ->
  let found := audience env db0 body in
  let N := length found in
  let c :=
    {| Campaign._id := newId env; Campaign.name := trim (name body);
       Campaign.segmentId := id; Campaign.message := message body;
       Campaign.audienceSize := Z.of_nat N;
       Campaign.status := Campaign.COMPLETED; Campaign.createdBy := user env;
       Campaign.stats :=
         {| Campaign.sent := Z.of_nat (acceptedCount outcomes N);
            Campaign.failed := Z.of_nat (N - acceptedCount outcomes N);
            Campaign.delivered := 0; Campaign.opened := 0; Campaign.clicked := 0 |} |} in
  launch env db0 body outcomes times
  = (Created "Campaign created and launched successfully" c,
     {| customers := customers db0;
        segments := segments db0;
        campaigns := <[newId env := c]> (campaigns db0);
        logs := (logs db0
                 ++ imap (fun i cust =>
                            record (outcomes i) (times i)
                              (commLog (newTask (newId env) (message body) (now env i) cust)))
                         found)%list |}).
Proof.
  intros Hstart Hid found N c.
  destruct (DispatchFacts.run_counts env db0 body st0 outcomes times Hstart) as [Hsent Hfailed].
  fold found in Hsent, Hfailed. fold N in Hsent, Hfailed.
  destruct (launchStart_state env db0 body st0 Hstart) as (id' & Hid' & Hst0).
  assert (id' = id) as -> by congruence. cbn zeta in Hst0.
  fold found in Hst0. fold N in Hst0.
  unfold launch. rewrite Hstart.
  assert (response st0 = None) as Hnone by (rewrite Hst0; reflexivity).
  unfold run in *. rewrite Hnone in *.
  destruct (runTasks_result outcomes times (tasks st0) 0 st0 eq_refl)
    as (Hlogs & Hcust & Hseg & Hcamp & Hresp & Hhead & Hstatus & Hd & Ho & Hcl).
  { rewrite Hst0. cbn [tasks]. apply Forall_forall. intros task Hin.
    apply list_elem_of_lookup in Hin as [i Hi].
    apply DispatchFacts.newTask_lookup in Hi as (cust & _ & ->). reflexivity. }
  set (st1 := foldl (runTask outcomes times) st0 (seq 0 (length (tasks st0)))) in *.
  cbn [campaign completed Campaign.stats Campaign.setStatus] in Hsent, Hfailed.
  assert (Campaign.setStatus Campaign.COMPLETED (campaign st1) = c) as Hc.
  { destruct (campaign st1) as [id1 nm seg msg size status by_ [sn fl dl op cl]].
    rewrite Hst0 in Hhead, Hd, Ho, Hcl. unfold header in Hhead.
    cbn in Hhead, Hd, Ho, Hcl, Hsent, Hfailed.
    injection Hhead as -> -> -> -> -> ->. subst. reflexivity. }
  cbn [response completed db]. rewrite Hc. f_equal.
  assert (campaigns (db st1) = <[newId env := campaign st0]> (campaigns db0)) as Hstored
    by (rewrite Hcamp, Hst0; reflexivity).
  assert (setCampaigns
            (alter (saveCampaign c) (Campaign._id c) (campaigns (db st1))) (db st1)
          = {| customers := customers (db st1); segments := segments (db st1);
               campaigns := <[newId env := c]> (campaigns db0); logs := logs (db st1) |}) as ->.
  { unfold setCampaigns. f_equal. rewrite Hstored. cbn [Campaign._id c].
    rewrite alter_insert_eq. f_equal. rewrite Hst0. reflexivity. }
  rewrite Hcust, Hseg, Hlogs, Hst0. cbn [db customers segments logs setCampaigns tasks].
  f_equal. f_equal. clear. generalize (now env), outcomes, times.
  induction found as [|cust found IH]; intros nows os ts; [reflexivity|].
  cbn [imap]. f_equal. apply (IH (nows ∘ S) (os ∘ S) (ts ∘ S)).
Qed.

(** Witness of X11: the sample launch. *)
Lemma launch_result_witness :
  logs (snd (launch Samples.env Samples.store Samples.body Samples.outcomes Samples.times))
  = (logs Samples.store
     ++ imap (fun i cust =>
                record (Samples.outcomes i) (Samples.times i)
                  (commLog (newTask (newId Samples.env) (message Samples.body)
                              (now Samples.env i) cust)))
             (audience Samples.env Samples.store Samples.body))%list.
Proof.
  rewrite (launch_result Samples.env Samples.store Samples.body Samples.started
             "64b0c0ffee0123456789ab10" Samples.outcomes Samples.times);
    [reflexivity | vm_compute; reflexivity | reflexivity].
Defined.

(** X10: a launch that is refused leaves the store as it was: a body that
    fails validation is answered 400, a [segmentId] that cannot be cast
    to an ObjectId 500, an unknown segment 404, a query that cannot be
    cast 500, a segment that selects no customer 400, each with the store
    untouched (no campaign, no log); and a launch is refused only when it
    has found no customer, one with a customer to send to is answered
    201. *)
Theorem launch_refused (env : Env) (db0 : Db) (body : Request)
    (outcomes : nat -> VendorAPI.Outcome) (times : nat -> Z) :
  let answer := launch env db0 body outcomes times in
  (campaignSchema body = None -> answer = (Error 400 "Validation failed", db0)) /\
  (forall value, campaignSchema body = Some value ->
     castObjectId env (segmentId value) = None ->
     answer = (Error 500 "Failed to create campaign", db0)) /\
  (forall value id, campaignSchema body = Some value ->
     castObjectId env (segmentId value) = Some id ->
     segments db0 !! id = None ->
     answer = (Error 404 "Segment not found", db0)) /\
  (forall value id segment, campaignSchema body = Some value ->
     castObjectId env (segmentId value) = Some id ->
     segments db0 !! id = Some segment ->
     let query := Rules.buildSegmentQuery (rt env) (Segment.rules segment) in
     (Mongo.find (rt env) (strictQuery env) (customers db0) query = None ->
      answer = (Error 500 "Failed to create campaign", db0)) /\
     (Mongo.find (rt env) (strictQuery env) (customers db0) query = Some [] ->
      answer = (Error 400 "No customers found in segment", db0))) /\
  (forall code msg, fst answer = Error code msg ->
     snd answer = db0 /\ audience env db0 body = []) /\
  (audience env db0 body <> [] ->
   exists c, fst answer = Created "Campaign created and launched successfully" c).
Proof.
  intros answer.
  assert (forall st0, launchStart env db0 body = inr st0 ->
            audience env db0 body <> [] /\
            exists c, fst answer = Created "Campaign created and launched successfully" c)
    as Hstarted.
  { intros st0 Hstart.
    destruct (DispatchFacts.launchStart_inr _ _ _ _ Hstart) as (Hne & _ & _ & _ & Hnone & _).
    split; [exact Hne|].
    destruct (DispatchFacts.run_spec outcomes times st0 Hnone) as (_ & Hresp & _).
    unfold answer, launch. rewrite Hstart. cbn zeta. rewrite Hresp. eexists. reflexivity. }
  assert (forall r, launchStart env db0 body = inl r -> audience env db0 body = []) as Hnone.
  { intros r. unfold launchStart, audience.
    destruct (campaignSchema body) as [value|]; [|reflexivity].
    destruct (findSegment env db0 (segmentId value)) as [[[id segment]|]|]; try reflexivity.
    destruct (Mongo.find _ _ _ _) as [[|c found]|]; try reflexivity. discriminate. }
  split; [|split; [|split; [|split; [|split]]]].
  - intros Hv. unfold answer, launch, launchStart. rewrite Hv. reflexivity.
  - intros value Hv Hcast. unfold answer, launch, launchStart, findSegment.
    rewrite Hv, Hcast. reflexivity.
  - intros value id Hv Hcast Hseg. unfold answer, launch, launchStart, findSegment.
    rewrite Hv, Hcast, Hseg. reflexivity.
  - intros value id segment Hv Hcast Hseg query. split; intros Hfind;
      unfold answer, launch, launchStart, findSegment; rewrite Hv, Hcast, Hseg;
      cbn [fmap option_fmap option_map]; fold query; rewrite Hfind; reflexivity.
  - intros code msg Herr.
    destruct (launchStart env db0 body) as [r|st0] eqn:Hstart.
    + split; [unfold answer, launch; rewrite Hstart; reflexivity | exact (Hnone r eq_refl)].
    + destruct (Hstarted st0 eq_refl) as (_ & c & Hc). congruence.
  - intros Hne.
    destruct (launchStart env db0 body) as [r|st0] eqn:Hstart.
    + destruct (Hne (Hnone r eq_refl)).
    + apply (Hstarted st0 eq_refl).
Qed.

(** Witness of X10: a launch for a segment id that is no ObjectId. *)
Lemma launch_refused_witness :
  launch Samples.env Samples.store
    {| name := "Diwali offer"; segmentId := "not-an-objectid";
       message := "Hi {name}, enjoy 20% off!" |} Samples.outcomes Samples.times
  = (Error 500 "Failed to create campaign", Samples.store).
Proof.
  refine (proj1 (proj2 (launch_refused Samples.env Samples.store
                          {| name := "Diwali offer"; segmentId := "not-an-objectid";
                             message := "Hi {name}, enjoy 20% off!" |}
                          Samples.outcomes Samples.times))
            {| name := "Diwali offer"; segmentId := "not-an-objectid";
               message := "Hi {name}, enjoy 20% off!" |} _ _).
  - reflexivity.
  - reflexivity.
Defined.

(** *** Ids and messages *)

Lemma decimal_inj z z' : decimal z = decimal z' -> z = z'.
Proof.
  unfold decimal. intros H. apply DecimalZ.to_int_inj.
  assert (forall n, NilZero.int_of_string (NilZero.string_of_int (Z.to_int n))
                    = Some (Z.to_int n)) as Hparse.
  { intros n. apply NilZero.isi; destruct n; cbn; try discriminate;
      intros Hnil; injection Hnil as Hnil;
      exact (DecimalPos.Unsigned.to_uint_nonnil _ Hnil). }
  assert (Some (Z.to_int z) = Some (Z.to_int z')) as Hsome
    by (rewrite <- !Hparse, H; reflexivity).
  congruence.
Qed.

(** X18: a [vendorMessageId] made for ObjectIds determines the campaign,
    the customer and the time it was made for: two ids are equal only
    when all three are. *)
Theorem vendorMessageId_determines (cid cid' uid uid' : string) (t t' : Z) :
  isObjectId cid -> isObjectId cid' -> isObjectId uid -> isObjectId uid' ->
  makeVendorMessageId cid uid t = makeVendorMessageId cid' uid' t' ->
  cid = cid' /\ uid = uid' /\ t = t'.
Proof.
  unfold makeVendorMessageId, isObjectId. intros Hc Hc' Hu Hu' H.
  simpl in H. injection H as H.
  destruct (DispatchFacts.append_inj _ _ _ _ (eq_trans Hc (eq_sym Hc')) H) as [-> H1].
  simpl in H1. injection H1 as H1.
  destruct (DispatchFacts.append_inj _ _ _ _ (eq_trans Hu (eq_sym Hu')) H1) as [-> H2].
  simpl in H2. injection H2 as H2.
  split; [reflexivity|]. split; [reflexivity|]. apply decimal_inj. exact H2.
Qed.

(** Witness of X18: the id of the first log of the sample launch. *)
Lemma vendorMessageId_determines_witness :
  "64b0c0ffee0123456789ab20" = "64b0c0ffee0123456789ab20" /\
  "64b0c0ffee0123456789ab01" = "64b0c0ffee0123456789ab01" /\ Samples.today = Samples.today.
Proof.
  apply (vendorMessageId_determines "64b0c0ffee0123456789ab20" "64b0c0ffee0123456789ab20"
           "64b0c0ffee0123456789ab01" "64b0c0ffee0123456789ab01" Samples.today Samples.today);
    reflexivity.
Defined.

Ltac bits c := destruct c as [[] [] [] [] [] [] [] []].

(** One step of the scan of [replaceName]. *)
Lemma replaceName_cases repl before s :
  match afterToken s with
  | Some rest =>
      s = ("{name}" ++ rest)%string /\
      replaceName repl before s
      = (GetSubstitution "{name}" before rest repl
         ++ replaceName repl (before ++ "{name}") rest)%string
  | None =>
      match s with
      | EmptyString => replaceName repl before s = EmptyString
      | String c rest =>
          replaceName repl before s
          = String c (replaceName repl (before ++ String c EmptyString) rest)
      end
  end.
Proof.
  destruct s as [|c1 s]; [reflexivity|]. bits c1; try reflexivity.
  destruct s as [|c2 s]; [reflexivity|]. bits c2; try reflexivity.
  destruct s as [|c3 s]; [reflexivity|]. bits c3; try reflexivity.
  destruct s as [|c4 s]; [reflexivity|]. bits c4; try reflexivity.
  destruct s as [|c5 s]; [reflexivity|]. bits c5; try reflexivity.
  destruct s as [|c6 s]; [reflexivity|]. bits c6; try reflexivity.
  split; reflexivity.
Qed.

Lemma afterToken_none s : occurs "{" s = false -> afterToken s = None.
Proof.
  destruct s as [|c s]; [reflexivity|]. cbn [occurs]. intros H.
  apply orb_false_iff in H as [Hc _].
  destruct (afterToken (String c s)) as [rest|] eqn:Hafter; [|reflexivity].
  pose proof (replaceName_cases EmptyString EmptyString (String c s)) as Hcases.
  rewrite Hafter in Hcases. destruct Hcases as [Heq _].
  injection Heq as -> _. discriminate.
Qed.

(** A replacement text without [$] is inserted as it is. *)
Lemma GetSubstitution_literal matched before after repl :
  occurs "$" repl = false -> GetSubstitution matched before after repl = repl.
Proof.
  induction repl as [|c repl IH]; [reflexivity|]. cbn [occurs]. intros H.
  apply orb_false_iff in H as [Hc Hrest]. specialize (IH Hrest).
  bits c; try discriminate Hc; cbn [GetSubstitution]; rewrite IH; reflexivity.
Qed.

(** A string without [{] has no token. *)
Lemma replaceName_no_token repl s : forall before,
  occurs "{" s = false -> replaceName repl before s = s.
Proof.
  induction s as [|c s IH]; intros before H; [reflexivity|].
  pose proof (replaceName_cases repl before (String c s)) as Hcases.
  rewrite (afterToken_none _ H) in Hcases. rewrite Hcases. f_equal.
  apply IH. cbn [occurs] in H. apply orb_false_iff in H as [_ H]. exact H.
Qed.

Lemma append_nil_r s : (s ++ EmptyString)%string = s.
Proof.
  induction s as [|c s IH]; [reflexivity|].
  change (String c (s ++ EmptyString)%string = String c s). f_equal. exact IH.
Qed.

Lemma append_assoc s1 s2 s3 : ((s1 ++ s2) ++ s3)%string = (s1 ++ (s2 ++ s3))%string.
Proof.
  induction s1 as [|c s1 IH]; [reflexivity|].
  change (String c ((s1 ++ s2) ++ s3)%string = String c (s1 ++ (s2 ++ s3))%string).
  f_equal. exact IH.
Qed.

Lemma length_append s1 s2 :
  String.length (s1 ++ s2) = (String.length s1 + String.length s2)%nat.
Proof.
  induction s1 as [|c s1 IH]; [reflexivity|].
  change (S (String.length (s1 ++ s2)) = S (String.length s1 + String.length s2)).
  f_equal. exact IH.
Qed.

(** The scan passes a stretch without [{] unchanged. *)
Lemma replaceName_prefix repl pre : forall before s,
  occurs "{" pre = false ->
  replaceName repl before (pre ++ s)
  = (pre ++ replaceName repl (before ++ pre) s)%string.
Proof.
  induction pre as [|c pre IH]; intros before s H.
  - rewrite append_nil_r. reflexivity.
  - cbn [occurs] in H. apply orb_false_iff in H as [Hc Hpre].
    assert (afterToken (String c (pre ++ s)) = None) as Hnone.
    { destruct (afterToken (String c (pre ++ s))) as [rest|] eqn:Hafter; [|reflexivity].
      pose proof (replaceName_cases EmptyString EmptyString (String c (pre ++ s))) as Hcases.
      rewrite Hafter in Hcases. destruct Hcases as [Heq _].
      injection Heq as -> _. discriminate. }
    pose proof (replaceName_cases repl before (String c (pre ++ s))) as Hcases.
    rewrite Hnone in Hcases.
    change (String c pre ++ s)%string with (String c (pre ++ s)%string).
    rewrite Hcases.
    change (String c pre ++ replaceName repl (before ++ String c pre) s)%string
      with (String c (pre ++ replaceName repl (before ++ String c pre) s)%string).
    f_equal. rewrite (IH _ s Hpre), append_assoc. reflexivity.
Qed.

(** With a replacement text without [$] the scan does not depend on what
    it has passed. *)
Lemma replaceName_before repl :
  occurs "$" repl = false ->
  forall n s before before', (String.length s <= n)%nat ->
    replaceName repl before s = replaceName repl before' s.
Proof.
  intros Hrepl. induction n as [|n IH]; intros s before before' Hlen.
  - destruct s; [reflexivity | cbn in Hlen; lia].
  - pose proof (replaceName_cases repl before s) as H.
    pose proof (replaceName_cases repl before' s) as H'.
    destruct (afterToken s) as [rest|].
    + destruct H as [Heq ->]. destruct H' as [_ ->].
      rewrite !GetSubstitution_literal by assumption. f_equal.
      apply IH. rewrite Heq, length_append in Hlen.
      change (String.length "{name}") with 6%nat in Hlen. lia.
    + destruct s as [|c rest]; [reflexivity|]. rewrite H, H'. f_equal.
      apply IH. change (S (String.length rest) <= S n)%nat in Hlen. lia.
Qed.

(** X17: for a customer name without [$], personalization is a plain
    replacement: a template without [{] is sent as it is, and in a
    template [pre{name}post] whose [pre] has no [{] the token is replaced
    by the name and [post] is personalized in the same way. *)
Theorem personalize_literal (customerName : string) :
  occurs "$" customerName = false ->
  (forall template, occurs "{" template = false ->
     personalize template customerName = template) /\
  (forall pre post, occurs "{" pre = false ->
     personalize (pre ++ "{name}" ++ post) customerName
     = (pre ++ customerName ++ personalize post customerName)%string).
Proof.
  intros Hname. unfold personalize. split.
  - intros template H. apply replaceName_no_token. exact H.
  - intros pre post Hpre.
    rewrite (replaceName_prefix customerName pre EmptyString _ Hpre). f_equal.
    pose proof (replaceName_cases customerName (EmptyString ++ pre)
                  ("{name}" ++ post)) as Hcases.
    change (afterToken ("{name}" ++ post)) with (Some post) in Hcases.
    destruct Hcases as [_ Hcases]. rewrite Hcases.
    rewrite GetSubstitution_literal by assumption. f_equal.
    apply (replaceName_before customerName Hname (String.length post)). lia.
Qed.

(** Witness of X17: the template of the sample launch for Asha. *)
Lemma personalize_literal_witness :
  personalize ("Hi " ++ "{name}" ++ ", enjoy 20% off!") "Asha"
  = ("Hi " ++ "Asha" ++ personalize ", enjoy 20% off!" "Asha")%string.
Proof.
  refine (proj2 (personalize_literal "Asha" _) "Hi " ", enjoy 20% off!" _); reflexivity.
Defined.

(** *** What is stored while a launch is under way *)




(** *** Receipt handlers that overlap *)

Lemma withReceipts_same st : withReceipts st (db st) (handlers st) = st.
Proof. destruct st. reflexivity. Qed.

Lemma arrived_withReceipts st d hs r :
  arrived r (withReceipts st d hs) = withReceipts st d (hs ++ [Receipts.arrive d r]).
Proof. reflexivity. Qed.

(** The handler at a position goes on. *)
Lemma step_at st d hs1 h hs2 d' h' :
  Receipts.next d h = Some (d', h') ->
  step (withReceipts st d (hs1 ++ h :: hs2)) (withReceipts st d' (hs1 ++ h' :: hs2)).
Proof.
  intros Hnext.
  pose proof (step_handled (withReceipts st d (hs1 ++ h :: hs2)) (length hs1) h d' h') as H.
  cbn [handlers db withReceipts] in H.
  specialize (H ltac:(rewrite lookup_app_r, Nat.sub_diag by lia; reflexivity) Hnext).
  unfold handled in H. cbn [handlers db campaign tasks response withReceipts] in H.
  rewrite insert_app_r_alt, Nat.sub_diag in H by lia. exact H.
Qed.

Lemma step_second st d hs a b d' b' :
  Receipts.next d b = Some (d', b') ->
  step (withReceipts st d (hs ++ [a; b])) (withReceipts st d' (hs ++ [a; b'])).
Proof.
  intros Hnext. pose proof (step_at st d (hs ++ [a]) b [] d' b' Hnext) as H.
  rewrite <- !app_assoc in H. exact H.
Qed.

(** What the handler of a DELIVERED receipt does at its three awaits. *)
Lemma next_saving d r i l :
  Receipts.status r = Value "DELIVERED" ->
  Receipts.next d {| Receipts.receipt := r; Receipts.phase := Receipts.SavingLog i l |}
  = Some (setLogs (alter (Receipts.saveLog l
                            (Receipts.ingested (Value CommunicationLog.DELIVERED)
                               (Receipts.deliveredAt r) l)) i (logs d)) d,
          {| Receipts.receipt := r; Receipts.phase := Receipts.FindingCampaign l |}).
Proof. intros Hs. unfold Receipts.next. cbn [Receipts.phase Receipts.receipt]. rewrite Hs. reflexivity. Qed.

Lemma next_finding d r l c :
  Receipts.status r = Value "DELIVERED" ->
  campaigns d !! CommunicationLog.campaignId l = Some c ->
  Receipts.next d {| Receipts.receipt := r; Receipts.phase := Receipts.FindingCampaign l |}
  = Some (d, {| Receipts.receipt := r;
                Receipts.phase := Receipts.SavingCampaign (CommunicationLog.campaignId l) c |}).
Proof.
  intros Hs Hc. unfold Receipts.next, Receipts.isDelivered.
  cbn [Receipts.phase Receipts.receipt]. rewrite Hc, Hs. reflexivity.
Qed.

Lemma next_counting d r cid c :
  Receipts.next d {| Receipts.receipt := r; Receipts.phase := Receipts.SavingCampaign cid c |}
  = Some (setCampaigns (alter (Receipts.saveDelivered c) cid (campaigns d)) d, processed r).
Proof. reflexivity. Qed.

(** X21: two receipts carrying DELIVERED for the same stored log, whose
    handlers overlap (each loads the campaign before the other has saved
    it), are both answered with success and [stats.delivered] goes up by
    one only: an update is lost.  Handled one after the other they add
    two. *)
Theorem overlapping_receipts_counted_once (st : State) (r : Receipts.Receipt) (i : nat)
    (l : CommunicationLog.doc) (c : Campaign.doc) :
  Receipts.findOne (logs (db st)) (Receipts.vendorMessageId r) = Some (i, l) ->
  Receipts.status r = Value "DELIVERED" ->
  campaigns (db st) !! CommunicationLog.campaignId l = Some c ->
  let cid := CommunicationLog.campaignId l in
  let d := Campaign.delivered (Campaign.stats c) in
  (exists st', steps st st' /\
     handlers st' = (handlers st ++ [processed r; processed r])%list /\
     deliveredOf (db st') cid = Some (d + 1)) /\
  deliveredOf (db (receipt r (receipt r st))) cid = Some (d + 2).
Proof.
  intros Hfind Hstatus Hc cid d. split.
  - set (a := Receipts.ingested (Value CommunicationLog.DELIVERED) (Receipts.deliveredAt r) l).
    set (d1 := setLogs (alter (Receipts.saveLog l a) i (logs (db st))) (db st)).
    set (d2 := setLogs (alter (Receipts.saveLog l a) i (logs d1)) d1).
    set (d3 := setCampaigns (alter (Receipts.saveDelivered c) cid (campaigns d2)) d2).
    set (d4 := setCampaigns (alter (Receipts.saveDelivered c) cid (campaigns d3)) d3).
    exists (withReceipts st d4 (handlers st ++ [processed r; processed r])).
    split; [|split; [reflexivity|]].
    + rewrite <- (withReceipts_same st) at 1.
      assert (Receipts.arrive (db st) r
              = {| Receipts.receipt := r; Receipts.phase := Receipts.SavingLog i l |}) as Harrive
        by (unfold Receipts.arrive; rewrite Hfind; reflexivity).
      eapply rtc_l; [apply step_arrived|]. rewrite arrived_withReceipts, Harrive.
      eapply rtc_l; [apply step_arrived|]. rewrite arrived_withReceipts, Harrive.
      rewrite <- app_assoc. cbn [app].
      (* the first handler saves the log and loads the campaign *)
      eapply rtc_l; [apply (step_at st _ (handlers st) _ [_]), next_saving, Hstatus|].
      fold a. fold d1.
      eapply rtc_l; [apply (step_at st d1 (handlers st) _ [_]), (next_finding d1 r l c Hstatus Hc)|].
      (* so does the second *)
      eapply rtc_l; [apply step_second, next_saving, Hstatus|].
      fold a. fold d2.
      eapply rtc_l; [apply step_second, (next_finding d2 r l c Hstatus Hc)|].
      (* both save the campaign they loaded *)
      eapply rtc_l; [apply (step_at st d2 (handlers st) _ [_]), next_counting|].
      fold cid. fold d3.
      eapply rtc_l; [apply step_second, next_counting|].
      fold d4. apply rtc_refl.
    + unfold deliveredOf, d4, d3. cbn [db withReceipts campaigns setCampaigns setLogs].
      rewrite !lookup_alter_eq. unfold d2, d1. cbn [campaigns setLogs]. fold cid in Hc.
      rewrite Hc. reflexivity.
  - rewrite !DispatchFacts.receipt_db.
    destruct (ReceiptFacts.delivered_receipt_twice (db st) r i l c Hfind Hstatus Hc)
      as (c2 & Hc2 & Hd2).
    fold cid in Hc2. unfold deliveredOf. rewrite Hc2. cbn. f_equal. exact Hd2.
Qed.

(** Witness of X21: two receipts for the first log of the sample launch,
    after the launch. *)
Lemma overlapping_receipts_counted_once_witness :
  let st := run Samples.outcomes Samples.times Samples.started in
  let r := Samples.receiptFor Samples.firstId "DELIVERED" in
  (exists st', steps st st' /\
     handlers st' = [processed r; processed r] /\
     deliveredOf (db st') (newId Samples.env) = Some 1) /\
  deliveredOf (db (receipt r (receipt r st))) (newId Samples.env) = Some 2.
Proof.
  cbn zeta.
  set (st := run Samples.outcomes Samples.times Samples.started).
  set (r := Samples.receiptFor Samples.firstId "DELIVERED").
  destruct (Receipts.findOne (logs (db st)) (Receipts.vendorMessageId r)) as [[i l]|] eqn:Hfind;
    [|vm_compute in Hfind; discriminate].
  assert (CommunicationLog.campaignId l = newId Samples.env) as Hcid
    by (vm_compute in Hfind; injection Hfind as <- <-; reflexivity).
  destruct (campaigns (db st) !! CommunicationLog.campaignId l) as [c|] eqn:Hc;
    [|rewrite Hcid in Hc; vm_compute in Hc; discriminate].
  assert (Campaign.delivered (Campaign.stats c) = 0) as Hzero
    by (rewrite Hcid in Hc; vm_compute in Hc; injection Hc as <-; reflexivity).
  pose proof (overlapping_receipts_counted_once st r i l c Hfind eq_refl Hc) as H.
  cbn zeta in H. rewrite Hcid, Hzero in H. exact H.
Defined.

Lemma receipt_withReceipts st d hs r :
  receipt r (withReceipts st d hs)
  = withReceipts st (snd (Receipts.deliveryReceipt d r))
      (hs ++ [snd (Receipts.finish 3 d (Receipts.arrive d r))]).
Proof.
  unfold receipt, Receipts.deliveryReceipt. cbn [db withReceipts].
  destruct (Receipts.finish 3 d _). reflexivity.
Qed.

(** X22: [stats.delivered] of a stored campaign can go down: when a
    handler has loaded the campaign for a DELIVERED receipt and two more
    such receipts are handled before it saves, its save takes the
    counter from two more than it was back to one more. *)
Theorem delivered_goes_down (st : State) (r : Receipts.Receipt) (i : nat)
    (l : CommunicationLog.doc) (c : Campaign.doc) :
  Receipts.findOne (logs (db st)) (Receipts.vendorMessageId r) = Some (i, l) ->
  Receipts.status r = Value "DELIVERED" ->
  campaigns (db st) !! CommunicationLog.campaignId l = Some c ->
  let cid := CommunicationLog.campaignId l in
  let d := Campaign.delivered (Campaign.stats c) in
  exists st1 st2, steps st st1 /\ step st1 st2 /\
    deliveredOf (db st1) cid = Some (d + 2) /\
    deliveredOf (db st2) cid = Some (d + 1).
Proof.
  intros Hfind Hstatus Hc cid d.
  pose proof (ReceiptFacts.findOne_Some _ _ _ _ Hfind) as [Hi Hid].
  set (a := Receipts.ingested (Value CommunicationLog.DELIVERED) (Receipts.deliveredAt r) l).
  set (d1 := setLogs (alter (Receipts.saveLog l a) i (logs (db st))) (db st)).
  set (hA := {| Receipts.receipt := r; Receipts.phase := Receipts.SavingCampaign cid c |}).
  assert (Receipts.findOne (logs d1) (Receipts.vendorMessageId r) = Some (i, a)) as Hfind1.
  { unfold d1. cbn [logs setLogs].
    rewrite (ReceiptFacts.alter_insert _ _ _ _ Hi).
    pose proof (ReceiptFacts.saveLog_alone (Value CommunicationLog.DELIVERED)
                  (Receipts.deliveredAt r) l) as Hsave.
    fold a in Hsave. rewrite Hsave.
    apply (ReceiptFacts.findOne_insert _ _ _ l); [exact Hfind|].
    unfold a. rewrite ReceiptFacts.ingested_id. exact Hid. }
  assert (CommunicationLog.campaignId a = cid) as Hcid
    by (unfold a; apply ReceiptFacts.ingested_campaign).
  assert (campaigns d1 !! CommunicationLog.campaignId a = Some c) as Hc1
    by (rewrite Hcid; exact Hc).
  destruct (ReceiptFacts.delivered_receipt_twice d1 r i a c Hfind1 Hstatus Hc1)
    as (c2 & Hc2 & Hd2).
  rewrite Hcid in Hc2.
  set (d3 := snd (Receipts.deliveryReceipt (snd (Receipts.deliveryReceipt d1 r)) r)) in *.
  assert (steps st (withReceipts st d1 (handlers st ++ [hA]))) as Hstart.
  { rewrite <- (withReceipts_same st) at 1.
    eapply rtc_l; [apply step_arrived|]. rewrite arrived_withReceipts.
    assert (Receipts.arrive (db st) r
            = {| Receipts.receipt := r; Receipts.phase := Receipts.SavingLog i l |}) as ->
      by (unfold Receipts.arrive; rewrite Hfind; reflexivity).
    eapply rtc_l; [apply (step_at st _ (handlers st) _ []), next_saving, Hstatus|].
    fold a. fold d1.
    apply rtc_once. apply (step_at st d1 (handlers st) _ []).
    apply (next_finding d1 r l c Hstatus Hc). }
  eexists (receipt r (receipt r (withReceipts st d1 (handlers st ++ [hA])))), _.
  split; [|split; [|split]].
  - etrans; [exact Hstart|]. etrans; apply DispatchFacts.receipt_steps.
  - rewrite !receipt_withReceipts. fold d3. rewrite <- !app_assoc. cbn [app].
    apply (step_at st d3 (handlers st) hA [_; _]). apply next_counting.
  - rewrite !DispatchFacts.receipt_db. cbn [db withReceipts]. fold d3.
    unfold deliveredOf. rewrite Hc2. cbn. f_equal. exact Hd2.
  - unfold deliveredOf, setCampaigns. cbn [db withReceipts campaigns].
    rewrite lookup_alter_eq, Hc2. reflexivity.
Qed.

(** Witness of X22: receipts for the first log of the sample launch,
    after the launch. *)
Lemma delivered_goes_down_witness :
  let st := run Samples.outcomes Samples.times Samples.started in
  exists st1 st2, steps st st1 /\ step st1 st2 /\
    deliveredOf (db st1) (newId Samples.env) = Some 2 /\
    deliveredOf (db st2) (newId Samples.env) = Some 1.
Proof.
  cbn zeta.
  set (st := run Samples.outcomes Samples.times Samples.started).
  set (r := Samples.receiptFor Samples.firstId "DELIVERED").
  destruct (Receipts.findOne (logs (db st)) (Receipts.vendorMessageId r)) as [[i l]|] eqn:Hfind;
    [|vm_compute in Hfind; discriminate].
  assert (CommunicationLog.campaignId l = newId Samples.env) as Hcid
    by (vm_compute in Hfind; injection Hfind as <- <-; reflexivity).
  destruct (campaigns (db st) !! CommunicationLog.campaignId l) as [c|] eqn:Hc;
    [|rewrite Hcid in Hc; vm_compute in Hc; discriminate].
  assert (Campaign.delivered (Campaign.stats c) = 0) as Hzero
    by (rewrite Hcid in Hc; vm_compute in Hc; injection Hc as <-; reflexivity).
  pose proof (delivered_goes_down st r i l c Hfind eq_refl Hc) as H.
  cbn zeta in H. rewrite Hcid, Hzero in H. exact H.
Defined.

End DispatchCoverage.
